(** * verbose: transcript ingestion and live session index

    A shallow embedding of the [session] package of the [verbose] terminal
    viewer: the JSONL transcript parser ([ParseSessionFile] and its helpers)
    and the in-memory session [Store] with its directory scan and file
    watcher, followed by the properties established about them.

    Conventions of the embedding.
    - A Go [string] is a [string] (a sequence of bytes); a file's content and
      the lines the scanner hands out are strings as well.
    - A Go [int] is a [Z] kept in the signed 64-bit range (the size of
      [int] on 64-bit platforms); every addition the source performs is
      followed by the wrap-around [wrap64].
    - A [time.Time] is the instant it denotes, counted in nanoseconds from
      the zero time (January 1 of year 1, 00:00 UTC); [IsZero], [After] and
      [Before] only look at the instant.
    - [interface{}] values produced by the JSON decoder are [jvalue]s.
    - A Go map is a [gmap]/[gset]; ranging over a map yields its keys in an
      order the language leaves unspecified, which is modelled by the
      relation [range_keys].
    - The functions of [strings], [path/filepath] (Unix paths) and
      [bufio.Scanner] the source calls are written out after their
      documented behaviour; [json.Unmarshal], [json.Marshal], [time.Parse]
      and [strings.TrimSpace] are variables of the section below.
    - The mutex of the store is rendered by atomic steps: each insertion
      into the map and each read of it is one step. *)

From Stdlib Require Import ZArith Floats Ascii String.
From stdpp Require Import gmap strings list fin_maps sorting.

Local Open Scope string_scope.
Local Open Scope list_scope.
Local Open Scope stdpp_scope.
Local Open Scope Z_scope.

(** ** Go integers *)

Module GoInt.

Definition wrap64 (z : Z) : Z := (z + 2 ^ 63) mod 2 ^ 64 - 2 ^ 63.

Definition add (a b : Z) : Z := wrap64 (a + b).

Definition incr (a : Z) : Z := add a 1.

Definition in_range (z : Z) : Prop := - 2 ^ 63 <= z < 2 ^ 63.

(** [float64(n)] for an [int] n. *)
Definition to_float64 (z : Z) : float :=
  if z =? - 2 ^ 63 then (-9223372036854775808)%float
  else if z <? 0 then PrimFloat.opp (PrimFloat.of_uint63 (Uint63.of_Z (- z)))
  else PrimFloat.of_uint63 (Uint63.of_Z z).

End GoInt.

(** ** The [strings] package *)

Module Strings.

Definition HasPrefix (s pre : string) : bool := String.prefix pre s.

Definition HasSuffix (s suf : string) : bool :=
  (String.length suf <=? String.length s)%nat
  && String.eqb (String.substring (String.length s - String.length suf) (String.length suf) s) suf.

Definition TrimSuffix (s suf : string) : string :=
  if HasSuffix s suf then String.substring 0 (String.length s - String.length suf) s else s.

(** [ReplaceAll s old new] for a non-empty [old]: the non-overlapping
    occurrences of [old], found from left to right, are replaced by [new].
    [skip] counts the bytes of a matched occurrence still to be dropped. *)
Fixpoint replaceFrom (skip : nat) (s old new : string) : string :=
  match s with
  | EmptyString => EmptyString
  | String c s' =>
      match skip with
      | S k => replaceFrom k s' old new
      | O =>
          if String.prefix old s
          then new +:+ replaceFrom (String.length old - 1) s' old new
          else String c (replaceFrom 0 s' old new)
      end
  end.

Definition ReplaceAll (s old new : string) : string := replaceFrom 0 s old new.

End Strings.

(** ** The [path/filepath] package (Unix: separator [/], no volume names) *)

Module Filepath.

Definition Separator : ascii := "/"%char.

Definition IsPathSeparator (c : ascii) : bool := Ascii.eqb c Separator.

(** The elements of a path between its separators, in order; [cur] is the
    element being read, reversed. *)
Fixpoint elementsFrom (cur : list ascii) (s : string) : list string :=
  match s with
  | EmptyString => [string_of_list_ascii (rev cur)]
  | String c s' =>
      if IsPathSeparator c
      then string_of_list_ascii (rev cur) :: elementsFrom [] s'
      else elementsFrom (c :: cur) s'
  end.

Definition elements (s : string) : list string := elementsFrom [] s.

Definition joinElements (l : list string) : string := String.concat "/" l.

(** One step of [Clean]'s loop: [ups] counts the leading [..] elements
    that cannot be removed, [kept] holds the elements kept so far, last
    one first. *)
Definition cleanStep (rooted : bool) (st : nat * list string) (e : string)
  : nat * list string :=
  let '(ups, kept) := st in
  if String.eqb e "" then st
  else if String.eqb e "." then st
  else if String.eqb e ".." then
    match kept with
    | _ :: kept' => (ups, kept')
    | [] => if rooted then st else (S ups, kept)
    end
  else (ups, e :: kept).

Definition Clean (path : string) : string :=
  match path with
  | EmptyString => "."
  | String c _ =>
      let rooted := IsPathSeparator c in
      let '(ups, kept) := fold_left (cleanStep rooted) (elements path) (O, []) in
      let body := joinElements (repeat ".." ups ++ rev kept) in
      if rooted then String Separator body
      else if String.eqb body "" then "." else body
  end.

(** Index just past the last separator of [s] (0 when there is none). *)
Fixpoint afterLastSeparator (s : string) : nat :=
  match s with
  | EmptyString => O
  | String c s' =>
      let r := afterLastSeparator s' in
      if (0 <? r)%nat then S r
      else if IsPathSeparator c then 1%nat else O
  end.

Definition Dir (path : string) : string :=
  Clean (String.substring 0 (afterLastSeparator path) path).

(** [s] with its trailing separators removed. *)
Fixpoint stripTrailingSeparators (s : string) : string :=
  match s with
  | EmptyString => EmptyString
  | String c s' =>
      match stripTrailingSeparators s' with
      | EmptyString => if IsPathSeparator c then EmptyString else String c EmptyString
      | r => String c r
      end
  end.

Definition Base (path : string) : string :=
  match path with
  | EmptyString => "."
  | _ =>
      let p := stripTrailingSeparators path in
      let p   := String.substring (afterLastSeparator p) (String.length p) p in
      match p with
      | EmptyString => String Separator EmptyString
      | _ => p
      end
  end.

(** [filepath.Join elem...]: leading empty elements are dropped, the
    rest is joined with separators and cleaned. *)
Fixpoint Join (elem : list string) : string :=
  match elem with
  | [] => ""
  | e :: rest =>
      if String.eqb e "" then Join rest else Clean (String.concat "/" elem)
  end.

End Filepath.

(** ** The [time] package: instants *)

Module Time.

Definition t : Type := Z.

(** The zero value of [time.Time]. *)
Definition zero : t := 0.

Definition IsZero (x : t) : bool := x =? 0.
Definition After (x u : t) : bool := u <? x.
Definition Before (x u : t) : bool := x <? u.

Definition RFC3339 : string := "2006-01-02T15:04:05Z07:00".
Definition RFC3339Nano : string := "2006-01-02T15:04:05.999999999Z07:00".

End Time.

(** ** Decoded JSON values ([interface{}]) *)

#[local] Set Warnings "-register-all,-clear-no-such-hyp".

Inductive jvalue : Type :=
  | JNull
  | JBool (b : bool)
  | JNumber (f : float)
  | JString (s : string)
  | JArray (l : list jvalue)
  | JObject (m : gmap string jvalue).

(** [m[k]] on a [map[string]interface{}]: a missing key gives [nil]. *)
Definition jindex (m : gmap string jvalue) (k : string) : jvalue :=
  default JNull (m !! k).

(** [v.(string)], [v.(bool)], [v.(map[string]interface{})] with the
    comma-ok form. *)
Definition asString (v : jvalue) : option string :=
  match v with JString s => Some s | _ => None end.
Definition asBool (v : jvalue) : option bool :=
  match v with JBool b => Some b | _ => None end.
Definition asMap (v : jvalue) : option (gmap string jvalue) :=
  match v with JObject m => Some m | _ => None end.

(** ** Data model (types.go) *)

Inductive EventType : Type :=
  | EventUserPrompt
  | EventThinking
  | EventText
  | EventToolUse
  | EventToolResult
  | EventSystem
  | EventCompaction.

#[global] Instance EventType_eq_dec : EqDecision EventType.
Proof. solve_decision. Defined.

Module Event.
Record t : Type := mk {
  Type_ : EventType;
  Timestamp : Time.t;
  UUID : string;
  UserText : string;
  Text : string;
  Thinking : string;
  ToolName : string;
  ToolInput : option (gmap string jvalue);   (* [None] is the nil map *)
  ToolID : string;
  ToolOutput : string;
  IsError : bool;
  CompactPreTokens : Z;
  CompactTrigger : string;
  InputTokens : Z;
  OutputTokens : Z
}.

(** The zero value [Event{}]. *)
Definition zero : t := mk EventUserPrompt Time.zero "" "" "" "" "" None "" "" false 0 "" 0 0.
End Event.

Module rawCompactMetadata.
Record t : Type := mk { Trigger : string; PreTokens : Z }.
End rawCompactMetadata.

Module rawUsage.
Record t : Type := mk {
  InputTokens : Z;
  OutputTokens : Z;
  CacheCreationInputTokens : Z;
  CacheReadInputTokens : Z
}.
End rawUsage.

Module rawMessage.
Record t : Type := mk {
  Role : string;
  Content : jvalue;
  Model : string;
  Usage : option rawUsage.t;
  ID : string
}.
End rawMessage.

Module rawEntry.
Record t : Type := mk {
  Type_ : string;
  Subtype : string;
  UUID : string;
  ParentUUID : option string;
  SessionID : string;
  CWD : string;
  Timestamp : string;
  Version : string;
  GitBranch : string;
  Message : option rawMessage.t;
  Content : string;
  CompactMetadata : option rawCompactMetadata.t;
  IsCompactSummary : bool
}.
End rawEntry.

Module SessionInfo.
Record t : Type := mk {
  ID : string;
  ProjectDir : string;
  ProjectName : string;
  FilePath : string;
  StartTime : Time.t;
  LastUpdate : Time.t;
  InputTokens : Z;
  OutputTokens : Z;
  CacheReadTokens : Z;
  CacheWriteTokens : Z;
  CostUSD : float;
  EventCount : Z;
  ToolCallCount : Z;
  UserPrompts : Z;
  FilesRead : list string;
  FilesWritten : list string;
  FilesCreated : list string;
  BashCommands : Z;
  Errors : Z;
  IsAgent : bool;
  Model : string;
  CWD : string
}.

(** Assignments to single fields of a [SessionInfo]. *)
Definition setStartTime (v : Time.t) (i : t) : t :=
  mk (ID i) (ProjectDir i) (ProjectName i) (FilePath i) v (LastUpdate i) (InputTokens i) (OutputTokens i) (CacheReadTokens i) (CacheWriteTokens i) (CostUSD i) (EventCount i) (ToolCallCount i) (UserPrompts i) (FilesRead i) (FilesWritten i) (FilesCreated i) (BashCommands i) (Errors i) (IsAgent i) (Model i) (CWD i).
Definition setLastUpdate (v : Time.t) (i : t) : t :=
  mk (ID i) (ProjectDir i) (ProjectName i) (FilePath i) (StartTime i) v (InputTokens i) (OutputTokens i) (CacheReadTokens i) (CacheWriteTokens i) (CostUSD i) (EventCount i) (ToolCallCount i) (UserPrompts i) (FilesRead i) (FilesWritten i) (FilesCreated i) (BashCommands i) (Errors i) (IsAgent i) (Model i) (CWD i).
Definition setInputTokens (v : Z) (i : t) : t :=
  mk (ID i) (ProjectDir i) (ProjectName i) (FilePath i) (StartTime i) (LastUpdate i) v (OutputTokens i) (CacheReadTokens i) (CacheWriteTokens i) (CostUSD i) (EventCount i) (ToolCallCount i) (UserPrompts i) (FilesRead i) (FilesWritten i) (FilesCreated i) (BashCommands i) (Errors i) (IsAgent i) (Model i) (CWD i).
Definition setOutputTokens (v : Z) (i : t) : t :=
  mk (ID i) (ProjectDir i) (ProjectName i) (FilePath i) (StartTime i) (LastUpdate i) (InputTokens i) v (CacheReadTokens i) (CacheWriteTokens i) (CostUSD i) (EventCount i) (ToolCallCount i) (UserPrompts i) (FilesRead i) (FilesWritten i) (FilesCreated i) (BashCommands i) (Errors i) (IsAgent i) (Model i) (CWD i).
Definition setCacheReadTokens (v : Z) (i : t) : t :=
  mk (ID i) (ProjectDir i) (ProjectName i) (FilePath i) (StartTime i) (LastUpdate i) (InputTokens i) (OutputTokens i) v (CacheWriteTokens i) (CostUSD i) (EventCount i) (ToolCallCount i) (UserPrompts i) (FilesRead i) (FilesWritten i) (FilesCreated i) (BashCommands i) (Errors i) (IsAgent i) (Model i) (CWD i).
Definition setCacheWriteTokens (v : Z) (i : t) : t :=
  mk (ID i) (ProjectDir i) (ProjectName i) (FilePath i) (StartTime i) (LastUpdate i) (InputTokens i) (OutputTokens i) (CacheReadTokens i) v (CostUSD i) (EventCount i) (ToolCallCount i) (UserPrompts i) (FilesRead i) (FilesWritten i) (FilesCreated i) (BashCommands i) (Errors i) (IsAgent i) (Model i) (CWD i).
Definition setCostUSD (v : float) (i : t) : t :=
  mk (ID i) (ProjectDir i) (ProjectName i) (FilePath i) (StartTime i) (LastUpdate i) (InputTokens i) (OutputTokens i) (CacheReadTokens i) (CacheWriteTokens i) v (EventCount i) (ToolCallCount i) (UserPrompts i) (FilesRead i) (FilesWritten i) (FilesCreated i) (BashCommands i) (Errors i) (IsAgent i) (Model i) (CWD i).
Definition setEventCount (v : Z) (i : t) : t :=
  mk (ID i) (ProjectDir i) (ProjectName i) (FilePath i) (StartTime i) (LastUpdate i) (InputTokens i) (OutputTokens i) (CacheReadTokens i) (CacheWriteTokens i) (CostUSD i) v (ToolCallCount i) (UserPrompts i) (FilesRead i) (FilesWritten i) (FilesCreated i) (BashCommands i) (Errors i) (IsAgent i) (Model i) (CWD i).
Definition setToolCallCount (v : Z) (i : t) : t :=
  mk (ID i) (ProjectDir i) (ProjectName i) (FilePath i) (StartTime i) (LastUpdate i) (InputTokens i) (OutputTokens i) (CacheReadTokens i) (CacheWriteTokens i) (CostUSD i) (EventCount i) v (UserPrompts i) (FilesRead i) (FilesWritten i) (FilesCreated i) (BashCommands i) (Errors i) (IsAgent i) (Model i) (CWD i).
Definition setUserPrompts (v : Z) (i : t) : t :=
  mk (ID i) (ProjectDir i) (ProjectName i) (FilePath i) (StartTime i) (LastUpdate i) (InputTokens i) (OutputTokens i) (CacheReadTokens i) (CacheWriteTokens i) (CostUSD i) (EventCount i) (ToolCallCount i) v (FilesRead i) (FilesWritten i) (FilesCreated i) (BashCommands i) (Errors i) (IsAgent i) (Model i) (CWD i).
Definition setFilesRead (v : list string) (i : t) : t :=
  mk (ID i) (ProjectDir i) (ProjectName i) (FilePath i) (StartTime i) (LastUpdate i) (InputTokens i) (OutputTokens i) (CacheReadTokens i) (CacheWriteTokens i) (CostUSD i) (EventCount i) (ToolCallCount i) (UserPrompts i) v (FilesWritten i) (FilesCreated i) (BashCommands i) (Errors i) (IsAgent i) (Model i) (CWD i).
Definition setFilesWritten (v : list string) (i : t) : t :=
  mk (ID i) (ProjectDir i) (ProjectName i) (FilePath i) (StartTime i) (LastUpdate i) (InputTokens i) (OutputTokens i) (CacheReadTokens i) (CacheWriteTokens i) (CostUSD i) (EventCount i) (ToolCallCount i) (UserPrompts i) (FilesRead i) v (FilesCreated i) (BashCommands i) (Errors i) (IsAgent i) (Model i) (CWD i).
Definition setFilesCreated (v : list string) (i : t) : t :=
  mk (ID i) (ProjectDir i) (ProjectName i) (FilePath i) (StartTime i) (LastUpdate i) (InputTokens i) (OutputTokens i) (CacheReadTokens i) (CacheWriteTokens i) (CostUSD i) (EventCount i) (ToolCallCount i) (UserPrompts i) (FilesRead i) (FilesWritten i) v (BashCommands i) (Errors i) (IsAgent i) (Model i) (CWD i).
Definition setBashCommands (v : Z) (i : t) : t :=
  mk (ID i) (ProjectDir i) (ProjectName i) (FilePath i) (StartTime i) (LastUpdate i) (InputTokens i) (OutputTokens i) (CacheReadTokens i) (CacheWriteTokens i) (CostUSD i) (EventCount i) (ToolCallCount i) (UserPrompts i) (FilesRead i) (FilesWritten i) (FilesCreated i) v (Errors i) (IsAgent i) (Model i) (CWD i).
Definition setErrors (v : Z) (i : t) : t :=
  mk (ID i) (ProjectDir i) (ProjectName i) (FilePath i) (StartTime i) (LastUpdate i) (InputTokens i) (OutputTokens i) (CacheReadTokens i) (CacheWriteTokens i) (CostUSD i) (EventCount i) (ToolCallCount i) (UserPrompts i) (FilesRead i) (FilesWritten i) (FilesCreated i) (BashCommands i) v (IsAgent i) (Model i) (CWD i).
Definition setModel (v : string) (i : t) : t :=
  mk (ID i) (ProjectDir i) (ProjectName i) (FilePath i) (StartTime i) (LastUpdate i) (InputTokens i) (OutputTokens i) (CacheReadTokens i) (CacheWriteTokens i) (CostUSD i) (EventCount i) (ToolCallCount i) (UserPrompts i) (FilesRead i) (FilesWritten i) (FilesCreated i) (BashCommands i) (Errors i) (IsAgent i) v (CWD i).
Definition setCWD (v : string) (i : t) : t :=
  mk (ID i) (ProjectDir i) (ProjectName i) (FilePath i) (StartTime i) (LastUpdate i) (InputTokens i) (OutputTokens i) (CacheReadTokens i) (CacheWriteTokens i) (CostUSD i) (EventCount i) (ToolCallCount i) (UserPrompts i) (FilesRead i) (FilesWritten i) (FilesCreated i) (BashCommands i) (Errors i) (IsAgent i) (Model i) v.
End SessionInfo.

Module Session.
Record t : Type := mk { Info : SessionInfo.t; Events : list Event.t }.
End Session.

(** ** Data model (store.go) *)

Module DirEntry.
Record t : Type := mk { Name : string; IsDir : bool }.
End DirEntry.

(** The file system as the store sees it at one moment: [os.ReadDir] and
    the content [os.Open] gives access to; [None] stands for an error. *)
Record FS : Type := mkFS {
  readDir : string -> option (list DirEntry.t);
  openFile : string -> option string
}.

Module Store.
Record t : Type := mk {
  sessions : gmap string Session.t;   (* keyed by session ID *)
  baseDir : string;
  watched : list string;              (* directories added to the watcher *)
  updates : bool                      (* channel of capacity 1: a signal is pending *)
}.
End Store.

(** ** [bufio.Scanner] with [ScanLines] and a bounded buffer *)

Module Scanner.

(** The bound handed to [scanner.Buffer]: 10 MB. *)
Definition maxTokenSize : Z := 10 * 1024 * 1024.

Definition LF : ascii := "010"%char.
Definition CR : ascii := "013"%char.

(** The lines of the content, without their terminating newline; a final
    unterminated line counts when it is not empty. *)
Fixpoint linesFrom (cur : list ascii) (s : string) : list string :=
  match s with
  | EmptyString =>
      match cur with
      | [] => []
      | _ => [string_of_list_ascii (rev cur)]
      end
  | String c s' =>
      if Ascii.eqb c LF
      then string_of_list_ascii (rev cur) :: linesFrom [] s'
      else linesFrom (c :: cur) s'
  end.

Fixpoint dropLastCR (s : string) : string :=
  match s with
  | EmptyString => EmptyString
  | String c EmptyString => if Ascii.eqb c CR then EmptyString else s
  | String c s' => String c (dropLastCR s')
  end.

(** A line is delivered when it fits the buffer together with its
    newline; the first line that does not makes [Scan] return false for
    good, and the lines after it are never seen. *)
Definition fits (line : string) : bool :=
  Z.of_nat (String.length line) + 1 <=? maxTokenSize.

Fixpoint untilTooLong (ls : list string) : list string :=
  match ls with
  | [] => []
  | l :: rest => if fits l then l :: untilTooLong rest else []
  end.

(** The successive values of [scanner.Bytes()]. *)
Definition tokens (content : string) : list string :=
  map dropLastCR (untilTooLong (linesFrom [] content)).

End Scanner.

(** ** Sample transcripts

    Concrete lines and the records Go decodes them to, used to run the
    parser. The JSON text is written with ['] where the file has a double
    quote; [json] puts the double quotes back. *)

Module Sample.

Definition json (s : string) : string :=
  string_of_list_ascii
    (map (fun c => if Ascii.eqb c "'"%char then "034"%char else c) (list_ascii_of_string s)).

(** Instants of the timestamps used, in nanoseconds from the zero time:
    2024-01-01T00:00:00Z is 63839664000 seconds after it. *)
Definition t0 : Time.t := 63839664000 * 1000000000.
Definition t1 : Time.t := 63839664001 * 1000000000.
Definition t2 : Time.t := 63839664002 * 1000000000.

(** [time.Parse] on the timestamps of the samples; both layouts accept
    them, and anything else is taken to be rejected. *)
Definition time_Parse (layout s : string) : option Time.t :=
  if negb (String.eqb layout Time.RFC3339Nano || String.eqb layout Time.RFC3339) then None
  else if String.eqb s "2024-01-01T00:00:00Z" then Some t0
  else if String.eqb s "2024-01-01T00:00:01Z" then Some t1
  else if String.eqb s "2024-01-01T00:00:02Z" then Some t2
  else None.

(** [strings.TrimSpace] on ASCII text. *)
Definition isSpace (c : ascii) : bool :=
  Ascii.eqb c " "%char || Ascii.eqb c "009"%char || Ascii.eqb c "010"%char
  || Ascii.eqb c "011"%char || Ascii.eqb c "012"%char || Ascii.eqb c "013"%char.

Fixpoint trimLeft (l : list ascii) : list ascii :=
  match l with
  | c :: l' => if isSpace c then trimLeft l' else l
  | [] => []
  end.

Definition strings_TrimSpace (s : string) : string :=
  string_of_list_ascii (rev (trimLeft (rev (trimLeft (list_ascii_of_string s))))).

(** [json.Marshal] on the values the samples can hand to it. *)
Definition json_Marshal (v : jvalue) : string :=
  match v with
  | JNull => "null"
  | JBool true => "true"
  | JBool false => "false"
  | _ => ""
  end.

Definition record (type uuid timestamp cwd : string) (message : option rawMessage.t)
    (isCompactSummary : bool) : rawEntry.t :=
  rawEntry.mk type "" uuid None "" cwd timestamp "" "" message "" None isCompactSummary.

(** A user prompt at t0. *)
Definition promptLine : string :=
  json "{'type':'user','uuid':'u1','timestamp':'2024-01-01T00:00:00Z','cwd':'/home/u/proj','message':{'role':'user','content':'hi'}}".
Definition prompt : rawEntry.t :=
  record "user" "u1" "2024-01-01T00:00:00Z" "/home/u/proj"
    (Some (rawMessage.mk "user" (JString "hi") "" None "")) false.

(** An assistant message m1 at t1 running [ls], with usage 10/5. *)
Definition bashLine : string :=
  json "{'type':'assistant','uuid':'a1','timestamp':'2024-01-01T00:00:01Z','message':{'id':'m1','role':'assistant','model':'opus','content':[{'type':'tool_use','id':'tu1','name':'Bash','input':{'command':'ls'}}],'usage':{'input_tokens':10,'output_tokens':5}}}".
Definition bash : rawEntry.t :=
  record "assistant" "a1" "2024-01-01T00:00:01Z" ""
    (Some (rawMessage.mk "assistant"
       (JArray [JObject {[ "type" := JString "tool_use"; "id" := JString "tu1";
                           "name" := JString "Bash";
                           "input" := JObject {[ "command" := JString "ls" ]} ]}])
       "opus" (Some (rawUsage.mk 10 5 0 0)) "m1")) false.

(** The tool result at t2. *)
Definition resultLine : string :=
  json "{'type':'user','uuid':'u2','timestamp':'2024-01-01T00:00:02Z','message':{'role':'user','content':[{'type':'tool_result','tool_use_id':'tu1','content':'file.txt','is_error':false}]}}".
Definition result : rawEntry.t :=
  record "user" "u2" "2024-01-01T00:00:02Z" ""
    (Some (rawMessage.mk "user"
       (JArray [JObject {[ "type" := JString "tool_result"; "tool_use_id" := JString "tu1";
                           "content" := JString "file.txt"; "is_error" := JBool false ]}])
       "" None "")) false.

(** Two revisions of message m1 that carry the same timestamp t1. *)
Definition partialLine : string :=
  json "{'type':'assistant','uuid':'a1','timestamp':'2024-01-01T00:00:01Z','message':{'id':'m1','role':'assistant','content':[{'type':'text','text':'Hel'}]}}".
Definition partial : rawEntry.t :=
  record "assistant" "a1" "2024-01-01T00:00:01Z" ""
    (Some (rawMessage.mk "assistant"
       (JArray [JObject {[ "type" := JString "text"; "text" := JString "Hel" ]}])
       "" None "m1")) false.

Definition completeLine : string :=
  json "{'type':'assistant','uuid':'a2','timestamp':'2024-01-01T00:00:01Z','message':{'id':'m1','role':'assistant','content':[{'type':'text','text':'Hello'}]}}".
Definition complete : rawEntry.t :=
  record "assistant" "a2" "2024-01-01T00:00:01Z" ""
    (Some (rawMessage.mk "assistant"
       (JArray [JObject {[ "type" := JString "text"; "text" := JString "Hello" ]}])
       "" None "m1")) false.

(** An assistant message m2 at t1 reading two files. *)
Definition readsLine : string :=
  json "{'type':'assistant','uuid':'a3','timestamp':'2024-01-01T00:00:01Z','message':{'id':'m2','role':'assistant','content':[{'type':'tool_use','id':'r1','name':'Read','input':{'file_path':'/a'}},{'type':'tool_use','id':'r2','name':'Read','input':{'file_path':'/b'}}]}}".
Definition reads : rawEntry.t :=
  record "assistant" "a3" "2024-01-01T00:00:01Z" ""
    (Some (rawMessage.mk "assistant"
       (JArray [JObject {[ "type" := JString "tool_use"; "id" := JString "r1";
                           "name" := JString "Read";
                           "input" := JObject {[ "file_path" := JString "/a" ]} ]};
                JObject {[ "type" := JString "tool_use"; "id" := JString "r2";
                           "name" := JString "Read";
                           "input" := JObject {[ "file_path" := JString "/b" ]} ]}])
       "" None "m2")) false.

(** Two assistant messages m3 and m4 whose usage is 2^62 input tokens each. *)
Definition hugeLine3 : string :=
  json "{'type':'assistant','uuid':'a4','timestamp':'2024-01-01T00:00:01Z','message':{'id':'m3','role':'assistant','content':[],'usage':{'input_tokens':4611686018427387904}}}".
Definition huge3 : rawEntry.t :=
  record "assistant" "a4" "2024-01-01T00:00:01Z" ""
    (Some (rawMessage.mk "assistant" (JArray []) ""
       (Some (rawUsage.mk 4611686018427387904 0 0 0)) "m3")) false.

Definition hugeLine4 : string :=
  json "{'type':'assistant','uuid':'a5','timestamp':'2024-01-01T00:00:02Z','message':{'id':'m4','role':'assistant','content':[],'usage':{'input_tokens':4611686018427387904}}}".
Definition huge4 : rawEntry.t :=
  record "assistant" "a5" "2024-01-01T00:00:02Z" ""
    (Some (rawMessage.mk "assistant" (JArray []) ""
       (Some (rawUsage.mk 4611686018427387904 0 0 0)) "m4")) false.

(** A user prompt at t2, for a file whose timestamps go backwards. *)
Definition lateLine : string :=
  json "{'type':'user','uuid':'u3','timestamp':'2024-01-01T00:00:02Z','message':{'role':'user','content':'later'}}".
Definition late : rawEntry.t :=
  record "user" "u3" "2024-01-01T00:00:02Z" ""
    (Some (rawMessage.mk "user" (JString "later") "" None "")) false.

(** An injected compaction summary at t1. *)
Definition summaryLine : string :=
  json "{'type':'user','uuid':'c1','timestamp':'2024-01-01T00:00:01Z','isCompactSummary':true,'message':{'role':'user','content':'Summary of the conversation so far'}}".
Definition summary : rawEntry.t :=
  record "user" "c1" "2024-01-01T00:00:01Z" ""
    (Some (rawMessage.mk "user" (JString "Summary of the conversation so far") "" None ""))
    true.

(** An assistant record at t2 without a message. *)
Definition bareLine : string :=
  json "{'type':'assistant','uuid':'x1','timestamp':'2024-01-01T00:00:02Z'}".
Definition bare : rawEntry.t :=
  record "assistant" "x1" "2024-01-01T00:00:02Z" "" None false.

(** A line cut short by a partial write. *)
Definition truncatedLine : string := json "{'type':'user','uu".


(** [json.Unmarshal] on the lines above; any other text is taken to be
    rejected. *)
Definition json_Unmarshal (line : string) : option rawEntry.t :=
  (fun found => snd (snd found)) <$>
    list_find (fun p => String.eqb (fst p) line = true)
      [(promptLine, prompt); (bashLine, bash); (resultLine, result);
       (partialLine, partial); (completeLine, complete); (readsLine, reads);
       (hugeLine3, huge3); (hugeLine4, huge4); (lateLine, late);
       (summaryLine, summary); (bareLine, bare)].

(** The content of a file made of the given lines. *)
Definition file (lines : list string) : string :=
  String.concat "" (map (fun l => l +:+ String Scanner.LF "") lines).

Definition path : string := "/home/u/.claude/projects/-home-u-my-proj/agent-7.jsonl".

(** A disk holding one file, at [path]. *)
Definition disk (content : string) (p : string) : option string :=
  if String.eqb p path then Some content else None.

(** A home directory with one project: a transcript with three events,
    a transcript whose only line is cut short, and a file that is not a
    transcript; next to the project directory lies a plain file. *)
Definition base : string := "/home/u/.claude/projects".
Definition project : string := "/home/u/.claude/projects/-home-u-my-proj".

Definition home : FS :=
  mkFS
    (fun dir =>
       if String.eqb dir base
       then Some [DirEntry.mk "-home-u-my-proj" true; DirEntry.mk "notes.txt" false]
       else if String.eqb dir project
       then Some [DirEntry.mk "agent-7.jsonl" false; DirEntry.mk "empty.jsonl" false;
                  DirEntry.mk "readme.md" false]
       else None)
    (fun p =>
       if String.eqb p path then Some (file [promptLine; bashLine; resultLine])
       else if String.eqb p (project +:+ "/empty.jsonl") then Some (file [truncatedLine])
       else None).

End Sample.

(** ** The parser (parser.go) *)

Section Session.

(** [json.Unmarshal(line, &entry)]: the decoded record, or [None] when it
    returns an error. *)
Variable json_Unmarshal : string -> option rawEntry.t.
(** [json.Marshal(v)] as a string. *)
Variable json_Marshal : jvalue -> string.
(** [time.Parse(layout, s)]: the instant, or [None] on error. *)
Variable time_Parse : string -> string -> option Time.t.
(** [strings.TrimSpace]. *)
Variable strings_TrimSpace : string -> string.

Definition parseTimestamp (s : string) : Time.t :=
  match time_Parse Time.RFC3339Nano s with
  | Some t => t
  | None => default Time.zero (time_Parse Time.RFC3339 s)
  end.

Definition isBlank (s : string) : bool := String.eqb (strings_TrimSpace s) "".

(** The [tool_result] case of [parseUserMessage]: the output text of a
    block. *)
Definition toolResultOutput (bMap : gmap string jvalue) : string :=
  match jindex bMap "content" with
  | JString c => c
  | JArray c =>
      fold_left
        (fun output item =>
           match asMap item with
           | Some itemMap =>
               match asString (jindex itemMap "text") with
               | Some text => output +:+ text
               | None => output
               end
           | None => output
           end)
        c ""
  | v => json_Marshal v
  end.

(** The events one block of a user message adds. *)
Definition userBlockEvents (entry : rawEntry.t) (ts : Time.t) (block : jvalue)
  : list Event.t :=
  match asMap block with
  | None => []
  | Some bMap =>
      let blockType := default "" (asString (jindex bMap "type")) in
      if String.eqb blockType "tool_result" then
        let output := toolResultOutput bMap in
        let isError := default false (asBool (jindex bMap "is_error")) in
        let toolUseID := default "" (asString (jindex bMap "tool_use_id")) in
        [Event.mk EventToolResult ts (rawEntry.UUID entry) "" "" "" "" None
           toolUseID output isError 0 "" 0 0]
      else if String.eqb blockType "text" then
        let text := default "" (asString (jindex bMap "text")) in
        if negb (isBlank text)
        then [Event.mk EventUserPrompt ts (rawEntry.UUID entry) text "" "" "" None
                "" "" false 0 "" 0 0]
        else []
      else []
  end.

Definition parseUserMessage (entry : rawEntry.t) (ts : Time.t) : list Event.t :=
  match rawEntry.Message entry with
  | None => []
  | Some msg =>
      match rawMessage.Content msg with
      | JString content =>
          if negb (isBlank content)
          then [Event.mk EventUserPrompt ts (rawEntry.UUID entry) content "" "" "" None
                  "" "" false 0 "" 0 0]
          else []
      | JArray content => flat_map (userBlockEvents entry ts) content
      | _ => []
      end
  end.

(** The events one block of an assistant message adds. *)
Definition assistantBlockEvents (entry : rawEntry.t) (ts : Time.t)
    (inputTokens outputTokens : Z) (block : jvalue) : list Event.t :=
  match asMap block with
  | None => []
  | Some bMap =>
      let blockType := default "" (asString (jindex bMap "type")) in
      if String.eqb blockType "thinking" then
        let thinking := default "" (asString (jindex bMap "thinking")) in
        if negb (isBlank thinking)
        then [Event.mk EventThinking ts (rawEntry.UUID entry) "" "" thinking "" None
                "" "" false 0 "" inputTokens outputTokens]
        else []
      else if String.eqb blockType "text" then
        let text := default "" (asString (jindex bMap "text")) in
        if negb (isBlank text)
        then [Event.mk EventText ts (rawEntry.UUID entry) "" text "" "" None
                "" "" false 0 "" inputTokens outputTokens]
        else []
      else if String.eqb blockType "tool_use" then
        let name := default "" (asString (jindex bMap "name")) in
        let id := default "" (asString (jindex bMap "id")) in
        let input := asMap (jindex bMap "input") in
        [Event.mk EventToolUse ts (rawEntry.UUID entry) "" "" "" name input
           id "" false 0 "" inputTokens outputTokens]
      else []
  end.

Definition parseAssistantMessage (entry : rawEntry.t) (ts : Time.t) : list Event.t :=
  match rawEntry.Message entry with
  | None => []
  | Some msg =>
      match rawMessage.Content msg with
      | JArray contentArr =>
          let inputTokens :=
            match rawMessage.Usage msg with
            | Some u => rawUsage.InputTokens u
            | None => 0
            end in
          let outputTokens :=
            match rawMessage.Usage msg with
            | Some u => rawUsage.OutputTokens u
            | None => 0
            end in
          flat_map (assistantBlockEvents entry ts inputTokens outputTokens) contentArr
      | _ => []
      end
  end.

(** [estimateCost]: Opus prices per token, in IEEE-754 double precision,
    each product and sum rounded on its own. *)
Definition estimateCost (info : SessionInfo.t) : float :=
  let inputPrice := (15 / 1000000)%float in
  let outputPrice := (75 / 1000000)%float in
  let cacheReadPrice := (1.5 / 1000000)%float in
  let cacheWritePrice := (18.75 / 1000000)%float in
  (GoInt.to_float64 (SessionInfo.InputTokens info) * inputPrice
   + GoInt.to_float64 (SessionInfo.OutputTokens info) * outputPrice
   + GoInt.to_float64 (SessionInfo.CacheReadTokens info) * cacheReadPrice
   + GoInt.to_float64 (SessionInfo.CacheWriteTokens info) * cacheWritePrice)%float.

(** *** [ParseSessionFile]: session identity *)

(** The [Session] value built before the file is read. *)
Definition newSession (path : string) : Session.t :=
  let basename := Filepath.Base path in
  let sessionID := Strings.TrimSuffix basename ".jsonl" in
  let isAgent := Strings.HasPrefix basename "agent-" in
  let dirName := Filepath.Base (Filepath.Dir path) in
  let projectDir := Strings.ReplaceAll dirName "-" "/" in
  let projectName := Filepath.Base projectDir in
  Session.mk
    (SessionInfo.mk sessionID projectDir projectName path Time.zero Time.zero
       0 0 0 0 0%float 0 0 0 [] [] [] 0 0 isAgent "" "")
    [].

(** *** [ParseSessionFile]: first loop, reading the lines *)

Record assistantGroup : Type := mkGroup {
  entry : rawEntry.t;
  timestamp : Time.t
}.

Record readState : Type := mkRead {
  rInfo : SessionInfo.t;
  assistantMessages : gmap string assistantGroup;
  allEntries : list rawEntry.t
}.

(** The body of the first loop once a line has been decoded. *)
Definition recordEntry (st : readState) (e : rawEntry.t) : readState :=
  let all := allEntries st ++ [e] in
  let info :=
    if String.eqb (SessionInfo.CWD (rInfo st)) "" && negb (String.eqb (rawEntry.CWD e) "")
    then SessionInfo.setCWD (rawEntry.CWD e) (rInfo st)
    else rInfo st in
  if String.eqb (rawEntry.Type_ e) "assistant" then
    match rawEntry.Message e with
    | Some msg =>
        if negb (String.eqb (rawMessage.ID msg) "") then
          let ts := parseTimestamp (rawEntry.Timestamp e) in
          let groups :=
            match assistantMessages st !! rawMessage.ID msg with
            | None => <[rawMessage.ID msg := mkGroup e ts]> (assistantMessages st)
            | Some existing =>
                if Time.After ts (timestamp existing)
                then <[rawMessage.ID msg := mkGroup e ts]> (assistantMessages st)
                else assistantMessages st
            end in
          let info' :=
            if String.eqb (SessionInfo.Model info) "" && negb (String.eqb (rawMessage.Model msg) "")
            then SessionInfo.setModel (rawMessage.Model msg) info
            else info in
          mkRead info' groups all
        else mkRead info (assistantMessages st) all
    | None => mkRead info (assistantMessages st) all
    end
  else mkRead info (assistantMessages st) all.

(** The body of the first loop for one line of the file. *)
Definition readLine (st : readState) (line : string) : readState :=
  if (String.length line =? 0)%nat then st
  else
    match json_Unmarshal line with
    | None => st
    | Some e => recordEntry st e
    end.

(** The first loop over the lines the scanner delivers. *)
Definition readLines (path : string) (lines : list string) : readState :=
  fold_left readLine lines (mkRead (Session.Info (newSession path)) ∅ []).

(** *** [ParseSessionFile]: second loop, building the timeline *)

Record buildState : Type := mkBuild {
  bInfo : SessionInfo.t;
  bEvents : list Event.t;
  seenMessageIDs : gset string;
  filesRead : gset string;
  filesWritten : gset string;
  filesCreated : gset string
}.

(** The running bounds [StartTime] and [LastUpdate]. *)
Definition updateBounds (ts : Time.t) (info : SessionInfo.t) : SessionInfo.t :=
  let info :=
    if Time.IsZero (SessionInfo.StartTime info)
       || (negb (Time.IsZero ts) && Time.Before ts (SessionInfo.StartTime info))
    then SessionInfo.setStartTime ts info
    else info in
  if Time.After ts (SessionInfo.LastUpdate info)
  then SessionInfo.setLastUpdate ts info
  else info.

(** The counting loop over the events of a user record. *)
Definition countUserEvent (info : SessionInfo.t) (e : Event.t) : SessionInfo.t :=
  let info :=
    if decide (Event.Type_ e = EventUserPrompt)
    then SessionInfo.setUserPrompts (GoInt.incr (SessionInfo.UserPrompts info)) info
    else info in
  if bool_decide (Event.Type_ e = EventToolResult) && Event.IsError e
  then SessionInfo.setErrors (GoInt.incr (SessionInfo.Errors info)) info
  else info.

(** [e.ToolInput["file_path"].(string)]. *)
Definition toolFilePath (e : Event.t) : option string :=
  match Event.ToolInput e with
  | Some m => asString (jindex m "file_path")
  | None => None
  end.

(** The tracking loop over the events of an assistant record. *)
Definition trackToolEvent (st : buildState) (e : Event.t) : buildState :=
  if decide (Event.Type_ e = EventToolUse) then
    let info := SessionInfo.setToolCallCount
                  (GoInt.incr (SessionInfo.ToolCallCount (bInfo st))) (bInfo st) in
    let st := mkBuild info (bEvents st) (seenMessageIDs st)
                (filesRead st) (filesWritten st) (filesCreated st) in
    if String.eqb (Event.ToolName e) "Read" then
      match toolFilePath e with
      | Some fp => mkBuild info (bEvents st) (seenMessageIDs st)
                     ({[fp]} ∪ filesRead st) (filesWritten st) (filesCreated st)
      | None => st
      end
    else if String.eqb (Event.ToolName e) "Write" then
      match toolFilePath e with
      | Some fp => mkBuild info (bEvents st) (seenMessageIDs st)
                     (filesRead st) (filesWritten st) ({[fp]} ∪ filesCreated st)
      | None => st
      end
    else if String.eqb (Event.ToolName e) "Edit" then
      match toolFilePath e with
      | Some fp => mkBuild info (bEvents st) (seenMessageIDs st)
                     (filesRead st) ({[fp]} ∪ filesWritten st) (filesCreated st)
      | None => st
      end
    else if String.eqb (Event.ToolName e) "Bash" then
      mkBuild (SessionInfo.setBashCommands (GoInt.incr (SessionInfo.BashCommands info)) info)
        (bEvents st) (seenMessageIDs st) (filesRead st) (filesWritten st) (filesCreated st)
    else st
  else st.

(** Token accumulation from the usage block of the authoritative record. *)
Definition addUsage (u : rawUsage.t) (info : SessionInfo.t) : SessionInfo.t :=
  let info := SessionInfo.setInputTokens
                (GoInt.add (SessionInfo.InputTokens info) (rawUsage.InputTokens u)) info in
  let info := SessionInfo.setOutputTokens
                (GoInt.add (SessionInfo.OutputTokens info) (rawUsage.OutputTokens u)) info in
  let info := SessionInfo.setCacheReadTokens
                (GoInt.add (SessionInfo.CacheReadTokens info) (rawUsage.CacheReadInputTokens u)) info in
  SessionInfo.setCacheWriteTokens
    (GoInt.add (SessionInfo.CacheWriteTokens info) (rawUsage.CacheCreationInputTokens u)) info.

Definition withInfo (info : SessionInfo.t) (st : buildState) : buildState :=
  mkBuild info (bEvents st) (seenMessageIDs st) (filesRead st) (filesWritten st) (filesCreated st).

Definition appendEvents (evs : list Event.t) (st : buildState) : buildState :=
  mkBuild (bInfo st) (bEvents st ++ evs) (seenMessageIDs st)
    (filesRead st) (filesWritten st) (filesCreated st).

Definition markSeen (id : string) (st : buildState) : buildState :=
  mkBuild (bInfo st) (bEvents st) ({[id]} ∪ seenMessageIDs st)
    (filesRead st) (filesWritten st) (filesCreated st).

(** The body of the second loop. *)
Definition buildEntry (groups : gmap string assistantGroup)
    (st : buildState) (e : rawEntry.t) : buildState :=
  let ts := parseTimestamp (rawEntry.Timestamp e) in
  let st := withInfo (updateBounds ts (bInfo st)) st in
  if String.eqb (rawEntry.Type_ e) "system" then
    if String.eqb (rawEntry.Subtype e) "compact_boundary" then
      let preTokens :=
        match rawEntry.CompactMetadata e with
        | Some md => rawCompactMetadata.PreTokens md
        | None => 0
        end in
      let trigger :=
        match rawEntry.CompactMetadata e with
        | Some md => rawCompactMetadata.Trigger md
        | None => ""
        end in
      appendEvents
        [Event.mk EventCompaction ts (rawEntry.UUID e) "" "" "" "" None "" "" false
           preTokens trigger 0 0] st
    else st
  else if String.eqb (rawEntry.Type_ e) "user" then
    match rawEntry.Message e with
    | None => st
    | Some _ =>
        if rawEntry.IsCompactSummary e then st
        else
          let events := parseUserMessage e ts in
          let st := appendEvents events st in
          withInfo (fold_left countUserEvent events (bInfo st)) st
    end
  else if String.eqb (rawEntry.Type_ e) "assistant" then
    match rawEntry.Message e with
    | None => st
    | Some msg =>
        if String.eqb (rawMessage.ID msg) "" then st
        else if bool_decide (rawMessage.ID msg ∈ seenMessageIDs st) then st
        else
          match groups !! rawMessage.ID msg with
          | None => st
          | Some final =>
              if negb (String.eqb (rawEntry.UUID e) (rawEntry.UUID (entry final))) then st
              else
                let st := markSeen (rawMessage.ID msg) st in
                let events := parseAssistantMessage (entry final) ts in
                let st := appendEvents events st in
                let st := fold_left trackToolEvent events st in
                match rawEntry.Message (entry final) with
                | Some fmsg =>
                    match rawMessage.Usage fmsg with
                    | Some u => withInfo (addUsage u (bInfo st)) st
                    | None => st
                    end
                | None => st
                end
          end
    end
  else st.

Definition buildTimeline (r : readState) : buildState :=
  fold_left (buildEntry (assistantMessages r)) (allEntries r)
    (mkBuild (rInfo r) [] ∅ ∅ ∅ ∅).

(** *** [ParseSessionFile]: the result *)

(** [for k := range m] visits every key once, in an order that Go leaves
    unspecified and that may change from one loop to the next. *)
Definition range_keys (m : gset string) (order : list string) : Prop :=
  NoDup order ∧ ∀ k, k ∈ order ↔ k ∈ m.

(** The session returned once the three maps have been ranged over in
    the given orders. *)
Definition finish (st : buildState) (fr fw fc : list string) : Session.t :=
  let info := SessionInfo.setFilesRead fr (bInfo st) in
  let info := SessionInfo.setFilesWritten fw info in
  let info := SessionInfo.setFilesCreated fc info in
  let info := SessionInfo.setEventCount (Z.of_nat (length (bEvents st))) info in
  let info := SessionInfo.setCostUSD (estimateCost info) info in
  Session.mk info (bEvents st).

(** Both loops on the lines of a file, and on its content. *)
Definition parseLines (path : string) (lines : list string) : buildState :=
  buildTimeline (readLines path lines).

Definition parseContent (path content : string) : buildState :=
  parseLines path (Scanner.tokens content).

(** [ParseSessionFile path] on a file system where [os.Open] followed by
    reading gives [open path]: [None] stands for the error return. *)
Inductive ParseSessionFile (open : string -> option string) (path : string)
  : option Session.t -> Prop :=
  | ParseSessionFile_error :
      open path = None ->
      ParseSessionFile open path None
  | ParseSessionFile_ok content fr fw fc :
      open path = Some content ->
      range_keys (filesRead (parseContent path content)) fr ->
      range_keys (filesWritten (parseContent path content)) fw ->
      range_keys (filesCreated (parseContent path content)) fc ->
      ParseSessionFile open path (Some (finish (parseContent path content) fr fw fc)).

(** ** The store (store.go) *)

(** [NewStore], given the result of [os.UserHomeDir]. *)
Definition NewStore (homeDir : option string) : option Store.t :=
  match homeDir with
  | None => None
  | Some home =>
      Some (Store.mk ∅ (Filepath.Join [home; ".claude"; "projects"]) [] false)
  end.

(** The end of the inner loop body of [Scan], after the parse. *)
Definition scanPut (r : option Session.t) (m : gmap string Session.t)
  : gmap string Session.t :=
  match r with
  | None => m
  | Some sess =>
      if (length (Session.Events sess) =? 0)%nat then m
      else <[SessionInfo.ID (Session.Info sess) := sess]> m
  end.

(** The inner loop of [Scan] over the files of one project directory. *)
Inductive scanFiles (fs : FS) (projectDir : string)
  : list DirEntry.t -> gmap string Session.t -> gmap string Session.t -> Prop :=
  | scanFiles_done m :
      scanFiles fs projectDir [] m m
  | scanFiles_skip f rest m m' :
      DirEntry.IsDir f || negb (Strings.HasSuffix (DirEntry.Name f) ".jsonl") = true ->
      scanFiles fs projectDir rest m m' ->
      scanFiles fs projectDir (f :: rest) m m'
  | scanFiles_parse f rest r m m' :
      DirEntry.IsDir f || negb (Strings.HasSuffix (DirEntry.Name f) ".jsonl") = false ->
      ParseSessionFile (openFile fs) (Filepath.Join [projectDir; DirEntry.Name f]) r ->
      scanFiles fs projectDir rest (scanPut r m) m' ->
      scanFiles fs projectDir (f :: rest) m m'.

(** The outer loop of [Scan] over the entries of the base directory. *)
Inductive scanDirs (fs : FS) (base : string)
  : list DirEntry.t -> Store.t -> Store.t -> Prop :=
  | scanDirs_done s :
      scanDirs fs base [] s s
  | scanDirs_notdir d rest s s' :
      DirEntry.IsDir d = false ->
      scanDirs fs base rest s s' ->
      scanDirs fs base (d :: rest) s s'
  | scanDirs_unreadable d rest s s' :
      DirEntry.IsDir d = true ->
      readDir fs (Filepath.Join [base; DirEntry.Name d]) = None ->
      scanDirs fs base rest
        (Store.mk (Store.sessions s) (Store.baseDir s)
           (Store.watched s ++ [Filepath.Join [base; DirEntry.Name d]]) (Store.updates s)) s' ->
      scanDirs fs base (d :: rest) s s'
  | scanDirs_project d rest files m s s' :
      DirEntry.IsDir d = true ->
      readDir fs (Filepath.Join [base; DirEntry.Name d]) = Some files ->
      scanFiles fs (Filepath.Join [base; DirEntry.Name d]) files (Store.sessions s) m ->
      scanDirs fs base rest
        (Store.mk m (Store.baseDir s)
           (Store.watched s ++ [Filepath.Join [base; DirEntry.Name d]]) (Store.updates s)) s' ->
      scanDirs fs base (d :: rest) s s'.

(** [Scan]: the store afterwards and whether an error is returned. *)
Inductive Scan (fs : FS) (s : Store.t) : Store.t -> bool -> Prop :=
  | Scan_error :
      readDir fs (Store.baseDir s) = None ->
      Scan fs s s true
  | Scan_ok entries s' :
      readDir fs (Store.baseDir s) = Some entries ->
      scanDirs fs (Store.baseDir s) entries s s' ->
      Scan fs s s' false.

(** File-system notification kinds ([fsnotify.Op] bits). *)
Definition fsnotify_Create : Z := 1.
Definition fsnotify_Write : Z := 2.

(** The loop of [Watch] on a notification [(name, op)]: the path the
    debounce timer will re-parse afterwards. [debounce] is the path held
    by the timer started last, if one is still to fire. *)
Definition watchEvent (name : string) (op : Z) (debounce : option string)
  : option string :=
  if negb (Strings.HasSuffix name ".jsonl") then debounce
  else if Z.land op (Z.lor fsnotify_Write fsnotify_Create) =? 0 then debounce
  else Some name.

(** The function the debounce timer runs, after the parse. *)
Definition watchPut (r : option Session.t) (s : Store.t) : Store.t :=
  match r with
  | None => s
  | Some sess =>
      if (length (Session.Events sess) =? 0)%nat then s
      else Store.mk (<[SessionInfo.ID (Session.Info sess) := sess]> (Store.sessions s))
             (Store.baseDir s) (Store.watched s) true
  end.

(** What can happen to a store and the watcher's timer; the file system
    is whatever it is at the time of the step. *)
Inductive step : Store.t * option string -> Store.t * option string -> Prop :=
  | step_scan fs s s' err debounce :
      Scan fs s s' err ->
      step (s, debounce) (s', debounce)
  | step_notify name op s debounce :
      step (s, debounce) (s, watchEvent name op debounce)
  | step_timer fs path r s :
      ParseSessionFile (openFile fs) path r ->
      step (s, Some path) (watchPut r s, None)
  | step_receive s debounce :
      step (s, debounce)
        (Store.mk (Store.sessions s) (Store.baseDir s) (Store.watched s) false, debounce).

Inductive reachable (home : string) : Store.t * option string -> Prop :=
  | reachable_new s :
      NewStore (Some home) = Some s ->
      reachable home (s, None)
  | reachable_step w w' :
      reachable home w -> step w w' -> reachable home w'.

(** [GetSession]: [None] is the nil pointer. *)
Definition GetSession (s : Store.t) (id : string) : option Session.t :=
  Store.sessions s !! id.

(** [GetSessions]: the infos of all sessions, ranged over in some order
    and then sorted, newest first. *)
Definition GetSessions (s : Store.t) (infos : list SessionInfo.t) : Prop :=
  infos ≡ₚ (Session.Info <$> (map_to_list (Store.sessions s)).*2)
  ∧ StronglySorted
      (fun a b => Time.After (SessionInfo.LastUpdate b) (SessionInfo.LastUpdate a) = false)
      infos.

(** ** The sessions list of the interface (model.go) *)

Inductive viewMode : Type := viewSessions | viewDetail | viewOverview | viewEvent.

(** The interface's [Model]; the store it points to is passed along with
    it. *)
Record Model : Type := mkModel {
  mode : viewMode;
  sessions : list SessionInfo.t;
  cursor : Z;
  selectedSession : option Session.t;
  detailCursor : Z;
  overviewScroll : Z;
  selectedEvent : option Event.t;
  eventScroll : Z;
  autoFollow : bool;
  width : Z;
  height : Z;
  projectFilter : string
}.

(** The loop of [refreshSessions] that keeps the sessions of one project. *)
Definition filterProject (projectFilter : string) (infos : list SessionInfo.t)
  : list SessionInfo.t :=
  if negb (String.eqb projectFilter "") then
    List.filter
      (fun s => String.eqb (SessionInfo.ProjectName s) projectFilter
                || String.eqb (SessionInfo.ProjectDir s) projectFilter)
      infos
  else infos.

(** [refreshSessions] on a model whose store is [s]. *)
Inductive refreshSessions (s : Store.t) (m : Model) : Model -> Prop :=
  | refreshSessions_run infos :
      GetSessions s infos ->
      let sessions' := filterProject (projectFilter m) infos in
      let cursor' :=
        if Z.of_nat (length sessions') <=? cursor m
        then Z.max 0 (Z.of_nat (length sessions') - 1)
        else cursor m in
      let selected' :=
        match selectedSession m with
        | Some sel =>
            match GetSession s (SessionInfo.ID (Session.Info sel)) with
            | Some updated => Some updated
            | None => Some sel
            end
        | None => None
        end in
      refreshSessions s m
        (mkModel (mode m) sessions' cursor' selected' (detailCursor m) (overviewScroll m)
           (selectedEvent m) (eventScroll m) (autoFollow m) (width m) (height m)
           (projectFilter m)).

(** * Views of the state used in the statements *)

(** The four token counters of a summary. *)
Definition tokenCounters (info : SessionInfo.t) : Z * Z * Z * Z :=
  (SessionInfo.InputTokens info, SessionInfo.OutputTokens info,
   SessionInfo.CacheReadTokens info, SessionInfo.CacheWriteTokens info).

(** The fields fixed by the path. *)
Definition identity (info : SessionInfo.t) : string * string * string * string * bool :=
  (SessionInfo.ID info, SessionInfo.ProjectDir info, SessionInfo.ProjectName info,
   SessionInfo.FilePath info, SessionInfo.IsAgent info).

(** What the first loop does to the map of candidates alone. *)
Definition keepLatest (groups : gmap string assistantGroup) (e : rawEntry.t)
  : gmap string assistantGroup :=
  if String.eqb (rawEntry.Type_ e) "assistant" then
    match rawEntry.Message e with
    | Some msg =>
        if negb (String.eqb (rawMessage.ID msg) "") then
          let ts := parseTimestamp (rawEntry.Timestamp e) in
          match groups !! rawMessage.ID msg with
          | None => <[rawMessage.ID msg := mkGroup e ts]> groups
          | Some existing =>
              if Time.After ts (timestamp existing)
              then <[rawMessage.ID msg := mkGroup e ts]> groups
              else groups
          end
        else groups
    | None => groups
    end
  else groups.

(** The records of the lines that are not empty and decode. *)
Definition decodeLines (lines : list string) : list rawEntry.t :=
  omap (fun line => if (String.length line =? 0)%nat then None else json_Unmarshal line) lines.

(** The parsed timestamp of a record. *)
Definition stamp (e : rawEntry.t) : Time.t := parseTimestamp (rawEntry.Timestamp e).

(** The usage block of a candidate's record, if any. *)
Definition usageOf (g : assistantGroup) : option rawUsage.t :=
  match rawEntry.Message (entry g) with
  | Some msg => rawMessage.Usage msg
  | None => None
  end.

(** The message identifier of an assistant record that carries one. *)
Definition assistantID (e : rawEntry.t) : option string :=
  if String.eqb (rawEntry.Type_ e) "assistant" then
    match rawEntry.Message e with
    | Some msg => if String.eqb (rawMessage.ID msg) "" then None else Some (rawMessage.ID msg)
    | None => None
    end
  else None.

(** Whether the second loop, having emitted the identifiers in [seen],
    emits a message at record [e], and which candidate it then uses. *)
Definition emits (groups : gmap string assistantGroup) (seen : gset string)
    (e : rawEntry.t) : option (string * assistantGroup) :=
  match assistantID e with
  | None => None
  | Some id =>
      if bool_decide (id ∈ seen) then None
      else
        match groups !! id with
        | None => None
        | Some final =>
            if String.eqb (rawEntry.UUID e) (rawEntry.UUID (entry final))
            then Some (id, final) else None
        end
  end.

(** The events the second loop appends at record [e]. *)
Definition chunk (groups : gmap string assistantGroup) (seen : gset string)
    (e : rawEntry.t) : list Event.t :=
  let ts := parseTimestamp (rawEntry.Timestamp e) in
  if String.eqb (rawEntry.Type_ e) "system" then
    if String.eqb (rawEntry.Subtype e) "compact_boundary" then
      [Event.mk EventCompaction ts (rawEntry.UUID e) "" "" "" "" None "" "" false
         (match rawEntry.CompactMetadata e with
          | Some md => rawCompactMetadata.PreTokens md
          | None => 0
          end)
         (match rawEntry.CompactMetadata e with
          | Some md => rawCompactMetadata.Trigger md
          | None => ""
          end) 0 0]
    else []
  else if String.eqb (rawEntry.Type_ e) "user" then
    match rawEntry.Message e with
    | None => []
    | Some _ => if rawEntry.IsCompactSummary e then [] else parseUserMessage e ts
    end
  else
    match emits groups seen e with
    | Some (_, final) => parseAssistantMessage (entry final) ts
    | None => []
    end.

(** The identifiers emitted once record [e] has been processed. *)
Definition seenAfter (groups : gmap string assistantGroup) (seen : gset string)
    (e : rawEntry.t) : gset string :=
  match emits groups seen e with
  | Some (id, _) => {[id]} ∪ seen
  | None => seen
  end.

(** Adding a usage block to four counters. *)
Definition addCounters (u : option rawUsage.t) (c : Z * Z * Z * Z) : Z * Z * Z * Z :=
  match u with
  | None => c
  | Some u =>
      let '(i, o, cr, cw) := c in
      (GoInt.add i (rawUsage.InputTokens u), GoInt.add o (rawUsage.OutputTokens u),
       GoInt.add cr (rawUsage.CacheReadInputTokens u),
       GoInt.add cw (rawUsage.CacheCreationInputTokens u))
  end.

(** The same along a list of records: the identifiers emitted, the events
    appended record by record, and the emissions in order. *)
Definition seenAll (groups : gmap string assistantGroup) (seen : gset string)
    (es : list rawEntry.t) : gset string :=
  fold_left (seenAfter groups) es seen.

Fixpoint chunks (groups : gmap string assistantGroup) (seen : gset string)
    (es : list rawEntry.t) : list (list Event.t) :=
  match es with
  | [] => []
  | e :: es' => chunk groups seen e :: chunks groups (seenAfter groups seen e) es'
  end.

Fixpoint emissions (groups : gmap string assistantGroup) (seen : gset string)
    (es : list rawEntry.t) : list (string * assistantGroup) :=
  match es with
  | [] => []
  | e :: es' =>
      match emits groups seen e with
      | Some p => p :: emissions groups (seenAfter groups seen e) es'
      | None => emissions groups (seenAfter groups seen e) es'
      end
  end.



(** A summary with its three file slices emptied. *)
Definition withoutFiles (info : SessionInfo.t) : SessionInfo.t :=
  SessionInfo.setFilesRead [] (SessionInfo.setFilesWritten []
    (SessionInfo.setFilesCreated [] info)).

(** Every [-] of a name turned into [/], byte by byte. *)
Definition hyphensToSlashes (s : string) : string :=
  string_of_list_ascii
    (map (fun c => if Ascii.eqb c "-"%char then "/"%char else c) (list_ascii_of_string s)).

Definition noSeparator (s : string) : Prop :=
  ∀ c, c ∈ list_ascii_of_string s -> Filepath.IsPathSeparator c = false.

Definition onlySeparators (s : string) : Prop :=
  ∀ c, c ∈ list_ascii_of_string s -> Filepath.IsPathSeparator c = true.

(** What holds of every session kept in the store's map. *)
Definition indexed (m : gmap string Session.t) : Prop :=
  ∀ id sess, m !! id = Some sess ->
    Session.Events sess ≠ []
    ∧ SessionInfo.EventCount (Session.Info sess) = Z.of_nat (length (Session.Events sess))
    ∧ SessionInfo.ID (Session.Info sess) = id
    ∧ ∃ fs path, ParseSessionFile (openFile fs) path (Some sess).

(** The parts of the state the two counting loops leave alone. *)
Definition untouched (st st' : buildState) : Prop :=
  bEvents st' = bEvents st
  ∧ seenMessageIDs st' = seenMessageIDs st
  ∧ tokenCounters (bInfo st') = tokenCounters (bInfo st)
  ∧ identity (bInfo st') = identity (bInfo st)
  ∧ SessionInfo.StartTime (bInfo st') = SessionInfo.StartTime (bInfo st)
  ∧ SessionInfo.LastUpdate (bInfo st') = SessionInfo.LastUpdate (bInfo st).

(** Every event of the list carries the timestamp [ts]. *)
Definition stampedAt (ts : Time.t) (evs : list Event.t) : Prop :=
  Forall (fun ev => Event.Timestamp ev = ts) evs.



(** The candidate of an identifier is the first of its records that
    carries its latest timestamp. *)
Definition firstLatest (es : list rawEntry.t) (id : string) (final : assistantGroup) : Prop :=
  timestamp final = stamp (entry final)
  ∧ assistantID (entry final) = Some id
  ∧ ∃ pre post,
      es = pre ++ entry final :: post
      ∧ (∀ e, e ∈ pre -> assistantID e = Some id -> stamp e < timestamp final)
      ∧ (∀ e, e ∈ post -> assistantID e = Some id -> stamp e ≤ timestamp final).


(** * Further views, for the properties beyond the timeline *)

(** Kinds of events the summary counts. *)
Definition isPrompt (ev : Event.t) : bool :=
  bool_decide (Event.Type_ ev = EventUserPrompt).
Definition isErrorResult (ev : Event.t) : bool :=
  bool_decide (Event.Type_ ev = EventToolResult) && Event.IsError ev.
Definition isToolUse (ev : Event.t) : bool :=
  bool_decide (Event.Type_ ev = EventToolUse).
Definition isToolNamed (name : string) (ev : Event.t) : bool :=
  isToolUse ev && String.eqb (Event.ToolName ev) name.

Definition countEvents (P : Event.t -> bool) (evs : list Event.t) : Z :=
  Z.of_nat (length (List.filter P evs)).

(** The file paths given to the tool [name] in a list of events. *)
Definition toolPaths (name : string) (evs : list Event.t) : gset string :=
  list_to_set (omap (fun ev => if isToolNamed name ev then toolFilePath ev else None) evs).

(** An event is one of the six variants the parser builds, with the
    fields of the other variants left at their zero value, and with a body
    that is not blank where the parser checks it. *)
Definition wellShaped (ev : Event.t) : Prop :=
  match Event.Type_ ev with
  | EventUserPrompt =>
      ev = Event.mk EventUserPrompt (Event.Timestamp ev) (Event.UUID ev) (Event.UserText ev)
             "" "" "" None "" "" false 0 "" 0 0
      ∧ isBlank (Event.UserText ev) = false
  | EventThinking =>
      ev = Event.mk EventThinking (Event.Timestamp ev) (Event.UUID ev) "" ""
             (Event.Thinking ev) "" None "" "" false 0 ""
             (Event.InputTokens ev) (Event.OutputTokens ev)
      ∧ isBlank (Event.Thinking ev) = false
  | EventText =>
      ev = Event.mk EventText (Event.Timestamp ev) (Event.UUID ev) "" (Event.Text ev)
             "" "" None "" "" false 0 ""
             (Event.InputTokens ev) (Event.OutputTokens ev)
      ∧ isBlank (Event.Text ev) = false
  | EventToolUse =>
      ev = Event.mk EventToolUse (Event.Timestamp ev) (Event.UUID ev) "" "" ""
             (Event.ToolName ev) (Event.ToolInput ev) (Event.ToolID ev) "" false 0 ""
             (Event.InputTokens ev) (Event.OutputTokens ev)
  | EventToolResult =>
      ev = Event.mk EventToolResult (Event.Timestamp ev) (Event.UUID ev) "" "" "" "" None
             (Event.ToolID ev) (Event.ToolOutput ev) (Event.IsError ev) 0 "" 0 0
  | EventCompaction =>
      ev = Event.mk EventCompaction (Event.Timestamp ev) (Event.UUID ev) "" "" "" "" None
             "" "" false (Event.CompactPreTokens ev) (Event.CompactTrigger ev) 0 0
  | EventSystem => False
  end.

(** Where an event comes from: the record [e] at which it was appended,
    given the candidates [g] of the file. *)
Definition comesFrom (g : gmap string assistantGroup) (e : rawEntry.t) (ev : Event.t) : Prop :=
  Event.UUID ev = rawEntry.UUID e
  ∧ Event.Timestamp ev = stamp e
  ∧ match Event.Type_ ev with
    | EventUserPrompt | EventToolResult =>
        rawEntry.Type_ e = "user" ∧ rawEntry.IsCompactSummary e = false
    | EventThinking | EventText | EventToolUse =>
        ∃ id final,
          assistantID e = Some id
          ∧ g !! id = Some final
          ∧ Event.InputTokens ev = from_option rawUsage.InputTokens 0 (usageOf final)
          ∧ Event.OutputTokens ev = from_option rawUsage.OutputTokens 0 (usageOf final)
    | EventCompaction =>
        rawEntry.Type_ e = "system" ∧ rawEntry.Subtype e = "compact_boundary"
    | EventSystem => False
    end.

(** The summary of a build state agrees with its timeline: the four
    activity counters count events of the timeline, and the three file
    sets hold the paths of its [Read], [Write] and [Edit] tool uses. *)
Definition tallied (st : buildState) : Prop :=
  SessionInfo.UserPrompts (bInfo st) = GoInt.wrap64 (countEvents isPrompt (bEvents st))
  ∧ SessionInfo.Errors (bInfo st) = GoInt.wrap64 (countEvents isErrorResult (bEvents st))
  ∧ SessionInfo.ToolCallCount (bInfo st) = GoInt.wrap64 (countEvents isToolUse (bEvents st))
  ∧ SessionInfo.BashCommands (bInfo st)
    = GoInt.wrap64 (countEvents (isToolNamed "Bash") (bEvents st))
  ∧ filesRead st = toolPaths "Read" (bEvents st)
  ∧ filesCreated st = toolPaths "Write" (bEvents st)
  ∧ filesWritten st = toolPaths "Edit" (bEvents st).

(** The model name a record offers to the summary: the one of an
    assistant record that carries a message identifier. *)
Definition modelOf (e : rawEntry.t) : string :=
  match assistantID e, rawEntry.Message e with
  | Some _, Some msg => rawMessage.Model msg
  | _, _ => ""
  end.

(** The first string of a list that is not empty, or the empty string. *)
Fixpoint firstNonEmpty (l : list string) : string :=
  match l with
  | [] => ""
  | s :: l' => if String.eqb s "" then firstNonEmpty l' else s
  end.

(** The type of a content block, when the block is an object. *)
Definition blockType (block : jvalue) : option string :=
  match asMap block with
  | Some bMap => Some (default "" (asString (jindex bMap "type")))
  | None => None
  end.

(** The blocks of a record's message when its content is an array. *)
Definition blocksOf (e : rawEntry.t) : list jvalue :=
  match rawEntry.Message e with
  | Some msg =>
      match rawMessage.Content msg with
      | JArray l => l
      | _ => []
      end
  | None => []
  end.

Definition countBlocks (ty : string) (blocks : list jvalue) : Z :=
  Z.of_nat (length (List.filter (fun b => bool_decide (blockType b = Some ty)) blocks)).

Definition isToolResult (ev : Event.t) : bool :=
  bool_decide (Event.Type_ ev = EventToolResult).

(** The loop of [Watch] over a series of notifications. *)
Definition watchEvents (burst : list (string * Z)) (debounce : option string)
  : option string :=
  fold_left (fun d ev => watchEvent (fst ev) (snd ev) d) burst debounce.

(** A notification the loop of [Watch] acts on: a [.jsonl] name with the
    write or the create bit. *)
Definition actedOn (ev : string * Z) : bool :=
  Strings.HasSuffix (fst ev) ".jsonl" && (Z.testbit (snd ev) 0 || Z.testbit (snd ev) 1).

(** Newest first, as [GetSessions] sorts. *)
Definition newestFirst (a b : SessionInfo.t) : Prop :=
  SessionInfo.LastUpdate b ≤ SessionInfo.LastUpdate a.

(** The path of a file of a project directory, as [Scan] builds it. *)
Definition transcriptPath (base : string) (d f : DirEntry.t) : string :=
  Filepath.Join [Filepath.Join [base; DirEntry.Name d]; DirEntry.Name f].

(** A directory entry [Scan] parses. *)
Definition isTranscript (f : DirEntry.t) : bool :=
  negb (DirEntry.IsDir f) && Strings.HasSuffix (DirEntry.Name f) ".jsonl".

(** * Properties *)

(** ** The first loop *)

Lemma recordEntry_groups st e :
  assistantMessages (recordEntry st e) = keepLatest (assistantMessages st) e.
Proof.
  unfold recordEntry, keepLatest.
  repeat case_match; simpl; congruence.
Qed.

Lemma recordEntry_all st e : allEntries (recordEntry st e) = allEntries st ++ [e].
Proof. unfold recordEntry. repeat case_match; reflexivity. Qed.

Lemma recordEntry_info st e :
  identity (rInfo (recordEntry st e)) = identity (rInfo st)
  ∧ tokenCounters (rInfo (recordEntry st e)) = tokenCounters (rInfo st)
  ∧ SessionInfo.StartTime (rInfo (recordEntry st e)) = SessionInfo.StartTime (rInfo st)
  ∧ SessionInfo.LastUpdate (rInfo (recordEntry st e)) = SessionInfo.LastUpdate (rInfo st).
Proof. unfold recordEntry. repeat case_match; simpl; auto. Qed.

Lemma readLine_fold lines st :
  fold_left readLine lines st = fold_left recordEntry (decodeLines lines) st.
Proof.
  revert st. induction lines as [|l lines IH]; intros st; [reflexivity|].
  simpl. unfold readLine at 2.
  destruct (String.length l =? 0)%nat; [apply IH|].
  destruct (json_Unmarshal l); simpl; apply IH.
Qed.

Lemma recordEntry_fold_all es st :
  allEntries (fold_left recordEntry es st) = allEntries st ++ es.
Proof.
  revert st. induction es as [|e es IH]; intros st; simpl.
  - by rewrite app_nil_r.
  - rewrite IH, recordEntry_all, <- app_assoc. reflexivity.
Qed.

Lemma recordEntry_fold_groups es st :
  assistantMessages (fold_left recordEntry es st)
  = fold_left keepLatest es (assistantMessages st).
Proof.
  revert st. induction es as [|e es IH]; intros st; simpl; [reflexivity|].
  by rewrite IH, recordEntry_groups.
Qed.

Lemma recordEntry_fold_info es st :
  identity (rInfo (fold_left recordEntry es st)) = identity (rInfo st)
  ∧ tokenCounters (rInfo (fold_left recordEntry es st)) = tokenCounters (rInfo st)
  ∧ SessionInfo.StartTime (rInfo (fold_left recordEntry es st)) = SessionInfo.StartTime (rInfo st)
  ∧ SessionInfo.LastUpdate (rInfo (fold_left recordEntry es st)) = SessionInfo.LastUpdate (rInfo st).
Proof.
  revert st. induction es as [|e es IH]; intros st; simpl; [auto|].
  destruct (IH (recordEntry st e)) as (-> & -> & -> & ->).
  apply recordEntry_info.
Qed.

Lemma readLines_all path lines : allEntries (readLines path lines) = decodeLines lines.
Proof. unfold readLines. by rewrite readLine_fold, recordEntry_fold_all. Qed.

Lemma readLines_groups path lines :
  assistantMessages (readLines path lines) = fold_left keepLatest (decodeLines lines) ∅.
Proof. unfold readLines. by rewrite readLine_fold, recordEntry_fold_groups. Qed.

(** ** The second loop: what one record changes *)

Lemma untouched_refl st : untouched st st.
Proof. by repeat split. Qed.

Lemma untouched_trans st1 st2 st3 :
  untouched st1 st2 -> untouched st2 st3 -> untouched st1 st3.
Proof.
  intros (?&?&?&?&?&?) (?&?&?&?&?&?). repeat split; congruence.
Qed.

Lemma trackToolEvent_untouched st e : untouched st (trackToolEvent st e).
Proof.
  unfold trackToolEvent. repeat case_match; by repeat split.
Qed.

Lemma trackToolEvent_fold_untouched evs st :
  untouched st (fold_left trackToolEvent evs st).
Proof.
  revert st. induction evs as [|e evs IH]; intros st; simpl.
  - apply untouched_refl.
  - eapply untouched_trans; [apply trackToolEvent_untouched | apply IH].
Qed.

Lemma countUserEvent_fold_info evs info :
  tokenCounters (fold_left countUserEvent evs info) = tokenCounters info
  ∧ identity (fold_left countUserEvent evs info) = identity info
  ∧ SessionInfo.StartTime (fold_left countUserEvent evs info) = SessionInfo.StartTime info
  ∧ SessionInfo.LastUpdate (fold_left countUserEvent evs info) = SessionInfo.LastUpdate info.
Proof.
  revert info. induction evs as [|e evs IH]; intros info; simpl; [auto|].
  destruct (IH (countUserEvent info e)) as (-> & -> & -> & ->).
  unfold countUserEvent. repeat case_match; simpl; auto.
Qed.

Lemma updateBounds_info ts info :
  tokenCounters (updateBounds ts info) = tokenCounters info
  ∧ identity (updateBounds ts info) = identity info.
Proof. unfold updateBounds. repeat case_match; simpl; auto. Qed.

Lemma addUsage_info u info :
  tokenCounters (addUsage u info) = addCounters (Some u) (tokenCounters info)
  ∧ identity (addUsage u info) = identity info
  ∧ SessionInfo.StartTime (addUsage u info) = SessionInfo.StartTime info
  ∧ SessionInfo.LastUpdate (addUsage u info) = SessionInfo.LastUpdate info.
Proof. by repeat split. Qed.

Lemma type_not_assistant e s :
  String.eqb (rawEntry.Type_ e) s = true -> s ≠ "assistant" -> assistantID e = None.
Proof.
  intros H Hs. apply String.eqb_eq in H. unfold assistantID.
  destruct (String.eqb (rawEntry.Type_ e) "assistant") eqn:E; [|done].
  apply String.eqb_eq in E. congruence.
Qed.

Lemma buildEntry_view g st e :
  let ts := parseTimestamp (rawEntry.Timestamp e) in
  let st' := buildEntry g st e in
  bEvents st' = bEvents st ++ chunk g (seenMessageIDs st) e
  ∧ seenMessageIDs st' = seenAfter g (seenMessageIDs st) e
  ∧ tokenCounters (bInfo st')
    = match emits g (seenMessageIDs st) e with
      | Some (_, final) => addCounters (usageOf final) (tokenCounters (bInfo st))
      | None => tokenCounters (bInfo st)
      end
  ∧ identity (bInfo st') = identity (bInfo st)
  ∧ SessionInfo.StartTime (bInfo st') = SessionInfo.StartTime (updateBounds ts (bInfo st))
  ∧ SessionInfo.LastUpdate (bInfo st') = SessionInfo.LastUpdate (updateBounds ts (bInfo st)).
Proof.
  intros ts st'. subst st'.
  destruct (updateBounds_info ts (bInfo st)) as [Htok Hid].
  unfold buildEntry, chunk, seenAfter. fold ts.
  destruct (String.eqb (rawEntry.Type_ e) "system") eqn:Es.
  { unfold emits. rewrite (type_not_assistant e "system" Es) by done.
    destruct (String.eqb (rawEntry.Subtype e) "compact_boundary"); simpl;
      rewrite ?app_nil_r; auto 10. }
  destruct (String.eqb (rawEntry.Type_ e) "user") eqn:Eu.
  { unfold emits. rewrite (type_not_assistant e "user" Eu) by done.
    destruct (rawEntry.Message e); [|simpl; rewrite ?app_nil_r; auto 10].
    destruct (rawEntry.IsCompactSummary e); [simpl; rewrite ?app_nil_r; auto 10|].
    simpl.
    destruct (countUserEvent_fold_info (parseUserMessage e ts) (updateBounds ts (bInfo st)))
      as (-> & -> & -> & ->).
    auto 10. }
  unfold emits, assistantID.
  destruct (String.eqb (rawEntry.Type_ e) "assistant") eqn:Ea;
    [|simpl; rewrite ?app_nil_r; auto 10].
  destruct (rawEntry.Message e) as [msg|]; [|simpl; rewrite ?app_nil_r; auto 10].
  destruct (String.eqb (rawMessage.ID msg) ""); [simpl; rewrite ?app_nil_r; auto 10|].
  simpl seenMessageIDs.
  destruct (bool_decide (rawMessage.ID msg ∈ seenMessageIDs st));
    [simpl; rewrite ?app_nil_r; auto 10|].
  destruct (g !! rawMessage.ID msg) as [final|]; [|simpl; rewrite ?app_nil_r; auto 10].
  destruct (String.eqb (rawEntry.UUID e) (rawEntry.UUID (entry final)));
    [|simpl; rewrite ?app_nil_r; auto 10].
  simpl negb. cbv iota.
  set (st1 := appendEvents _ (markSeen _ _)).
  destruct (trackToolEvent_fold_untouched (parseAssistantMessage (entry final) ts) st1)
    as (He & Hs & Ht & Hi & Hst & Hl).
  unfold usageOf.
  destruct (rawEntry.Message (entry final)) as [fmsg|].
  - destruct (rawMessage.Usage fmsg) as [u|]; cbn [withInfo bEvents seenMessageIDs bInfo].
    + destruct (addUsage_info u (bInfo (fold_left trackToolEvent
                 (parseAssistantMessage (entry final) ts) st1))) as (-> & -> & -> & ->).
      rewrite He, Hs, Ht, Hi, Hst, Hl. subst st1.
      cbn [appendEvents markSeen withInfo bEvents seenMessageIDs bInfo].
      rewrite Htok, Hid. auto 10.
    + rewrite He, Hs, Ht, Hi, Hst, Hl. subst st1. simpl. auto 10.
  - simpl. rewrite He, Hs, Ht, Hi, Hst, Hl. subst st1. simpl. auto 10.
Qed.

(** ** The second loop: along the file *)

Lemma buildEntry_fold_view g es st :
  let st' := fold_left (buildEntry g) es st in
  bEvents st' = bEvents st ++ concat (chunks g (seenMessageIDs st) es)
  ∧ seenMessageIDs st' = seenAll g (seenMessageIDs st) es
  ∧ tokenCounters (bInfo st')
    = fold_left (fun c p => addCounters (usageOf (snd p)) c)
        (emissions g (seenMessageIDs st) es) (tokenCounters (bInfo st))
  ∧ identity (bInfo st') = identity (bInfo st).
Proof.
  revert st. induction es as [|e es IH]; intros st; simpl.
  - rewrite app_nil_r. auto.
  - destruct (IH (buildEntry g st e)) as (-> & -> & -> & ->).
    destruct (buildEntry_view g st e) as (-> & -> & -> & -> & _ & _).
    rewrite <- app_assoc. unfold seenAll. simpl.
    repeat split; try done.
    destruct (emits g (seenMessageIDs st) e) as [[id final]|]; reflexivity.
Qed.

Lemma seenAll_app g seen es1 es2 :
  seenAll g seen (es1 ++ es2) = seenAll g (seenAll g seen es1) es2.
Proof. unfold seenAll. apply fold_left_app. Qed.

Lemma chunks_app g seen es1 es2 :
  chunks g seen (es1 ++ es2) = chunks g seen es1 ++ chunks g (seenAll g seen es1) es2.
Proof.
  revert seen. induction es1 as [|e es1 IH]; intros seen; simpl; [done|].
  by rewrite IH.
Qed.

Lemma emissions_app g seen es1 es2 :
  emissions g seen (es1 ++ es2)
  = emissions g seen es1 ++ emissions g (seenAll g seen es1) es2.
Proof.
  revert seen. induction es1 as [|e es1 IH]; intros seen; simpl; [done|].
  destruct (emits g seen e); simpl; by rewrite IH.
Qed.

Lemma seenAfter_mono g seen e : seen ⊆ seenAfter g seen e.
Proof.
  unfold seenAfter. destruct (emits g seen e) as [[id final]|]; set_solver.
Qed.

Lemma seenAll_mono g seen es : seen ⊆ seenAll g seen es.
Proof.
  revert seen. induction es as [|e es IH]; intros seen; [done|].
  unfold seenAll in *. simpl. etrans; [apply (seenAfter_mono g seen e)|apply IH].
Qed.

(** What an emission says about its record. *)
Lemma emits_Some g seen e id final :
  emits g seen e = Some (id, final) ->
  assistantID e = Some id ∧ (id ∉ seen) ∧ (g !! id) = Some final
  ∧ rawEntry.UUID e = rawEntry.UUID (entry final).
Proof.
  unfold emits. destruct (assistantID e) as [id'|]; [|done].
  case_bool_decide; [done|].
  destruct (g !! id') as [final'|] eqn:Hg; [|done].
  destruct (String.eqb (rawEntry.UUID e) (rawEntry.UUID (entry final'))) eqn:Hu; [|done].
  intros [= <- <-]. apply String.eqb_eq in Hu. auto.
Qed.


(** ** Both loops on the lines of a file *)

Lemma decodeLines_app l1 l2 : decodeLines (l1 ++ l2) = decodeLines l1 ++ decodeLines l2.
Proof. unfold decodeLines. apply omap_app. Qed.

Lemma parseLines_view path lines :
  let es := decodeLines lines in
  let g := fold_left keepLatest es ∅ in
  bEvents (parseLines path lines) = concat (chunks g ∅ es)
  ∧ seenMessageIDs (parseLines path lines) = seenAll g ∅ es
  ∧ tokenCounters (bInfo (parseLines path lines))
    = fold_left (fun c p => addCounters (usageOf (snd p)) c) (emissions g ∅ es) (0, 0, 0, 0)
  ∧ identity (bInfo (parseLines path lines)) = identity (Session.Info (newSession path)).
Proof.
  intros es g. unfold parseLines, buildTimeline.
  rewrite readLines_groups, readLines_all. fold es g.
  destruct (buildEntry_fold_view g es (mkBuild (rInfo (readLines path lines)) [] ∅ ∅ ∅ ∅))
    as (-> & -> & -> & ->).
  simpl. unfold readLines. rewrite readLine_fold.
  destruct (recordEntry_fold_info (decodeLines lines)
              (mkRead (Session.Info (newSession path)) ∅ [])) as (-> & -> & _ & _).
  done.
Qed.

Lemma keepLatest_no_id g e : assistantID e = None -> keepLatest g e = g.
Proof.
  unfold assistantID, keepLatest.
  destruct (String.eqb (rawEntry.Type_ e) "assistant"); [|done].
  destruct (rawEntry.Message e) as [msg|]; [|done].
  by destruct (String.eqb (rawMessage.ID msg) "").
Qed.

Lemma emits_no_id g seen e : assistantID e = None -> emits g seen e = None.
Proof. unfold emits. by intros ->. Qed.

(** A record that carries no message identifier and appends no event can
    be taken out of the file without changing the timeline or the token
    counters. *)
Lemma silent_record_removable path l1 line l2 e :
  decodeLines [line] = [e] ->
  assistantID e = None ->
  (∀ g seen, chunk g seen e = []) ->
  bEvents (parseLines path (l1 ++ line :: l2)) = bEvents (parseLines path (l1 ++ l2))
  ∧ tokenCounters (bInfo (parseLines path (l1 ++ line :: l2)))
    = tokenCounters (bInfo (parseLines path (l1 ++ l2))).
Proof.
  intros Hline Hid Hchunk.
  destruct (parseLines_view path (l1 ++ line :: l2)) as (-> & _ & -> & _).
  destruct (parseLines_view path (l1 ++ l2)) as (-> & _ & -> & _).
  change (line :: l2) with ([line] ++ l2).
  rewrite !decodeLines_app, Hline.
  assert (fold_left keepLatest (decodeLines l1 ++ [e] ++ decodeLines l2) ∅
          = fold_left keepLatest (decodeLines l1 ++ decodeLines l2) ∅) as ->.
  { rewrite !fold_left_app. simpl. by rewrite (keepLatest_no_id _ e Hid). }
  set (g := fold_left keepLatest _ _).
  rewrite !chunks_app, !emissions_app. simpl.
  rewrite Hchunk. unfold seenAfter. rewrite (emits_no_id _ _ e Hid). simpl.
  by rewrite !concat_app.
Qed.

(** ** The running time bounds *)

Lemma updateBounds_bounds ts info :
  let info' := updateBounds ts info in
  SessionInfo.LastUpdate info ≤ SessionInfo.LastUpdate info'
  ∧ ts ≤ SessionInfo.LastUpdate info'
  ∧ (SessionInfo.StartTime info ≠ 0 ->
     SessionInfo.StartTime info' ≠ 0
     ∧ SessionInfo.StartTime info' ≤ SessionInfo.StartTime info)
  ∧ (ts ≠ 0 -> SessionInfo.StartTime info' ≠ 0 ∧ SessionInfo.StartTime info' ≤ ts).
Proof.
  unfold updateBounds, Time.IsZero, Time.After, Time.Before.
  destruct (SessionInfo.StartTime info =? 0) eqn:E0;
    destruct (ts =? 0) eqn:E1;
    destruct (ts <? SessionInfo.StartTime info) eqn:E2; simpl;
    match goal with
    | |- context [?a <? ?b] => destruct (a <? b) eqn:E3
    end; simpl; lia.
Qed.

Lemma bounds_along_file g es st :
  let st' := fold_left (buildEntry g) es st in
  SessionInfo.LastUpdate (bInfo st) ≤ SessionInfo.LastUpdate (bInfo st')
  ∧ (SessionInfo.StartTime (bInfo st) ≠ 0 ->
     SessionInfo.StartTime (bInfo st') ≠ 0
     ∧ SessionInfo.StartTime (bInfo st') ≤ SessionInfo.StartTime (bInfo st))
  ∧ ∀ e, e ∈ es ->
      parseTimestamp (rawEntry.Timestamp e) ≤ SessionInfo.LastUpdate (bInfo st')
      ∧ (parseTimestamp (rawEntry.Timestamp e) ≠ 0 ->
         SessionInfo.StartTime (bInfo st') ≠ 0
         ∧ SessionInfo.StartTime (bInfo st') ≤ parseTimestamp (rawEntry.Timestamp e)).
Proof.
  revert st. induction es as [|e es IH]; intros st; simpl.
  - split; [lia|]. split; [intros; lia|]. intros e He. by apply elem_of_nil in He.
  - destruct (IH (buildEntry g st e)) as (HL & HS & Hin).
    destruct (buildEntry_view g st e) as (_ & _ & _ & _ & HvS & HvL).
    destruct (updateBounds_bounds (parseTimestamp (rawEntry.Timestamp e)) (bInfo st))
      as (B1 & B2 & B3 & B4).
    simpl in *. rewrite HvS, HvL in *.
    split; [lia|]. split.
    + intros H0. destruct (B3 H0) as [? ?]. destruct HS as [? ?]; [done|]. lia.
    + intros e' He'. apply elem_of_cons in He' as [->|He']; [|by apply Hin].
      split; [lia|]. intros Hnz. destruct (B4 Hnz) as [? ?].
      destruct HS as [? ?]; [done|]. lia.
Qed.

(** ** The result of [ParseSessionFile] *)

Lemma ParseSessionFile_inv open path sess :
  ParseSessionFile open path (Some sess) ->
  ∃ content fr fw fc,
    open path = Some content
    ∧ sess = finish (parseContent path content) fr fw fc
    ∧ range_keys (filesRead (parseContent path content)) fr
    ∧ range_keys (filesWritten (parseContent path content)) fw
    ∧ range_keys (filesCreated (parseContent path content)) fc.
Proof. inversion 1; subst. eauto 10. Qed.

(** The timeline, the counters and the bounds of a returned session are
    those the two loops computed on the lines of the file. *)
Lemma ParseSessionFile_loops open path sess :
  ParseSessionFile open path (Some sess) ->
  ∃ content,
    open path = Some content
    ∧ Session.Events sess = bEvents (parseLines path (Scanner.tokens content))
    ∧ tokenCounters (Session.Info sess)
      = tokenCounters (bInfo (parseLines path (Scanner.tokens content)))
    ∧ SessionInfo.StartTime (Session.Info sess)
      = SessionInfo.StartTime (bInfo (parseLines path (Scanner.tokens content)))
    ∧ SessionInfo.LastUpdate (Session.Info sess)
      = SessionInfo.LastUpdate (bInfo (parseLines path (Scanner.tokens content))).
Proof.
  intros H. apply ParseSessionFile_inv in H as (content & fr & fw & fc & Ho & -> & _).
  exists content. by repeat split.
Qed.

Lemma finish_view st fr fw fc :
  Session.Events (finish st fr fw fc) = bEvents st
  ∧ tokenCounters (Session.Info (finish st fr fw fc)) = tokenCounters (bInfo st)
  ∧ identity (Session.Info (finish st fr fw fc)) = identity (bInfo st)
  ∧ SessionInfo.StartTime (Session.Info (finish st fr fw fc)) = SessionInfo.StartTime (bInfo st)
  ∧ SessionInfo.LastUpdate (Session.Info (finish st fr fw fc)) = SessionInfo.LastUpdate (bInfo st)
  ∧ SessionInfo.EventCount (Session.Info (finish st fr fw fc)) = Z.of_nat (length (bEvents st)).
Proof. by repeat split. Qed.

Lemma range_keys_elements (m : gset string) : range_keys m (elements m).
Proof. split; [apply NoDup_elements|]. intros k. apply elem_of_elements. Qed.

Lemma range_keys_of_set (m : gset string) l :
  NoDup l -> list_to_set l = m -> range_keys m l.
Proof.
  intros Hn <-. split; [done|]. intros k. by rewrite elem_of_list_to_set.
Qed.

Lemma ParseSessionFile_elements open path content :
  open path = Some content ->
  ParseSessionFile open path
    (Some (finish (parseContent path content)
             (elements (filesRead (parseContent path content)))
             (elements (filesWritten (parseContent path content)))
             (elements (filesCreated (parseContent path content))))).
Proof.
  intros Ho. apply (ParseSessionFile_ok open path content); [done|..];
    apply range_keys_elements.
Qed.

Lemma finish_files st fr fw fc :
  SessionInfo.FilesRead (Session.Info (finish st fr fw fc)) = fr
  ∧ SessionInfo.FilesWritten (Session.Info (finish st fr fw fc)) = fw
  ∧ SessionInfo.FilesCreated (Session.Info (finish st fr fw fc)) = fc.
Proof. by repeat split. Qed.

Lemma range_keys_perm (m : gset string) l1 l2 : range_keys m l1 -> range_keys m l2 -> l1 ≡ₚ l2.
Proof.
  intros [N1 H1] [N2 H2]. apply NoDup_Permutation; [done..|].
  intros k. by rewrite H1, H2.
Qed.

(** ** Timestamps of the events appended at a record *)

Lemma flat_map_stamped {A} (f : A -> list Event.t) ts l :
  (∀ x, stampedAt ts (f x)) -> stampedAt ts (flat_map f l).
Proof.
  intros Hf. induction l as [|x l IH]; simpl; [constructor|].
  apply Forall_app. split; [apply Hf|apply IH].
Qed.

Lemma parseUserMessage_stamped e ts : stampedAt ts (parseUserMessage e ts).
Proof.
  unfold parseUserMessage.
  destruct (rawEntry.Message e) as [msg|]; [|constructor].
  destruct (rawMessage.Content msg); try constructor.
  - case_match; repeat constructor.
  - apply flat_map_stamped. intros block. unfold userBlockEvents.
    repeat case_match; repeat constructor.
Qed.

Lemma parseAssistantMessage_stamped e ts : stampedAt ts (parseAssistantMessage e ts).
Proof.
  unfold parseAssistantMessage.
  destruct (rawEntry.Message e) as [msg|]; [|constructor].
  destruct (rawMessage.Content msg); try constructor.
  apply flat_map_stamped. intros block. unfold assistantBlockEvents.
  repeat case_match; repeat constructor.
Qed.

Lemma chunk_stamped g seen e :
  stampedAt (parseTimestamp (rawEntry.Timestamp e)) (chunk g seen e).
Proof.
  unfold chunk. repeat case_match;
    auto using parseUserMessage_stamped, parseAssistantMessage_stamped;
    repeat constructor.
Qed.



(** ** The candidate kept for each identifier *)

Lemma keepLatest_alt g e :
  keepLatest g e
  = match assistantID e with
    | None => g
    | Some id =>
        match g !! id with
        | None => <[id := mkGroup e (stamp e)]> g
        | Some existing =>
            if Time.After (stamp e) (timestamp existing)
            then <[id := mkGroup e (stamp e)]> g else g
        end
    end.
Proof.
  unfold keepLatest, assistantID, stamp.
  destruct (String.eqb (rawEntry.Type_ e) "assistant"); [|done].
  destruct (rawEntry.Message e) as [msg|]; [|done].
  by destruct (String.eqb (rawMessage.ID msg) "").
Qed.

Lemma firstLatest_snoc_other es id final e :
  firstLatest es id final ->
  (assistantID e = Some id -> stamp e ≤ timestamp final) ->
  firstLatest (es ++ [e]) id final.
Proof.
  intros (Ht & Hid & pre & post & -> & Hpre & Hpost) He.
  split; [done|]. split; [done|].
  exists pre, (post ++ [e]). split; [by rewrite <- app_assoc|].
  split; [done|]. intros e' He'. apply elem_of_app in He' as [He'|He'].
  - by apply Hpost.
  - apply list_elem_of_singleton in He' as ->. done.
Qed.

Lemma firstLatest_bound es id final e :
  firstLatest es id final -> e ∈ es -> assistantID e = Some id ->
  stamp e ≤ timestamp final.
Proof.
  intros (Ht & Hid & pre & post & -> & Hpre & Hpost) He Ha.
  apply elem_of_app in He as [He|He].
  - specialize (Hpre e He Ha). lia.
  - apply elem_of_cons in He as [->|He]; [lia|]. by apply Hpost.
Qed.

Lemma keepLatest_fold_spec es :
  let g := fold_left keepLatest es ∅ in
  (∀ id final, g !! id = Some final -> firstLatest es id final)
  ∧ (∀ e id, e ∈ es -> assistantID e = Some id -> is_Some (g !! id)).
Proof.
  induction es as [|e es IH] using rev_ind; simpl.
  - split.
    + intros id final H. by rewrite lookup_empty in H.
    + intros e id He. by apply elem_of_nil in He.
  - rewrite fold_left_app. simpl. destruct IH as [IH1 IH2].
    set (g := fold_left keepLatest es ∅) in *.
    rewrite keepLatest_alt.
    destruct (assistantID e) as [id0|] eqn:Ha.
    2:{ split.
        - intros id final H. apply firstLatest_snoc_other; [by apply IH1|].
          intros; congruence.
        - intros e' id He' Ha'. apply elem_of_app in He' as [He'|He'].
          + by eapply IH2.
          + apply list_elem_of_singleton in He' as ->. congruence. }
    destruct (g !! id0) as [existing|] eqn:Hg0.
    + destruct (Time.After (stamp e) (timestamp existing)) eqn:Hafter.
      * unfold Time.After in Hafter. apply Z.ltb_lt in Hafter.
        split.
        -- intros id final H. destruct (decide (id = id0)) as [->|Hne].
           ++ rewrite lookup_insert_eq in H. injection H as <-.
              split; [done|]. split; [done|].
              exists es, []. split; [done|]. split.
              ** intros e' He' Ha'. simpl.
                 pose proof (firstLatest_bound es id0 existing e' (IH1 _ _ Hg0) He' Ha'). lia.
              ** intros e' He'. by apply elem_of_nil in He'.
           ++ rewrite lookup_insert_ne in H by done.
              apply firstLatest_snoc_other; [by apply IH1|]. intros; congruence.
        -- intros e' id He' Ha'. destruct (decide (id = id0)) as [->|Hne].
           ++ rewrite lookup_insert_eq. eauto.
           ++ rewrite lookup_insert_ne by done.
              apply elem_of_app in He' as [He'|He']; [by eapply IH2|].
              apply list_elem_of_singleton in He' as ->. congruence.
      * unfold Time.After in Hafter. apply Z.ltb_ge in Hafter.
        split.
        -- intros id final H. apply firstLatest_snoc_other; [by apply IH1|].
           intros Ha'. assert (id = id0) as -> by congruence.
           rewrite Hg0 in H. injection H as <-. done.
        -- intros e' id He' Ha'.
           apply elem_of_app in He' as [He'|He']; [by eapply IH2|].
           apply list_elem_of_singleton in He' as ->.
           assert (id = id0) as -> by congruence. rewrite Hg0. eauto.
    + split.
      * intros id final H. destruct (decide (id = id0)) as [->|Hne].
        -- rewrite lookup_insert_eq in H. injection H as <-.
           split; [done|]. split; [done|].
           exists es, []. split; [done|]. split.
           ++ intros e' He' Ha'. destruct (IH2 e' id0 He' Ha') as [x Hx]. congruence.
           ++ intros e' He'. by apply elem_of_nil in He'.
        -- rewrite lookup_insert_ne in H by done.
           apply firstLatest_snoc_other; [by apply IH1|]. intros; congruence.
      * intros e' id He' Ha'. destruct (decide (id = id0)) as [->|Hne].
        -- rewrite lookup_insert_eq. eauto.
        -- rewrite lookup_insert_ne by done.
           apply elem_of_app in He' as [He'|He']; [by eapply IH2|].
           apply list_elem_of_singleton in He' as ->. congruence.
Qed.

(** ** Where the second loop emits a message *)












(** ** Token counters *)

Lemma wrap64_add_l a b : GoInt.wrap64 (GoInt.wrap64 a + b) = GoInt.wrap64 (a + b).
Proof.
  unfold GoInt.wrap64.
  replace ((a + 2 ^ 63) mod 2 ^ 64 - 2 ^ 63 + b + 2 ^ 63)
    with ((a + 2 ^ 63) mod 2 ^ 64 + b) by lia.
  rewrite Z.add_mod_idemp_l by lia.
  do 2 f_equal. lia.
Qed.

Lemma wrap64_in_range z : GoInt.in_range z -> GoInt.wrap64 z = z.
Proof.
  unfold GoInt.in_range, GoInt.wrap64. intros H.
  rewrite Z.mod_small by lia. lia.
Qed.






(** ** Records that add nothing to the timeline *)

(** C7. Compaction-summary exclusion: a user record flagged as a compact
    summary leaves the timeline unchanged when the second loop reaches it,
    whatever its payload, and the timeline of the whole file is the one of
    the file without that line. *)
Theorem compact_summary_yields_no_event path l1 line l2 e :
  decodeLines [line] = [e] ->
  rawEntry.Type_ e = "user" ->
  rawEntry.IsCompactSummary e = true ->
  (∀ g st, bEvents (buildEntry g st e) = bEvents st)
  ∧ bEvents (parseLines path (l1 ++ line :: l2)) = bEvents (parseLines path (l1 ++ l2)).
Proof.
  intros Hline Htype Hsum.
  assert (Hchunk : ∀ g seen, chunk g seen e = []).
  { intros g seen. unfold chunk. rewrite Htype, Hsum. simpl.
    by destruct (rawEntry.Message e). }
  assert (Hid : assistantID e = None).
  { apply (type_not_assistant e "user"); [by rewrite Htype|done]. }
  split.
  - intros g st. destruct (buildEntry_view g st e) as (-> & _).
    by rewrite Hchunk, app_nil_r.
  - by destruct (silent_record_removable path l1 line l2 e Hline Hid Hchunk).
Qed.

(** C9. An assistant record without message, or whose message identifier
    is empty, only moves the time bounds when the second loop reaches it:
    the timeline and the token counters of the whole file are those of the
    file without that line, while [LastUpdate] is at least its timestamp
    and, when that timestamp is not the zero time, [StartTime] is a
    non-zero time at most its timestamp. *)
Theorem assistant_without_identifier path l1 line l2 e :
  decodeLines [line] = [e] ->
  rawEntry.Type_ e = "assistant" ->
  (rawEntry.Message e = None
   ∨ ∃ msg, rawEntry.Message e = Some msg ∧ rawMessage.ID msg = "") ->
  let present := parseLines path (l1 ++ line :: l2) in
  let absent := parseLines path (l1 ++ l2) in
  (∀ g st, buildEntry g st e = withInfo (updateBounds (stamp e) (bInfo st)) st)
  ∧ bEvents present = bEvents absent
  ∧ tokenCounters (bInfo present) = tokenCounters (bInfo absent)
  ∧ stamp e ≤ SessionInfo.LastUpdate (bInfo present)
  ∧ (stamp e ≠ 0 ->
     SessionInfo.StartTime (bInfo present) ≠ 0
     ∧ SessionInfo.StartTime (bInfo present) ≤ stamp e).
Proof.
  intros Hline Htype Hmsg present absent.
  assert (Hid : assistantID e = None).
  { unfold assistantID. rewrite Htype. simpl.
    destruct Hmsg as [->|(msg & -> & ->)]; done. }
  assert (Hchunk : ∀ g seen, chunk g seen e = []).
  { intros g seen. unfold chunk. rewrite Htype. simpl.
    by rewrite (emits_no_id g seen e Hid). }
  split.
  { intros g st. unfold buildEntry. rewrite Htype. simpl.
    destruct Hmsg as [->|(msg & -> & ->)]; done. }
  destruct (silent_record_removable path l1 line l2 e Hline Hid Hchunk) as [He Ht].
  split; [done|]. split; [done|].
  assert (Hin : e ∈ allEntries (readLines path (l1 ++ line :: l2))).
  { rewrite readLines_all. change (line :: l2) with ([line] ++ l2).
    rewrite !decodeLines_app, Hline. apply elem_of_app. right. by left. }
  destruct (bounds_along_file (assistantMessages (readLines path (l1 ++ line :: l2)))
              (allEntries (readLines path (l1 ++ line :: l2)))
              (mkBuild (rInfo (readLines path (l1 ++ line :: l2))) [] ∅ ∅ ∅ ∅))
    as (_ & _ & Hb).
  apply (Hb e Hin).
Qed.

(** ** Order of the timeline *)


(** ** Determinism *)

(** C1. Determinism: two runs of [ParseSessionFile] on the same content
    both fail or both return a session; the two sessions have the same
    events and the same summary, except that each of [FilesRead],
    [FilesWritten] and [FilesCreated] may come in a different order: the
    slices of the two runs are permutations of each other. *)
Theorem parse_deterministic_up_to_file_order open path r1 r2 :
  ParseSessionFile open path r1 ->
  ParseSessionFile open path r2 ->
  match r1, r2 with
  | None, None => True
  | Some s1, Some s2 =>
      Session.Events s1 = Session.Events s2
      ∧ withoutFiles (Session.Info s1) = withoutFiles (Session.Info s2)
      ∧ SessionInfo.FilesRead (Session.Info s1) ≡ₚ SessionInfo.FilesRead (Session.Info s2)
      ∧ SessionInfo.FilesWritten (Session.Info s1) ≡ₚ SessionInfo.FilesWritten (Session.Info s2)
      ∧ SessionInfo.FilesCreated (Session.Info s1) ≡ₚ SessionInfo.FilesCreated (Session.Info s2)
  | _, _ => False
  end.
Proof.
  intros H1 H2.
  destruct H1 as [E1|c1 fr1 fw1 fc1 E1 R1 W1 C1];
    destruct H2 as [E2|c2 fr2 fw2 fc2 E2 R2 W2 C2]; try congruence; [done|].
  assert (c2 = c1) as -> by congruence.
  repeat split; simpl; eauto using range_keys_perm.
Qed.

(** ** Lines that do not decode *)







(** ** Strings and paths *)

#[local] Arguments String.append !_ _ / : simpl nomatch.

Lemma length_append a b : String.length (a +:+ b) = (String.length a + String.length b)%nat.
Proof. induction a as [|c a IH]; simpl; [done|]. by rewrite IH. Qed.

Lemma substring_all s m : (String.length s ≤ m)%nat -> String.substring 0 m s = s.
Proof.
  revert m. induction s as [|c s IH]; intros m Hm; simpl.
  - by destruct m.
  - destruct m as [|m]; simpl in *; [lia|]. rewrite IH; [done|lia].
Qed.

Lemma substring_skip a b m :
  String.substring (String.length a) m (a +:+ b) = String.substring 0 m b.
Proof. induction a as [|c a IH]; simpl; done. Qed.

Lemma substring_take a b : String.substring 0 (String.length a) (a +:+ b) = a.
Proof.
  induction a as [|c a IH]; simpl.
  - by destruct b.
  - by rewrite IH.
Qed.

Lemma substring_split s n :
  (n ≤ String.length s)%nat ->
  s = String.substring 0 n s +:+ String.substring n (String.length s - n) s.
Proof.
  revert n. induction s as [|c s IH]; intros n Hn; simpl in *.
  - assert (n = 0)%nat as -> by lia. done.
  - destruct n as [|n]; simpl.
    + by rewrite substring_all.
    + change (String c s
              = String c (String.substring 0 n s
                          +:+ String.substring n (String.length s - n) s)).
      f_equal. apply IH. lia.
Qed.

Lemma HasPrefix_spec s pre :
  Strings.HasPrefix s pre = true ↔ ∃ rest, s = pre +:+ rest.
Proof.
  unfold Strings.HasPrefix. revert s.
  induction pre as [|c pre IH]; intros [|d s]; simpl.
  - split; [eauto|done].
  - split; [eauto|done].
  - split; [done|intros [rest [=]]].
  - destruct (ascii_dec c d) as [->|Hne].
    + rewrite IH. split; intros [rest H]; exists rest; congruence.
    + split; [done|]. intros [rest [= ? ?]]. done.
Qed.

Lemma HasSuffix_spec s suf :
  Strings.HasSuffix s suf = true ↔ ∃ stem, s = stem +:+ suf.
Proof.
  unfold Strings.HasSuffix. rewrite andb_true_iff, Nat.leb_le, String.eqb_eq. split.
  - intros [Hlen Hsub]. exists (String.substring 0 (String.length s - String.length suf) s).
    pose proof (substring_split s (String.length s - String.length suf)) as Hs.
    replace (String.length s - (String.length s - String.length suf))%nat
      with (String.length suf) in Hs by lia.
    rewrite Hsub in Hs. apply Hs. lia.
  - intros [stem ->]. rewrite length_append. split; [lia|].
    replace (String.length stem + String.length suf - String.length suf)%nat
      with (String.length stem) by lia.
    rewrite substring_skip. by apply substring_all.
Qed.

Lemma TrimSuffix_stem stem suf : Strings.TrimSuffix (stem +:+ suf) suf = stem.
Proof.
  unfold Strings.TrimSuffix.
  rewrite (proj2 (HasSuffix_spec (stem +:+ suf) suf)) by eauto.
  rewrite length_append.
  replace (String.length stem + String.length suf - String.length suf)%nat
    with (String.length stem) by lia.
  apply substring_take.
Qed.

Lemma TrimSuffix_none s suf :
  (¬ ∃ stem, s = stem +:+ suf) -> Strings.TrimSuffix s suf = s.
Proof.
  intros H. unfold Strings.TrimSuffix.
  destruct (Strings.HasSuffix s suf) eqn:E; [|done].
  apply HasSuffix_spec in E. done.
Qed.

Lemma ReplaceAll_hyphens s : Strings.ReplaceAll s "-" "/" = hyphensToSlashes s.
Proof.
  unfold Strings.ReplaceAll, hyphensToSlashes.
  induction s as [|c s IH]; [done|].
  cbn [Strings.replaceFrom list_ascii_of_string map string_of_list_ascii].
  rewrite <- IH.
  change (String.prefix "-" (String c s))
    with (if ascii_dec "-"%char c then String.prefix "" s else false).
  destruct (ascii_dec "-" c) as [<-|Hne].
  - by destruct s.
  - destruct (Ascii.eqb c "-") eqn:E; [|done].
    apply Ascii.eqb_eq in E. congruence.
Qed.

Lemma strip_noSeparator s : noSeparator s -> Filepath.stripTrailingSeparators s = s.
Proof.
  induction s as [|c s IH]; intros H; simpl; [done|].
  rewrite IH by (intros c' Hc'; apply H; by right).
  rewrite (H c) by by left. by destruct s.
Qed.

Lemma strip_onlySeparators s : onlySeparators s -> Filepath.stripTrailingSeparators s = "".
Proof.
  induction s as [|c s IH]; intros H; simpl; [done|].
  rewrite IH by (intros c' Hc'; apply H; by right).
  by rewrite (H c) by by left.
Qed.

Lemma strip_app_separators s t :
  onlySeparators t ->
  Filepath.stripTrailingSeparators (s +:+ t) = Filepath.stripTrailingSeparators s.
Proof.
  intros Ht. induction s as [|c s IH]; simpl.
  - by apply strip_onlySeparators.
  - by rewrite IH.
Qed.

Lemma strip_app_name pre name :
  name ≠ "" -> noSeparator name ->
  Filepath.stripTrailingSeparators (pre +:+ name) = pre +:+ name.
Proof.
  intros Hne Hname. induction pre as [|c pre IH]; simpl.
  - by apply strip_noSeparator.
  - rewrite IH. destruct (pre +:+ name) eqn:E; [|done].
    destruct pre; simpl in E; [done|discriminate].
Qed.

Lemma afterLast_noSeparator s : noSeparator s -> Filepath.afterLastSeparator s = 0%nat.
Proof.
  induction s as [|c s IH]; intros H; simpl; [done|].
  rewrite IH by (intros c' Hc'; apply H; by right).
  by rewrite (H c) by by left.
Qed.

Lemma afterLast_app_name pre name :
  noSeparator name ->
  Filepath.afterLastSeparator (pre +:+ name) = Filepath.afterLastSeparator pre.
Proof.
  intros Hname. induction pre as [|c pre IH]; simpl.
  - by apply afterLast_noSeparator.
  - by rewrite IH.
Qed.

Lemma afterLast_ends_with_separator p :
  Filepath.afterLastSeparator (p +:+ "/") = String.length (p +:+ "/").
Proof.
  induction p as [|c p IH]; simpl; [done|].
  rewrite IH, length_append. simpl.
  by replace (0 <? String.length p + 1)%nat with true by (symmetry; apply Nat.ltb_lt; lia).
Qed.

(** [Base] gives the last element of a path, trailing separators
    apart. *)
Lemma Base_last_element pre name slashes :
  pre = "" ∨ (∃ p, pre = p +:+ "/") ->
  name ≠ "" -> noSeparator name -> onlySeparators slashes ->
  Filepath.Base (pre +:+ name +:+ slashes) = name.
Proof.
  intros Hpre Hne Hname Hsl.
  assert (Hafter : Filepath.afterLastSeparator (pre +:+ name) = String.length pre).
  { rewrite afterLast_app_name by done.
    destruct Hpre as [->|[p ->]]; [done|apply afterLast_ends_with_separator]. }
  unfold Filepath.Base.
  destruct (pre +:+ name +:+ slashes) eqn:E.
  { destruct pre; simpl in E; [|discriminate]. destruct name; [done|discriminate]. }
  rewrite <- E.
  replace (pre +:+ name +:+ slashes) with ((pre +:+ name) +:+ slashes).
  2:{ clear. induction pre as [|c pre IH]; simpl; [done|]. by rewrite IH. }
  rewrite strip_app_separators, strip_app_name, Hafter by done.
  rewrite substring_skip, substring_all by (rewrite length_append; lia).
  by destruct name.
Qed.

(** C10. Session identity: the identity fields of a parsed session are
    functions of the path alone. [ID] is the base name without a final
    [.jsonl] (the base name itself when it has no such suffix); [IsAgent]
    holds exactly when the base name starts with [agent-]; [ProjectDir] is
    the name of the parent directory with every [-] replaced by [/]; and
    [ProjectName] is [Base] of [ProjectDir], its last element: the part
    after the last [/], trailing [/] apart. *)
Theorem session_identity_from_path open path sess :
  ParseSessionFile open path (Some sess) ->
  let info := Session.Info sess in
  let basename := Filepath.Base path in
  let dirName := Filepath.Base (Filepath.Dir path) in
  SessionInfo.FilePath info = path
  ∧ SessionInfo.ID info = Strings.TrimSuffix basename ".jsonl"
  ∧ (∀ stem, basename = stem +:+ ".jsonl" -> SessionInfo.ID info = stem)
  ∧ ((¬ ∃ stem, basename = stem +:+ ".jsonl") -> SessionInfo.ID info = basename)
  ∧ (SessionInfo.IsAgent info = true ↔ ∃ rest, basename = "agent-" +:+ rest)
  ∧ SessionInfo.ProjectDir info = hyphensToSlashes dirName
  ∧ SessionInfo.ProjectName info = Filepath.Base (SessionInfo.ProjectDir info)
  ∧ (∀ pre name slashes,
       SessionInfo.ProjectDir info = pre +:+ name +:+ slashes ->
       pre = "" ∨ (∃ p, pre = p +:+ "/") ->
       name ≠ "" -> noSeparator name -> onlySeparators slashes ->
       SessionInfo.ProjectName info = name).
Proof.
  intros H info basename dirName.
  assert (Hid : identity info = identity (Session.Info (newSession path))).
  { subst info.
    apply ParseSessionFile_inv in H as (content & fr & fw & fc & _ & -> & _).
    destruct (finish_view (parseContent path content) fr fw fc) as (_ & _ & -> & _).
    unfold parseContent.
    by destruct (parseLines_view path (Scanner.tokens content)) as (_ & _ & _ & ->). }
  clearbody info. unfold identity, newSession in Hid.
  cbn [Session.Info SessionInfo.ID SessionInfo.ProjectDir SessionInfo.ProjectName
         SessionInfo.FilePath SessionInfo.IsAgent] in Hid.
  injection Hid as HID HDir HName HPath HAgent.
  fold basename in HID, HAgent. fold dirName in HDir, HName.
  rewrite ReplaceAll_hyphens in HDir, HName.
  rewrite HID, HDir, HName, HPath, HAgent.
  repeat split; try done.
  - intros stem ->. apply TrimSuffix_stem.
  - apply TrimSuffix_none.
  - apply HasPrefix_spec.
  - apply HasPrefix_spec.
  - intros pre name slashes ->. apply Base_last_element.
Qed.

(** ** The store *)

Lemma ParseSessionFile_count open path sess :
  ParseSessionFile open path (Some sess) ->
  SessionInfo.EventCount (Session.Info sess) = Z.of_nat (length (Session.Events sess)).
Proof.
  intros H. apply ParseSessionFile_inv in H as (content & fr & fw & fc & _ & -> & _).
  done.
Qed.

Lemma indexed_insert fs path sess m :
  indexed m ->
  ParseSessionFile (openFile fs) path (Some sess) ->
  (length (Session.Events sess) =? 0)%nat = false ->
  indexed (<[SessionInfo.ID (Session.Info sess) := sess]> m).
Proof.
  intros Hm Hp Hlen id sess' Hlook.
  destruct (decide (SessionInfo.ID (Session.Info sess) = id)) as [<-|Hne].
  - rewrite lookup_insert_eq in Hlook. injection Hlook as <-.
    apply Nat.eqb_neq in Hlen.
    split; [by destruct (Session.Events sess)|].
    split; [by eapply ParseSessionFile_count|]. eauto.
  - rewrite lookup_insert_ne in Hlook by done. by apply Hm.
Qed.

Lemma scanPut_indexed fs path r m :
  indexed m -> ParseSessionFile (openFile fs) path r -> indexed (scanPut r m).
Proof.
  intros Hm Hp. unfold scanPut. destruct r as [sess|]; [|done].
  destruct (length (Session.Events sess) =? 0)%nat eqn:E; [done|].
  by eapply indexed_insert.
Qed.

Lemma watchPut_indexed fs path r s :
  indexed (Store.sessions s) -> ParseSessionFile (openFile fs) path r ->
  indexed (Store.sessions (watchPut r s)).
Proof.
  intros Hm Hp. unfold watchPut. destruct r as [sess|]; [|done].
  destruct (length (Session.Events sess) =? 0)%nat eqn:E; [done|].
  simpl. by eapply indexed_insert.
Qed.

Lemma scanFiles_indexed fs dir files m m' :
  scanFiles fs dir files m m' -> indexed m -> indexed m'.
Proof.
  induction 1 as [m|f rest m m' _ _ IH|f rest r m m' _ Hp _ IH]; intros Hm.
  - done.
  - by apply IH.
  - apply IH. by eapply scanPut_indexed.
Qed.

Lemma scanDirs_indexed fs base dirs s s' :
  scanDirs fs base dirs s s' -> indexed (Store.sessions s) -> indexed (Store.sessions s').
Proof.
  induction 1 as [s|d rest s s' _ _ IH|d rest s s' _ _ _ IH|d rest files m s s' _ _ Hf _ IH];
    intros Hm.
  - done.
  - by apply IH.
  - by apply IH.
  - apply IH. simpl. by eapply scanFiles_indexed.
Qed.

Lemma step_indexed w w' :
  step w w' -> indexed (Store.sessions (fst w)) -> indexed (Store.sessions (fst w')).
Proof.
  destruct 1 as [fs s s' err debounce HS|name op s debounce|fs path r s Hp|s debounce];
    simpl; intros Hm; try done.
  - destruct HS as [_|entries s' _ Hd]; [done|]. by eapply scanDirs_indexed.
  - by eapply watchPut_indexed.
Qed.

Lemma reachable_indexed home w : reachable home w -> indexed (Store.sessions (fst w)).
Proof.
  induction 1 as [s Hnew|w w' _ IH Hstep].
  - injection Hnew as <-. simpl. intros id sess Hl. by rewrite lookup_empty in Hl.
  - by eapply step_indexed.
Qed.

(** C6. Empty-session exclusion: a parse that yields no event leaves the
    map of the store as it is, in the loop of [Scan] as in the function
    the watcher's timer runs; so, whatever scans, notifications and timer
    runs have happened since [NewStore], [GetSession] never returns a
    session without events and every summary [GetSessions] lists belongs
    to a stored session that has events. *)
Theorem empty_session_never_indexed home w :
  reachable home w ->
  (∀ sess, Session.Events sess = [] ->
     (∀ m, scanPut (Some sess) m = m) ∧ (∀ s, watchPut (Some sess) s = s))
  ∧ (∀ id sess, GetSession (fst w) id = Some sess -> Session.Events sess ≠ [])
  ∧ (∀ infos info, GetSessions (fst w) infos -> info ∈ infos ->
       ∃ sess, GetSession (fst w) (SessionInfo.ID info) = Some sess
               ∧ Session.Info sess = info
               ∧ Session.Events sess ≠ []
               ∧ SessionInfo.EventCount info ≠ 0).
Proof.
  intros Hr. pose proof (reachable_indexed home w Hr) as Hidx.
  split; [|split].
  - intros sess He. unfold scanPut, watchPut. rewrite He. done.
  - intros id sess Hg. by destruct (Hidx id sess Hg).
  - intros infos info [Hperm _] Hin. rewrite Hperm in Hin.
    apply list_elem_of_fmap in Hin as (sess & -> & Hin).
    apply list_elem_of_fmap in Hin as ([id sess'] & -> & Hin). simpl.
    apply elem_of_map_to_list in Hin.
    destruct (Hidx id sess' Hin) as (Hne & Hcount & Hid & _).
    exists sess'. unfold GetSession. rewrite Hid.
    repeat split; try done.
    rewrite Hcount. destruct (Session.Events sess'); [done|]. simpl. lia.
Qed.

(** X16: the record kept for a message identifier by the first loop, in
    terms of the file: it is the first of the records of the identifier
    that carry its latest timestamp; records of the identifier before it
    are strictly older, records after it are not newer. *)
Lemma kept_record_is_first_latest path lines id final :
  assistantMessages (readLines path lines) !! id = Some final ->
  firstLatest (allEntries (readLines path lines)) id final.
Proof.
  rewrite readLines_groups, readLines_all.
  apply (proj1 (keepLatest_fold_spec (decodeLines lines))).
Qed.

(** * Further properties *)

(** ** The events of one message *)

Lemma Forall_flat_map {A B} (P : B -> Prop) (f : A -> list B) l :
  (∀ x, x ∈ l -> Forall P (f x)) -> Forall P (flat_map f l).
Proof.
  induction l as [|x l IH]; intros Hf; simpl; [constructor|].
  apply Forall_app. split; [apply Hf; by left|].
  apply IH. intros y Hy. apply Hf. by right.
Qed.

(** The events of a user message: prompts and tool results, well
    shaped, with the UUID of the record. *)
Lemma parseUserMessage_events e ts :
  Forall (fun ev =>
            wellShaped ev
            ∧ (Event.Type_ ev = EventUserPrompt ∨ Event.Type_ ev = EventToolResult)
            ∧ Event.UUID ev = rawEntry.UUID e)
    (parseUserMessage e ts).
Proof.
  unfold parseUserMessage.
  destruct (rawEntry.Message e) as [msg|]; [|constructor].
  destruct (rawMessage.Content msg); try constructor.
  - destruct (negb (isBlank s)) eqn:E; [|constructor].
    apply negb_true_iff in E.
    constructor; [|constructor]. unfold wellShaped. simpl. auto.
  - apply Forall_flat_map. intros block _. unfold userBlockEvents.
    destruct (asMap block) as [bMap|]; [|constructor].
    destruct (String.eqb _ "tool_result").
    { constructor; [|constructor]. unfold wellShaped. simpl. auto. }
    destruct (String.eqb _ "text"); [|constructor].
    destruct (negb (isBlank _)) eqn:E; [|constructor].
    apply negb_true_iff in E.
    constructor; [|constructor]. unfold wellShaped. simpl. auto.
Qed.

(** The events of an assistant message: thinking, text and tool uses,
    well shaped, with the UUID and the usage of the record. *)
Lemma parseAssistantMessage_events e ts :
  Forall (fun ev =>
            wellShaped ev
            ∧ (Event.Type_ ev = EventThinking ∨ Event.Type_ ev = EventText
               ∨ Event.Type_ ev = EventToolUse)
            ∧ Event.UUID ev = rawEntry.UUID e
            ∧ Event.InputTokens ev
              = from_option rawUsage.InputTokens 0 (rawEntry.Message e ≫= rawMessage.Usage)
            ∧ Event.OutputTokens ev
              = from_option rawUsage.OutputTokens 0 (rawEntry.Message e ≫= rawMessage.Usage))
    (parseAssistantMessage e ts).
Proof.
  unfold parseAssistantMessage.
  destruct (rawEntry.Message e) as [msg|]; [|constructor].
  destruct (rawMessage.Content msg); try constructor.
  apply Forall_flat_map. intros block _. unfold assistantBlockEvents.
  assert (Hu : ∀ f, match rawMessage.Usage msg with Some u => f u | None => 0 end
                    = from_option f 0 (Some msg ≫= rawMessage.Usage)).
  { intros f. simpl. by destruct (rawMessage.Usage msg). }
  destruct (asMap block) as [bMap|]; [|constructor].
  destruct (String.eqb _ "thinking").
  { destruct (negb (isBlank _)) eqn:E; [|constructor]. apply negb_true_iff in E.
    constructor; [|constructor]. unfold wellShaped. simpl. rewrite <- !Hu. auto 10. }
  destruct (String.eqb _ "text").
  { destruct (negb (isBlank _)) eqn:E; [|constructor]. apply negb_true_iff in E.
    constructor; [|constructor]. unfold wellShaped. simpl. rewrite <- !Hu. auto 10. }
  destruct (String.eqb _ "tool_use"); [|constructor].
  constructor; [|constructor]. unfold wellShaped. simpl. rewrite <- !Hu. auto 10.
Qed.

(** ** The events appended at one record *)

Lemma chunk_events g seen e :
  Forall (fun ev => wellShaped ev ∧ comesFrom g e ev) (chunk g seen e).
Proof.
  pose proof (chunk_stamped g seen e) as Hst. unfold stampedAt in Hst.
  rewrite Forall_forall in Hst. apply Forall_forall. intros ev Hin.
  specialize (Hst ev Hin). revert Hin. unfold chunk.
  destruct (String.eqb (rawEntry.Type_ e) "system") eqn:Es.
  { apply String.eqb_eq in Es.
    destruct (String.eqb (rawEntry.Subtype e) "compact_boundary") eqn:Eb;
      [|intros H; by apply elem_of_nil in H].
    apply String.eqb_eq in Eb. intros H. apply list_elem_of_singleton in H. subst ev.
    split; [by unfold wellShaped|]. by unfold comesFrom. }
  destruct (String.eqb (rawEntry.Type_ e) "user") eqn:Eu.
  { apply String.eqb_eq in Eu.
    destruct (rawEntry.Message e) as [msg|] eqn:Em; [|intros H; by apply elem_of_nil in H].
    destruct (rawEntry.IsCompactSummary e) eqn:Ec; [intros H; by apply elem_of_nil in H|].
    intros H. pose proof (parseUserMessage_events e (parseTimestamp (rawEntry.Timestamp e))) as Hp.
    rewrite Forall_forall in Hp. destruct (Hp ev H) as (Hw & Hk & Hu).
    split; [done|]. unfold comesFrom. split; [done|]. split; [done|].
    destruct Hk as [-> | ->]; done. }
  destruct (emits g seen e) as [[id final]|] eqn:Hem; [|intros H; by apply elem_of_nil in H].
  apply emits_Some in Hem as (Ha & _ & Hg & Huu).
  intros H.
  pose proof (parseAssistantMessage_events (entry final)
                (parseTimestamp (rawEntry.Timestamp e))) as Hp.
  rewrite Forall_forall in Hp. destruct (Hp ev H) as (Hw & Hk & Hu & Hi & Ho).
  split; [done|]. unfold comesFrom. split; [congruence|]. split; [done|].
  assert (Hx : ∃ id final,
             assistantID e = Some id ∧ g !! id = Some final
             ∧ Event.InputTokens ev = from_option rawUsage.InputTokens 0 (usageOf final)
             ∧ Event.OutputTokens ev = from_option rawUsage.OutputTokens 0 (usageOf final)).
  { exists id, final. rewrite Hi, Ho. unfold usageOf.
    by destruct (rawEntry.Message (entry final)). }
  destruct Hk as [-> | [-> | ->]]; done.
Qed.

Lemma chunks_elem g seen es ev :
  ev ∈ concat (chunks g seen es) -> ∃ e seen', e ∈ es ∧ ev ∈ chunk g seen' e.
Proof.
  revert seen. induction es as [|e es IH]; intros seen; simpl.
  - intros H. by apply elem_of_nil in H.
  - intros H. apply elem_of_app in H as [H|H].
    + exists e, seen. split; [by left|done].
    + destruct (IH _ H) as (e' & seen' & He' & Hin). exists e', seen'. split; [by right|done].
Qed.

(** X1: every event of a parsed session is one of the six variants the
    parser builds (never [EventSystem]), carries only the fields of its
    variant, and has a body that is not blank when it is a prompt, a text
    or a thinking event. *)
Theorem events_are_well_shaped open path sess :
  ParseSessionFile open path (Some sess) ->
  Forall wellShaped (Session.Events sess).
Proof.
  intros H. apply ParseSessionFile_loops in H as (content & _ & -> & _).
  destruct (parseLines_view path (Scanner.tokens content)) as (-> & _).
  apply Forall_forall. intros ev Hin.
  apply chunks_elem in Hin as (e & seen & _ & Hin).
  pose proof (chunk_events (fold_left keepLatest (decodeLines (Scanner.tokens content)) ∅)
                seen e) as Hc.
  rewrite Forall_forall in Hc. by destruct (Hc ev Hin).
Qed.

(** X2: every event of a parsed session comes from a record of the file:
    it has the UUID and the timestamp of that record, a prompt or a tool
    result comes from a user record that is not a compaction summary, a
    compaction from a system record of subtype compact_boundary, and a
    thinking, text or tool-use event from an assistant record whose
    identifier has a candidate, of which it carries the input and output
    token counts. *)
Theorem events_come_from_records open path sess :
  ParseSessionFile open path (Some sess) ->
  ∃ content,
    open path = Some content
    ∧ let r := readLines path (Scanner.tokens content) in
      ∀ ev, ev ∈ Session.Events sess ->
        ∃ e, e ∈ allEntries r ∧ comesFrom (assistantMessages r) e ev.
Proof.
  intros H. apply ParseSessionFile_loops in H as (content & Ho & -> & _).
  exists content. split; [done|]. intros r ev Hin. subst r.
  destruct (parseLines_view path (Scanner.tokens content)) as (Hev & _).
  rewrite Hev in Hin. rewrite readLines_all, readLines_groups.
  apply chunks_elem in Hin as (e & seen & He & Hin).
  exists e. split; [done|].
  pose proof (chunk_events (fold_left keepLatest (decodeLines (Scanner.tokens content)) ∅)
                seen e) as Hc.
  rewrite Forall_forall in Hc. by destruct (Hc ev Hin).
Qed.

(** ** The summary agrees with the timeline *)

Lemma countEvents_app P l1 l2 :
  countEvents P (l1 ++ l2) = countEvents P l1 + countEvents P l2.
Proof. unfold countEvents. rewrite List.filter_app, length_app. lia. Qed.

Lemma countEvents_cons P ev l :
  countEvents P (ev :: l) = (if P ev then 1 else 0) + countEvents P l.
Proof. unfold countEvents. simpl. destruct (P ev); simpl; lia. Qed.

Lemma toolPaths_app name l1 l2 :
  toolPaths name (l1 ++ l2) = toolPaths name l1 ∪ toolPaths name l2.
Proof. unfold toolPaths. by rewrite omap_app, list_to_set_app_L. Qed.

Lemma toolPaths_cons name ev l :
  toolPaths name (ev :: l)
  = (if isToolNamed name ev then from_option singleton ∅ (toolFilePath ev) else ∅)
    ∪ toolPaths name l.
Proof.
  unfold toolPaths. simpl. destruct (isToolNamed name ev); simpl.
  - destruct (toolFilePath ev); simpl; [done|]. set_solver.
  - set_solver.
Qed.

(** Events that are no tool uses count for nothing in the tool tallies. *)
Lemma no_tool_use_tally name evs :
  Forall (fun ev => isToolUse ev = false) evs ->
  countEvents isToolUse evs = 0
  ∧ countEvents (isToolNamed name) evs = 0
  ∧ toolPaths name evs = ∅.
Proof.
  induction 1 as [|ev evs Hev _ (IH1 & IH2 & IH3)]; [done|].
  assert (Hn : isToolNamed name ev = false) by (unfold isToolNamed; by rewrite Hev).
  rewrite !countEvents_cons, toolPaths_cons, Hev, Hn, IH1, IH2, IH3.
  repeat split; try done; set_solver.
Qed.

(** Events that are neither prompts nor tool results count for nothing
    in the tallies of the user loop. *)
Lemma no_user_event_tally evs :
  Forall (fun ev => isPrompt ev = false ∧ isErrorResult ev = false) evs ->
  countEvents isPrompt evs = 0 ∧ countEvents isErrorResult evs = 0.
Proof.
  induction 1 as [|ev evs [Hp He] _ (IH1 & IH2)]; [done|].
  rewrite !countEvents_cons, Hp, He, IH1, IH2. done.
Qed.

Lemma incr_wrapped a (b : bool) :
  (if b then GoInt.incr (GoInt.wrap64 a) else GoInt.wrap64 a)
  = GoInt.wrap64 (a + (if b then 1 else 0)).
Proof.
  destruct b; [|by rewrite Z.add_0_r]. unfold GoInt.incr, GoInt.add.
  apply wrap64_add_l.
Qed.

Lemma countUserEvent_fold_tally evs info a b :
  SessionInfo.UserPrompts info = GoInt.wrap64 a ->
  SessionInfo.Errors info = GoInt.wrap64 b ->
  let info' := fold_left countUserEvent evs info in
  SessionInfo.UserPrompts info' = GoInt.wrap64 (a + countEvents isPrompt evs)
  ∧ SessionInfo.Errors info' = GoInt.wrap64 (b + countEvents isErrorResult evs)
  ∧ SessionInfo.ToolCallCount info' = SessionInfo.ToolCallCount info
  ∧ SessionInfo.BashCommands info' = SessionInfo.BashCommands info.
Proof.
  revert info a b. induction evs as [|ev evs IH]; intros info a b Ha Hb; simpl.
  - by rewrite !Z.add_0_r.
  - rewrite !countEvents_cons.
    destruct (IH (countUserEvent info ev)
                (a + (if isPrompt ev then 1 else 0))
                (b + (if isErrorResult ev then 1 else 0))) as (-> & -> & -> & ->).
    + rewrite <- incr_wrapped, <- Ha. unfold countUserEvent, isPrompt.
      destruct (decide (Event.Type_ ev = EventUserPrompt)) as [E|E].
      * rewrite (bool_decide_eq_true_2 _ E). by repeat case_match.
      * rewrite (bool_decide_eq_false_2 _ E). by repeat case_match.
    + rewrite <- incr_wrapped, <- Hb. unfold countUserEvent, isErrorResult.
      destruct (bool_decide (Event.Type_ ev = EventToolResult) && Event.IsError ev);
        by repeat case_match.
    + rewrite !Z.add_assoc. unfold countUserEvent. by repeat case_match.
Qed.

Lemma trackToolEvent_tally st ev :
  let st' := trackToolEvent st ev in
  SessionInfo.ToolCallCount (bInfo st')
  = (if isToolUse ev then GoInt.incr (SessionInfo.ToolCallCount (bInfo st))
     else SessionInfo.ToolCallCount (bInfo st))
  ∧ SessionInfo.BashCommands (bInfo st')
    = (if isToolNamed "Bash" ev then GoInt.incr (SessionInfo.BashCommands (bInfo st))
       else SessionInfo.BashCommands (bInfo st))
  ∧ filesRead st' = filesRead st ∪ toolPaths "Read" [ev]
  ∧ filesCreated st' = filesCreated st ∪ toolPaths "Write" [ev]
  ∧ filesWritten st' = filesWritten st ∪ toolPaths "Edit" [ev]
  ∧ SessionInfo.UserPrompts (bInfo st') = SessionInfo.UserPrompts (bInfo st)
  ∧ SessionInfo.Errors (bInfo st') = SessionInfo.Errors (bInfo st).
Proof.
  unfold trackToolEvent. rewrite !toolPaths_cons. unfold isToolNamed, isToolUse, toolPaths.
  destruct (decide (Event.Type_ ev = EventToolUse)) as [E|E].
  2:{ rewrite (bool_decide_eq_false_2 _ E). simpl. repeat split; try done; set_solver. }
  rewrite (bool_decide_eq_true_2 _ E). simpl.
  destruct (String.eqb (Event.ToolName ev) "Read") eqn:E1.
  { apply String.eqb_eq in E1. rewrite E1. simpl.
    destruct (toolFilePath ev); simpl; repeat split; try done; set_solver. }
  destruct (String.eqb (Event.ToolName ev) "Write") eqn:E2.
  { apply String.eqb_eq in E2. rewrite E2. simpl.
    destruct (toolFilePath ev); simpl; repeat split; try done; set_solver. }
  destruct (String.eqb (Event.ToolName ev) "Edit") eqn:E3.
  { apply String.eqb_eq in E3. rewrite E3. simpl.
    destruct (toolFilePath ev); simpl; repeat split; try done; set_solver. }
  destruct (String.eqb (Event.ToolName ev) "Bash") eqn:E4;
    simpl; repeat split; try done; set_solver.
Qed.

Lemma trackToolEvent_fold_tally evs st a b :
  SessionInfo.ToolCallCount (bInfo st) = GoInt.wrap64 a ->
  SessionInfo.BashCommands (bInfo st) = GoInt.wrap64 b ->
  let st' := fold_left trackToolEvent evs st in
  SessionInfo.ToolCallCount (bInfo st') = GoInt.wrap64 (a + countEvents isToolUse evs)
  ∧ SessionInfo.BashCommands (bInfo st')
    = GoInt.wrap64 (b + countEvents (isToolNamed "Bash") evs)
  ∧ filesRead st' = filesRead st ∪ toolPaths "Read" evs
  ∧ filesCreated st' = filesCreated st ∪ toolPaths "Write" evs
  ∧ filesWritten st' = filesWritten st ∪ toolPaths "Edit" evs
  ∧ SessionInfo.UserPrompts (bInfo st') = SessionInfo.UserPrompts (bInfo st)
  ∧ SessionInfo.Errors (bInfo st') = SessionInfo.Errors (bInfo st).
Proof.
  revert st a b. induction evs as [|ev evs IH]; intros st a b Ha Hb; simpl.
  - rewrite !Z.add_0_r. unfold toolPaths. simpl. repeat split; try done; set_solver.
  - destruct (trackToolEvent_tally st ev) as (T1 & T2 & T3 & T4 & T5 & T6 & T7).
    rewrite Ha, incr_wrapped in T1. rewrite Hb, incr_wrapped in T2.
    destruct (IH (trackToolEvent st ev) _ _ T1 T2) as (-> & -> & -> & -> & -> & -> & ->).
    rewrite !countEvents_cons, !(toolPaths_cons _ ev evs), T3, T4, T5, T6, T7.
    rewrite !toolPaths_cons, !Z.add_assoc. unfold toolPaths at 2 4 6. simpl.
    repeat split; try done; set_solver.
Qed.

Lemma updateBounds_activity ts info :
  SessionInfo.UserPrompts (updateBounds ts info) = SessionInfo.UserPrompts info
  ∧ SessionInfo.Errors (updateBounds ts info) = SessionInfo.Errors info
  ∧ SessionInfo.ToolCallCount (updateBounds ts info) = SessionInfo.ToolCallCount info
  ∧ SessionInfo.BashCommands (updateBounds ts info) = SessionInfo.BashCommands info.
Proof. unfold updateBounds. repeat case_match; simpl; auto. Qed.

Lemma tallied_bounds ts st : tallied st -> tallied (withInfo (updateBounds ts (bInfo st)) st).
Proof.
  intros (H1 & H2 & H3 & H4 & H5 & H6 & H7).
  destruct (updateBounds_activity ts (bInfo st)) as (U1 & U2 & U3 & U4).
  unfold tallied. simpl. rewrite U1, U2, U3, U4. auto 10.
Qed.

Lemma parseUserMessage_no_tool_use e ts :
  Forall (fun ev => isToolUse ev = false) (parseUserMessage e ts).
Proof.
  eapply Forall_impl; [apply parseUserMessage_events|].
  intros ev (_ & Hk & _). unfold isToolUse.
  apply bool_decide_eq_false_2. destruct Hk as [-> | ->]; done.
Qed.

Lemma parseAssistantMessage_no_user_event e ts :
  Forall (fun ev => isPrompt ev = false ∧ isErrorResult ev = false)
    (parseAssistantMessage e ts).
Proof.
  eapply Forall_impl; [apply parseAssistantMessage_events|].
  intros ev (_ & Hk & _). unfold isPrompt, isErrorResult.
  destruct Hk as [-> | [-> | ->]]; done.
Qed.

Lemma buildEntry_tallied g st e : tallied st -> tallied (buildEntry g st e).
Proof.
  intros Ht. apply (tallied_bounds (parseTimestamp (rawEntry.Timestamp e))) in Ht.
  unfold buildEntry.
  set (ts := parseTimestamp (rawEntry.Timestamp e)) in *.
  set (st0 := withInfo (updateBounds ts (bInfo st)) st) in *.
  clearbody st0. clear st.
  destruct Ht as (H1 & H2 & H3 & H4 & H5 & H6 & H7).
  destruct (String.eqb (rawEntry.Type_ e) "system").
  { destruct (String.eqb (rawEntry.Subtype e) "compact_boundary"); [|by repeat split].
    unfold tallied. simpl. rewrite !countEvents_app, !toolPaths_app, H1, H2, H3, H4, H5, H6, H7.
    unfold countEvents, toolPaths. simpl. rewrite !Z.add_0_r.
    repeat split; try done; set_solver. }
  destruct (String.eqb (rawEntry.Type_ e) "user").
  { destruct (rawEntry.Message e); [|by repeat split].
    destruct (rawEntry.IsCompactSummary e); [by repeat split|].
    destruct (countUserEvent_fold_tally (parseUserMessage e ts) (bInfo st0) _ _ H1 H2)
      as (C1 & C2 & C3 & C4).
    pose proof (parseUserMessage_no_tool_use e ts) as Hno.
    destruct (no_tool_use_tally "Bash" _ Hno) as (N1 & N2 & _).
    destruct (no_tool_use_tally "Read" _ Hno) as (_ & _ & NR).
    destruct (no_tool_use_tally "Write" _ Hno) as (_ & _ & NW).
    destruct (no_tool_use_tally "Edit" _ Hno) as (_ & _ & NE).
    unfold tallied. simpl. simpl in C1, C2, C3, C4.
    rewrite C1, C2, C3, C4, !countEvents_app, !toolPaths_app, N1, N2, NR, NW, NE.
    rewrite H3, H4, H5, H6, H7, !Z.add_0_r.
    repeat split; try done; set_solver. }
  destruct (String.eqb (rawEntry.Type_ e) "assistant"); [|by repeat split].
  destruct (rawEntry.Message e) as [msg|]; [|by repeat split].
  destruct (String.eqb (rawMessage.ID msg) ""); [by repeat split|].
  destruct (bool_decide (rawMessage.ID msg ∈ seenMessageIDs st0)); [by repeat split|].
  destruct (g !! rawMessage.ID msg) as [final|]; [|by repeat split].
  destruct (negb (String.eqb (rawEntry.UUID e) (rawEntry.UUID (entry final))));
    [by repeat split|].
  set (evs := parseAssistantMessage (entry final) ts).
  set (st1 := appendEvents evs (markSeen (rawMessage.ID msg) st0)).
  destruct (trackToolEvent_fold_tally evs st1 _ _ H3 H4) as (T1 & T2 & T3 & T4 & T5 & T6 & T7).
  destruct (trackToolEvent_fold_untouched evs st1) as (Hev & _).
  destruct (no_user_event_tally evs (parseAssistantMessage_no_user_event (entry final) ts))
    as (N1 & N2).
  assert (Hfin : tallied (fold_left trackToolEvent evs st1)).
  { unfold tallied. rewrite Hev, T1, T2, T3, T4, T5, T6, T7. subst st1. simpl.
    rewrite !countEvents_app, !toolPaths_app, N1, N2, H1, H2, H5, H6, H7, !Z.add_0_r.
    done. }
  destruct (rawEntry.Message (entry final)) as [fmsg|]; [|done].
  destruct (rawMessage.Usage fmsg) as [u|]; [|done].
  destruct Hfin as (F1 & F2 & F3 & F4 & F5 & F6 & F7).
  unfold tallied. simpl. auto 10.
Qed.

Lemma buildTimeline_tallied r :
  SessionInfo.UserPrompts (rInfo r) = 0 -> SessionInfo.Errors (rInfo r) = 0 ->
  SessionInfo.ToolCallCount (rInfo r) = 0 -> SessionInfo.BashCommands (rInfo r) = 0 ->
  tallied (buildTimeline r).
Proof.
  intros H1 H2 H3 H4. unfold buildTimeline.
  assert (Hinit : tallied (mkBuild (rInfo r) [] ∅ ∅ ∅ ∅)).
  { unfold tallied. simpl. rewrite H1, H2, H3, H4. by repeat split. }
  revert Hinit. generalize (mkBuild (rInfo r) [] ∅ ∅ ∅ ∅).
  induction (allEntries r) as [|e es IH]; intros st Hst; simpl; [done|].
  apply IH. by apply buildEntry_tallied.
Qed.

Lemma recordEntry_fold_activity es st :
  let info := rInfo (fold_left recordEntry es st) in
  SessionInfo.UserPrompts info = SessionInfo.UserPrompts (rInfo st)
  ∧ SessionInfo.Errors info = SessionInfo.Errors (rInfo st)
  ∧ SessionInfo.ToolCallCount info = SessionInfo.ToolCallCount (rInfo st)
  ∧ SessionInfo.BashCommands info = SessionInfo.BashCommands (rInfo st).
Proof.
  revert st. induction es as [|e es IH]; intros st; simpl; [auto|].
  destruct (IH (recordEntry st e)) as (-> & -> & -> & ->).
  unfold recordEntry. repeat case_match; simpl; auto.
Qed.

Lemma parseLines_tallied path lines : tallied (parseLines path lines).
Proof.
  unfold parseLines. apply buildTimeline_tallied; unfold readLines;
    rewrite readLine_fold;
    destruct (recordEntry_fold_activity (decodeLines lines)
                (mkRead (Session.Info (newSession path)) ∅ [])) as (E1 & E2 & E3 & E4);
    [rewrite E1|rewrite E2|rewrite E3|rewrite E4]; done.
Qed.

(** X3: the activity counters of a parsed session count the events of its
    timeline, in Go's 64-bit integers: [UserPrompts] the prompts, [Errors]
    the tool results with the error flag, [ToolCallCount] the tool uses,
    [BashCommands] the uses of the tool [Bash], and [EventCount] all of
    them; the counters are the exact counts for a timeline of fewer than
    2^63 events. *)
Theorem activity_counters_agree_with_timeline open path sess :
  ParseSessionFile open path (Some sess) ->
  let info := Session.Info sess in
  let evs := Session.Events sess in
  SessionInfo.UserPrompts info = GoInt.wrap64 (countEvents isPrompt evs)
  ∧ SessionInfo.Errors info = GoInt.wrap64 (countEvents isErrorResult evs)
  ∧ SessionInfo.ToolCallCount info = GoInt.wrap64 (countEvents isToolUse evs)
  ∧ SessionInfo.BashCommands info = GoInt.wrap64 (countEvents (isToolNamed "Bash") evs)
  ∧ SessionInfo.EventCount info = Z.of_nat (length evs)
  ∧ (Z.of_nat (length evs) < 2 ^ 63 ->
     SessionInfo.UserPrompts info = countEvents isPrompt evs
     ∧ SessionInfo.Errors info = countEvents isErrorResult evs
     ∧ SessionInfo.ToolCallCount info = countEvents isToolUse evs
     ∧ SessionInfo.BashCommands info = countEvents (isToolNamed "Bash") evs).
Proof.
  intros H info evs. subst info evs.
  apply ParseSessionFile_inv in H as (content & fr & fw & fc & _ & -> & _).
  destruct (parseLines_tallied path (Scanner.tokens content)) as (H1 & H2 & H3 & H4 & _).
  change (Session.Events (finish _ fr fw fc)) with (bEvents (parseContent path content)).
  unfold parseContent in *. simpl.
  split; [done|]. split; [done|]. split; [done|]. split; [done|]. split; [done|].
  intros Hlen.
  assert (Hb : ∀ P, GoInt.wrap64 (countEvents P (bEvents (parseLines path (Scanner.tokens content))))
                    = countEvents P (bEvents (parseLines path (Scanner.tokens content)))).
  { intros P. apply wrap64_in_range. unfold GoInt.in_range, countEvents.
    pose proof (List.filter_length_le P (bEvents (parseLines path (Scanner.tokens content)))).
    lia. }
  rewrite H1, H2, H3, H4, !Hb. done.
Qed.

(** X4: the three file slices of a parsed session hold, without
    duplicates, exactly the [file_path] strings of the tool uses of its
    timeline: [FilesRead] those of [Read], [FilesCreated] those of [Write]
    and [FilesWritten] those of [Edit]. *)
Theorem file_slices_agree_with_timeline open path sess :
  ParseSessionFile open path (Some sess) ->
  let info := Session.Info sess in
  let uses name fp :=
    ∃ ev, ev ∈ Session.Events sess
          ∧ Event.Type_ ev = EventToolUse ∧ Event.ToolName ev = name
          ∧ toolFilePath ev = Some fp in
  NoDup (SessionInfo.FilesRead info)
  ∧ NoDup (SessionInfo.FilesCreated info)
  ∧ NoDup (SessionInfo.FilesWritten info)
  ∧ (∀ fp, fp ∈ SessionInfo.FilesRead info ↔ uses "Read" fp)
  ∧ (∀ fp, fp ∈ SessionInfo.FilesCreated info ↔ uses "Write" fp)
  ∧ (∀ fp, fp ∈ SessionInfo.FilesWritten info ↔ uses "Edit" fp).
Proof.
  intros H info uses. subst info.
  apply ParseSessionFile_inv in H as (content & fr & fw & fc & _ & -> & [NR HR] & [NW HW] & [NC HC]).
  destruct (parseLines_tallied path (Scanner.tokens content)) as (_ & _ & _ & _ & H5 & H6 & H7).
  unfold parseContent in *. rewrite H5 in HR. rewrite H7 in HW. rewrite H6 in HC.
  assert (Hmem : ∀ name fp,
             fp ∈ toolPaths name (bEvents (parseLines path (Scanner.tokens content)))
             ↔ uses name fp).
  { intros name fp. unfold toolPaths, uses. rewrite elem_of_list_to_set, list_elem_of_omap.
    change (Session.Events (finish _ fr fw fc))
      with (bEvents (parseLines path (Scanner.tokens content))).
    split.
    - intros (ev & Hin & Hev). exists ev. split; [done|].
      unfold isToolNamed, isToolUse in Hev.
      destruct (bool_decide (Event.Type_ ev = EventToolUse)) eqn:E1; [|done].
      destruct (String.eqb (Event.ToolName ev) name) eqn:E2; [|done].
      apply bool_decide_eq_true in E1. apply String.eqb_eq in E2. done.
    - intros (ev & Hin & Ht & Hn & Hp). exists ev. split; [done|].
      unfold isToolNamed, isToolUse.
      rewrite (bool_decide_eq_true_2 _ Ht), (proj2 (String.eqb_eq _ _) Hn). done. }
  simpl.
  split; [done|]. split; [done|]. split; [done|].
  split; [|split]; intros fp; rewrite <- Hmem; auto.
Qed.

(** ** Start and end of a session *)

Lemma updateBounds_attained ts info :
  let info' := updateBounds ts info in
  (SessionInfo.StartTime info' = SessionInfo.StartTime info
   ∨ SessionInfo.StartTime info' = ts)
  ∧ (SessionInfo.LastUpdate info' = SessionInfo.LastUpdate info
     ∨ SessionInfo.LastUpdate info' = ts)
  ∧ (SessionInfo.StartTime info ≤ SessionInfo.LastUpdate info ->
     SessionInfo.StartTime info' ≤ SessionInfo.LastUpdate info').
Proof.
  unfold updateBounds, Time.IsZero, Time.After, Time.Before.
  destruct (SessionInfo.StartTime info =? 0) eqn:E0;
    destruct (ts =? 0) eqn:E1;
    destruct (ts <? SessionInfo.StartTime info) eqn:E2; simpl;
    match goal with
    | |- context [?a <? ?b] => destruct (a <? b) eqn:E3
    end; simpl; lia.
Qed.

Lemma bounds_attained g es st :
  let st' := fold_left (buildEntry g) es st in
  (SessionInfo.StartTime (bInfo st') = SessionInfo.StartTime (bInfo st)
   ∨ ∃ e, e ∈ es ∧ SessionInfo.StartTime (bInfo st') = stamp e)
  ∧ (SessionInfo.LastUpdate (bInfo st') = SessionInfo.LastUpdate (bInfo st)
     ∨ ∃ e, e ∈ es ∧ SessionInfo.LastUpdate (bInfo st') = stamp e)
  ∧ (SessionInfo.StartTime (bInfo st) ≤ SessionInfo.LastUpdate (bInfo st) ->
     SessionInfo.StartTime (bInfo st') ≤ SessionInfo.LastUpdate (bInfo st')).
Proof.
  revert st. induction es as [|e es IH]; intros st; simpl; [auto|].
  destruct (IH (buildEntry g st e)) as (IS & IL & IO).
  destruct (buildEntry_view g st e) as (_ & _ & _ & _ & HvS & HvL).
  destruct (updateBounds_attained (parseTimestamp (rawEntry.Timestamp e)) (bInfo st))
    as (AS & AL & AO).
  cbv zeta in HvS, HvL, AS, AL, AO.
  rewrite <- HvS in AS, AO. rewrite <- HvL in AL, AO.
  split; [|split].
  - destruct IS as [-> | (e' & He' & ->)].
    + destruct AS as [-> | ->]; [by left|]. right. exists e. split; [by left|done].
    + right. exists e'. split; [by right|done].
  - destruct IL as [-> | (e' & He' & ->)].
    + destruct AL as [-> | ->]; [by left|]. right. exists e. split; [by left|done].
    + right. exists e'. split; [by right|done].
  - intros H. apply IO, AO, H.
Qed.

(** X5: [StartTime] and [LastUpdate] of a parsed session. [LastUpdate] is
    the latest timestamp of the records of the file, or the zero time when
    none is later; [StartTime] is the earliest of the timestamps that are
    not the zero time, or the zero time when there is none; [StartTime] is
    never after [LastUpdate]. *)
Theorem session_time_bounds open path sess :
  ParseSessionFile open path (Some sess) ->
  ∃ content,
    open path = Some content
    ∧ let es := decodeLines (Scanner.tokens content) in
      let first := SessionInfo.StartTime (Session.Info sess) in
      let last := SessionInfo.LastUpdate (Session.Info sess) in
      first ≤ last
      ∧ (∀ e, e ∈ es -> stamp e ≤ last)
      ∧ (last = Time.zero ∨ ∃ e, e ∈ es ∧ last = stamp e)
      ∧ (∀ e, e ∈ es -> stamp e ≠ Time.zero -> first ≤ stamp e)
      ∧ (first = Time.zero ∨ ∃ e, e ∈ es ∧ first = stamp e)
      ∧ (first = Time.zero ↔ ∀ e, e ∈ es -> stamp e = Time.zero).
Proof.
  intros H. apply ParseSessionFile_loops in H as (content & Ho & _ & _ & -> & ->).
  exists content. split; [done|]. intros es first last. subst first last.
  unfold parseLines, buildTimeline. rewrite readLines_all. fold es.
  set (g := assistantMessages _). set (st := mkBuild _ [] ∅ ∅ ∅ ∅).
  assert (Hs0 : SessionInfo.StartTime (bInfo st) = 0 ∧ SessionInfo.LastUpdate (bInfo st) = 0).
  { subst st. simpl. unfold readLines. rewrite readLine_fold.
    destruct (recordEntry_fold_info (decodeLines (Scanner.tokens content))
                (mkRead (Session.Info (newSession path)) ∅ [])) as (_ & _ & -> & ->).
    done. }
  destruct Hs0 as [HS0 HL0].
  destruct (bounds_along_file g es st) as (_ & _ & Hb).
  destruct (bounds_attained g es st) as (AS & AL & AO).
  rewrite HS0 in AS, AO. rewrite HL0 in AL, AO. unfold Time.zero. unfold stamp in *.
  split; [apply AO; lia|]. split; [intros e He; by destruct (Hb e He)|].
  split; [done|]. split; [intros e He Hnz; by destruct (Hb e He) as [_ [? ?]]|].
  split; [done|]. split.
  - intros Hz e He. destruct (Z.eq_dec (parseTimestamp (rawEntry.Timestamp e)) 0); [done|].
    destruct (Hb e He) as [_ [? ?]]; done.
  - intros Hall. destruct AS as [-> | (e & He & ->)]; [done|]. by apply Hall.
Qed.

(** ** Working directory and model *)

Lemma empty_or_self (s : string) : s = if String.eqb s "" then "" else s.
Proof. destruct (String.eqb s "") eqn:E; [by apply String.eqb_eq in E|done]. Qed.

Lemma recordEntry_meta st e :
  SessionInfo.CWD (rInfo (recordEntry st e))
  = (if String.eqb (SessionInfo.CWD (rInfo st)) "" then rawEntry.CWD e
     else SessionInfo.CWD (rInfo st))
  ∧ SessionInfo.Model (rInfo (recordEntry st e))
    = (if String.eqb (SessionInfo.Model (rInfo st)) "" then modelOf e
       else SessionInfo.Model (rInfo st)).
Proof.
  unfold recordEntry, modelOf, assistantID.
  assert (HC : SessionInfo.CWD
                 (if String.eqb (SessionInfo.CWD (rInfo st)) ""
                     && negb (String.eqb (rawEntry.CWD e) "")
                  then SessionInfo.setCWD (rawEntry.CWD e) (rInfo st) else rInfo st)
               = (if String.eqb (SessionInfo.CWD (rInfo st)) "" then rawEntry.CWD e
                  else SessionInfo.CWD (rInfo st))).
  { destruct (String.eqb (SessionInfo.CWD (rInfo st)) "") eqn:E1; simpl; [|done].
    destruct (String.eqb (rawEntry.CWD e) "") eqn:E2; simpl; [|done].
    apply String.eqb_eq in E1, E2. congruence. }
  assert (HM : SessionInfo.Model
                 (if String.eqb (SessionInfo.CWD (rInfo st)) ""
                     && negb (String.eqb (rawEntry.CWD e) "")
                  then SessionInfo.setCWD (rawEntry.CWD e) (rInfo st) else rInfo st)
               = SessionInfo.Model (rInfo st)).
  { by destruct (_ && _). }
  set (info := if _ && _ then _ else _) in *.
  destruct (String.eqb (rawEntry.Type_ e) "assistant"); simpl.
  2:{ rewrite HC, HM. split; [done|]. apply empty_or_self. }
  destruct (rawEntry.Message e) as [msg|]; simpl.
  2:{ rewrite HC, HM. split; [done|]. apply empty_or_self. }
  destruct (String.eqb (rawMessage.ID msg) ""); simpl.
  { rewrite HC, HM. split; [done|]. apply empty_or_self. }
  rewrite HM.
  destruct (String.eqb (SessionInfo.Model (rInfo st)) "") eqn:E1; simpl.
  - destruct (String.eqb (rawMessage.Model msg) "") eqn:E2; simpl.
    + rewrite HC, HM. apply String.eqb_eq in E1, E2. split; [done|congruence].
    + split; [|done]. exact HC.
  - rewrite HC, HM. done.
Qed.

Lemma recordEntry_fold_meta es st :
  SessionInfo.CWD (rInfo (fold_left recordEntry es st))
  = (if String.eqb (SessionInfo.CWD (rInfo st)) "" then firstNonEmpty (map rawEntry.CWD es)
     else SessionInfo.CWD (rInfo st))
  ∧ SessionInfo.Model (rInfo (fold_left recordEntry es st))
    = (if String.eqb (SessionInfo.Model (rInfo st)) "" then firstNonEmpty (map modelOf es)
       else SessionInfo.Model (rInfo st)).
Proof.
  revert st. induction es as [|e es IH]; intros st; simpl.
  - split; apply empty_or_self.
  - destruct (IH (recordEntry st e)) as [-> ->].
    destruct (recordEntry_meta st e) as [-> ->].
    split.
    + destruct (String.eqb (SessionInfo.CWD (rInfo st)) "") eqn:E; [done|]. by rewrite E.
    + destruct (String.eqb (SessionInfo.Model (rInfo st)) "") eqn:E; [done|]. by rewrite E.
Qed.

Lemma buildEntry_meta g st e :
  SessionInfo.CWD (bInfo (buildEntry g st e)) = SessionInfo.CWD (bInfo st)
  ∧ SessionInfo.Model (bInfo (buildEntry g st e)) = SessionInfo.Model (bInfo st).
Proof.
  assert (HB : ∀ ts info, SessionInfo.CWD (updateBounds ts info) = SessionInfo.CWD info
                          ∧ SessionInfo.Model (updateBounds ts info) = SessionInfo.Model info).
  { intros ts info. unfold updateBounds. by repeat case_match. }
  assert (HU : ∀ evs info,
             SessionInfo.CWD (fold_left countUserEvent evs info) = SessionInfo.CWD info
             ∧ SessionInfo.Model (fold_left countUserEvent evs info) = SessionInfo.Model info).
  { induction evs as [|ev evs IH]; intros info; simpl; [done|].
    destruct (IH (countUserEvent info ev)) as [-> ->].
    unfold countUserEvent. by repeat case_match. }
  assert (HT : ∀ evs s,
             SessionInfo.CWD (bInfo (fold_left trackToolEvent evs s)) = SessionInfo.CWD (bInfo s)
             ∧ SessionInfo.Model (bInfo (fold_left trackToolEvent evs s))
               = SessionInfo.Model (bInfo s)).
  { induction evs as [|ev evs IH]; intros s; simpl; [done|].
    destruct (IH (trackToolEvent s ev)) as [-> ->].
    unfold trackToolEvent. by repeat case_match. }
  destruct (HB (parseTimestamp (rawEntry.Timestamp e)) (bInfo st)) as [B1 B2].
  unfold buildEntry.
  repeat (case_match; simpl; rewrite ?(proj1 (HU _ _)), ?(proj2 (HU _ _)),
            ?(proj1 (HT _ _)), ?(proj2 (HT _ _)); simpl; try done).
Qed.

(** X6: the working directory of a parsed session is the [cwd] of the
    first record of the file that has one, and its model is the model of
    the first assistant record that has both a message identifier and a
    model; each is empty when no record offers one. *)
Theorem first_record_with_data_sets_metadata open path sess :
  ParseSessionFile open path (Some sess) ->
  ∃ content,
    open path = Some content
    ∧ let es := decodeLines (Scanner.tokens content) in
      SessionInfo.CWD (Session.Info sess) = firstNonEmpty (map rawEntry.CWD es)
      ∧ SessionInfo.Model (Session.Info sess) = firstNonEmpty (map modelOf es)
      ∧ (∀ pre e post, es = pre ++ e :: post ->
           (∀ x, x ∈ pre -> rawEntry.CWD x = "") -> rawEntry.CWD e ≠ "" ->
           SessionInfo.CWD (Session.Info sess) = rawEntry.CWD e)
      ∧ (∀ pre e post, es = pre ++ e :: post ->
           (∀ x, x ∈ pre -> modelOf x = "") -> modelOf e ≠ "" ->
           SessionInfo.Model (Session.Info sess) = modelOf e).
Proof.
  intros H. apply ParseSessionFile_inv in H as (content & fr & fw & fc & Ho & -> & _).
  exists content. split; [done|]. intros es.
  assert (Hbuild : ∀ g l st,
             SessionInfo.CWD (bInfo (fold_left (buildEntry g) l st)) = SessionInfo.CWD (bInfo st)
             ∧ SessionInfo.Model (bInfo (fold_left (buildEntry g) l st))
               = SessionInfo.Model (bInfo st)).
  { intros g l. induction l as [|e l IH]; intros st; simpl; [done|].
    destruct (IH (buildEntry g st e)) as [-> ->]. apply buildEntry_meta. }
  assert (Hfirst : ∀ (f : rawEntry.t -> string) pre e post,
             (∀ x, x ∈ pre -> f x = "") -> f e ≠ "" ->
             firstNonEmpty (map f (pre ++ e :: post)) = f e).
  { intros f pre e post Hpre He. induction pre as [|x pre IH]; simpl.
    - destruct (String.eqb (f e) "") eqn:E; [by apply String.eqb_eq in E|done].
    - rewrite (Hpre x) by by left. simpl. apply IH. intros y Hy. apply Hpre. by right. }
  assert (HC : SessionInfo.CWD (Session.Info (finish (parseContent path content) fr fw fc))
               = firstNonEmpty (map rawEntry.CWD es)
               ∧ SessionInfo.Model (Session.Info (finish (parseContent path content) fr fw fc))
                 = firstNonEmpty (map modelOf es)).
  { change (SessionInfo.CWD (Session.Info (finish ?st fr fw fc)))
      with (SessionInfo.CWD (bInfo st)).
    change (SessionInfo.Model (Session.Info (finish ?st fr fw fc)))
      with (SessionInfo.Model (bInfo st)).
    unfold parseContent, parseLines, buildTimeline.
    destruct (Hbuild (assistantMessages (readLines path (Scanner.tokens content)))
                (allEntries (readLines path (Scanner.tokens content)))
                (mkBuild (rInfo (readLines path (Scanner.tokens content))) [] ∅ ∅ ∅ ∅))
      as [-> ->].
    simpl. unfold readLines. rewrite readLine_fold.
    destruct (recordEntry_fold_meta (decodeLines (Scanner.tokens content))
                (mkRead (Session.Info (newSession path)) ∅ [])) as [-> ->].
    done. }
  destruct HC as [HC HM]. rewrite HC, HM.
  split; [done|]. split; [done|]. split.
  - intros pre e post ->. apply Hfirst.
  - intros pre e post ->. apply Hfirst.
Qed.

(** ** Content blocks and events *)

Lemma countEvents_flat_map {A} (P : Event.t -> bool) (Q : A -> bool)
    (f : A -> list Event.t) (l : list A) :
  (∀ x, countEvents P (f x) = if Q x then 1 else 0) ->
  countEvents P (flat_map f l) = Z.of_nat (length (List.filter Q l)).
Proof.
  intros Hf. induction l as [|x l IH]; simpl; [done|].
  rewrite countEvents_app, IH, Hf. destruct (Q x); simpl; lia.
Qed.

Lemma length_flat_map_le {A B} (f : A -> list B) (l : list A) :
  (∀ x, (length (f x) ≤ 1)%nat) -> (length (flat_map f l) ≤ length l)%nat.
Proof.
  intros Hf. induction l as [|x l IH]; simpl; [done|].
  rewrite length_app. specialize (Hf x). lia.
Qed.

Lemma assistantBlockEvents_tool_use e ts i o block :
  countEvents isToolUse (assistantBlockEvents e ts i o block)
  = if bool_decide (blockType block = Some "tool_use") then 1 else 0.
Proof.
  unfold assistantBlockEvents, blockType.
  destruct (asMap block) as [bMap|]; [|done].
  set (ty := default "" (asString (jindex bMap "type"))).
  destruct (String.eqb ty "thinking") eqn:E1.
  { apply String.eqb_eq in E1. rewrite E1. by destruct (negb _). }
  destruct (String.eqb ty "text") eqn:E2.
  { apply String.eqb_eq in E2. rewrite E2. by destruct (negb _). }
  destruct (String.eqb ty "tool_use") eqn:E3.
  { apply String.eqb_eq in E3. rewrite E3. done. }
  apply String.eqb_neq in E3. rewrite bool_decide_eq_false_2; [done|congruence].
Qed.

Lemma userBlockEvents_tool_result e ts block :
  countEvents isToolResult (userBlockEvents e ts block)
  = if bool_decide (blockType block = Some "tool_result") then 1 else 0.
Proof.
  unfold userBlockEvents, blockType.
  destruct (asMap block) as [bMap|]; [|done].
  set (ty := default "" (asString (jindex bMap "type"))).
  destruct (String.eqb ty "tool_result") eqn:E1.
  { apply String.eqb_eq in E1. rewrite E1. done. }
  apply String.eqb_neq in E1.
  rewrite bool_decide_eq_false_2 by congruence.
  destruct (String.eqb ty "text"); [|done]. by destruct (negb _).
Qed.

(** X7: tool blocks are never dropped. An assistant message yields
    exactly one tool-use event for each of its [tool_use] blocks and a user
    message exactly one tool-result event for each of its [tool_result]
    blocks, whatever the blocks contain, while a message never yields more
    events than it has blocks (one event for a user message whose content
    is a string). *)
Theorem tool_blocks_are_never_dropped e ts :
  countEvents isToolUse (parseAssistantMessage e ts) = countBlocks "tool_use" (blocksOf e)
  ∧ countEvents isToolResult (parseUserMessage e ts) = countBlocks "tool_result" (blocksOf e)
  ∧ (length (parseAssistantMessage e ts) ≤ length (blocksOf e))%nat
  ∧ (length (parseUserMessage e ts) ≤ Nat.max 1 (length (blocksOf e)))%nat.
Proof.
  unfold parseAssistantMessage, parseUserMessage, blocksOf, countBlocks.
  destruct (rawEntry.Message e) as [msg|]; [|simpl; repeat split; lia].
  destruct (rawMessage.Content msg) as [| | | |blocks|];
    try (simpl; repeat split; lia).
  - destruct (negb _); simpl; repeat split; lia.
  - split; [|split; [|split]].
    + apply countEvents_flat_map. intros b. apply assistantBlockEvents_tool_use.
    + apply countEvents_flat_map. intros b. apply userBlockEvents_tool_result.
    + apply length_flat_map_le. intros b. unfold assistantBlockEvents.
      repeat case_match; simpl; lia.
    + etransitivity; [|apply Nat.le_max_r].
      apply length_flat_map_le. intros b. unfold userBlockEvents.
      repeat case_match; simpl; lia.
Qed.

(** ** The store: what [Scan] finds *)

Lemma ParseSessionFile_ID open path sess :
  ParseSessionFile open path (Some sess) ->
  SessionInfo.ID (Session.Info sess) = Strings.TrimSuffix (Filepath.Base path) ".jsonl".
Proof.
  intros H. apply ParseSessionFile_inv in H as (content & fr & fw & fc & _ & -> & _).
  destruct (finish_view (parseContent path content) fr fw fc) as (_ & _ & Hid & _).
  destruct (parseLines_view path (Scanner.tokens content)) as (_ & _ & _ & Hid').
  unfold parseContent in Hid. rewrite Hid' in Hid. by injection Hid.
Qed.

Lemma ParseSessionFile_opened open path content r :
  open path = Some content ->
  ParseSessionFile open path r ->
  ∃ sess, r = Some sess ∧ Session.Events sess = bEvents (parseContent path content).
Proof.
  intros Ho H. inversion H as [Hn|content' fr fw fc Ho' _ _ _]; subst; [congruence|].
  rewrite Ho in Ho'. injection Ho' as <-. eauto.
Qed.

Lemma scanPut_lookup r m id sess :
  scanPut r m !! id = Some sess ->
  m !! id = Some sess
  ∨ (r = Some sess ∧ Session.Events sess ≠ [] ∧ SessionInfo.ID (Session.Info sess) = id).
Proof.
  unfold scanPut. destruct r as [sess'|]; [|by left].
  destruct (length (Session.Events sess') =? 0)%nat eqn:E; [by left|].
  destruct (decide (SessionInfo.ID (Session.Info sess') = id)) as [<-|Hne].
  - rewrite lookup_insert_eq. intros [= <-]. right.
    apply Nat.eqb_neq in E. by destruct (Session.Events sess').
  - rewrite lookup_insert_ne by done. by left.
Qed.

Lemma scanPut_grows r m id : is_Some (m !! id) -> is_Some (scanPut r m !! id).
Proof.
  unfold scanPut. destruct r as [sess|]; [|done].
  destruct (length (Session.Events sess) =? 0)%nat; [done|].
  intros H. destruct (decide (SessionInfo.ID (Session.Info sess) = id)) as [<-|Hne].
  - by rewrite lookup_insert_eq.
  - by rewrite lookup_insert_ne.
Qed.

Lemma scanFiles_grows fs dir files m m' id :
  scanFiles fs dir files m m' -> is_Some (m !! id) -> is_Some (m' !! id).
Proof.
  induction 1 as [m|f rest m m' _ _ IH|f rest r m m' _ _ _ IH]; intros Hm; [done|auto|].
  by apply IH, scanPut_grows.
Qed.

Lemma scanFiles_origin fs dir files m m' id sess :
  scanFiles fs dir files m m' ->
  m' !! id = Some sess ->
  m !! id = Some sess
  ∨ ∃ f, f ∈ files ∧ isTranscript f = true
         ∧ ParseSessionFile (openFile fs) (Filepath.Join [dir; DirEntry.Name f]) (Some sess)
         ∧ Session.Events sess ≠ []
         ∧ SessionInfo.ID (Session.Info sess) = id.
Proof.
  induction 1 as [m|f rest m m' _ _ IH|f rest r m m' Hf Hp _ IH]; intros Hl.
  - by left.
  - destruct (IH Hl) as [?|(f' & Hin & ?)]; [by left|].
    right. exists f'. split; [by right|done].
  - destruct (IH Hl) as [Hput|(f' & Hin & ?)].
    + apply scanPut_lookup in Hput as [?|(-> & Hne & Hid)]; [by left|].
      right. exists f. split; [by left|]. split; [|done].
      unfold isTranscript. apply orb_false_iff in Hf as [-> Hs].
      by apply negb_false_iff in Hs as ->.
    + right. exists f'. split; [by right|done].
Qed.

Lemma scanFiles_finds fs dir files m m' f content :
  scanFiles fs dir files m m' ->
  f ∈ files -> isTranscript f = true ->
  openFile fs (Filepath.Join [dir; DirEntry.Name f]) = Some content ->
  bEvents (parseContent (Filepath.Join [dir; DirEntry.Name f]) content) ≠ [] ->
  is_Some (m' !! Strings.TrimSuffix (Filepath.Base (Filepath.Join [dir; DirEntry.Name f]))
                   ".jsonl").
Proof.
  intros Hscan Hin Ht Ho Hne. revert Hin.
  induction Hscan as [m|f' rest m m' Hskip Hrest IH|f' rest r m m' Hf Hp Hrest IH];
    intros Hin.
  - by apply elem_of_nil in Hin.
  - apply elem_of_cons in Hin as [->|Hin]; [|by apply IH].
    unfold isTranscript in Ht. apply andb_true_iff in Ht as [H1 H2].
    apply negb_true_iff in H1. rewrite H1, H2 in Hskip. done.
  - apply elem_of_cons in Hin as [->|Hin]; [|by apply IH].
    destruct (ParseSessionFile_opened _ _ _ _ Ho Hp) as (sess & -> & Hev).
    apply (scanFiles_grows _ _ _ _ _ _ Hrest).
    rewrite <- (ParseSessionFile_ID _ _ _ Hp).
    unfold scanPut. rewrite Hev.
    destruct (bEvents _) as [|ev evs]; [done|]. simpl.
    by rewrite lookup_insert_eq.
Qed.

Lemma scanDirs_frame fs base dirs s s' :
  scanDirs fs base dirs s s' ->
  Store.baseDir s' = Store.baseDir s
  ∧ Store.updates s' = Store.updates s
  ∧ Store.watched s'
    = Store.watched s
      ++ map (fun d => Filepath.Join [base; DirEntry.Name d]) (List.filter DirEntry.IsDir dirs)
  ∧ ∀ id, is_Some (Store.sessions s !! id) -> is_Some (Store.sessions s' !! id).
Proof.
  induction 1 as [s|d rest s s' Hd _ IH|d rest s s' Hd _ _ IH
                 |d rest files m s s' Hd _ Hf _ IH]; simpl.
  - by rewrite app_nil_r.
  - by rewrite Hd.
  - rewrite Hd. destruct IH as (-> & -> & -> & IH). simpl.
    by rewrite <- app_assoc.
  - rewrite Hd. destruct IH as (-> & -> & -> & IH). simpl.
    rewrite <- app_assoc. repeat split; try done.
    intros id Hid. apply IH. simpl. by eapply scanFiles_grows.
Qed.

Lemma scanDirs_origin fs base dirs s s' id sess :
  scanDirs fs base dirs s s' ->
  Store.sessions s' !! id = Some sess ->
  Store.sessions s !! id = Some sess
  ∨ ∃ d files f,
      d ∈ dirs ∧ DirEntry.IsDir d = true
      ∧ readDir fs (Filepath.Join [base; DirEntry.Name d]) = Some files
      ∧ f ∈ files ∧ isTranscript f = true
      ∧ ParseSessionFile (openFile fs) (transcriptPath base d f) (Some sess)
      ∧ Session.Events sess ≠ []
      ∧ SessionInfo.ID (Session.Info sess) = id.
Proof.
  induction 1 as [s|d rest s s' Hd _ IH|d rest s s' Hd _ _ IH
                 |d rest files m s s' Hd Hr Hf _ IH]; intros Hl.
  - by left.
  - destruct (IH Hl) as [?|(d' & files' & f' & Hin & ?)]; [by left|].
    right. exists d', files', f'. split; [by right|done].
  - destruct (IH Hl) as [?|(d' & files' & f' & Hin & ?)]; [by left|].
    right. exists d', files', f'. split; [by right|done].
  - destruct (IH Hl) as [Hm|(d' & files' & f' & Hin & ?)].
    + simpl in Hm.
      destruct (scanFiles_origin _ _ _ _ _ _ _ Hf Hm) as [?|(f & ? & ? & ? & ? & ?)];
        [by left|].
      right. exists d, files, f. split; [by left|]. unfold transcriptPath. done.
    + right. exists d', files', f'. split; [by right|done].
Qed.

Lemma scanDirs_finds fs base dirs s s' d files f content :
  scanDirs fs base dirs s s' ->
  d ∈ dirs -> DirEntry.IsDir d = true ->
  readDir fs (Filepath.Join [base; DirEntry.Name d]) = Some files ->
  f ∈ files -> isTranscript f = true ->
  openFile fs (transcriptPath base d f) = Some content ->
  bEvents (parseContent (transcriptPath base d f) content) ≠ [] ->
  is_Some (Store.sessions s'
             !! Strings.TrimSuffix (Filepath.Base (transcriptPath base d f)) ".jsonl").
Proof.
  intros Hscan Hin Hd Hr Hf Ht Ho Hne. revert Hin.
  induction Hscan as [s|d' rest s s' Hd' _ IH|d' rest s s' Hd' Hr' _ IH
                     |d' rest files' m s s' Hd' Hr' Hfs Hrest IH]; intros Hin.
  - by apply elem_of_nil in Hin.
  - apply elem_of_cons in Hin as [->|Hin]; [congruence|by apply IH].
  - apply elem_of_cons in Hin as [->|Hin]; [congruence|by apply IH].
  - apply elem_of_cons in Hin as [->|Hin]; [|by apply IH].
    rewrite Hr in Hr'. injection Hr' as <-.
    apply (proj2 (proj2 (proj2 (scanDirs_frame _ _ _ _ _ Hrest)))). simpl.
    by eapply scanFiles_finds.
Qed.

(** X8: what [Scan] does besides indexing. It returns an error exactly
    when the base directory cannot be read, and then leaves the store as it
    was; otherwise it hands every sub-directory of the base directory to
    the watcher, in directory order and whether or not the sub-directory
    can be read. It never changes the base directory, never signals an
    update and never removes a session from the index. *)
Theorem Scan_registers_project_directories fs s s' err :
  Scan fs s s' err ->
  (err = true ↔ readDir fs (Store.baseDir s) = None)
  ∧ (err = true -> s' = s)
  ∧ Store.baseDir s' = Store.baseDir s
  ∧ Store.updates s' = Store.updates s
  ∧ (∀ entries, readDir fs (Store.baseDir s) = Some entries ->
       Store.watched s'
       = Store.watched s
         ++ map (fun d => Filepath.Join [Store.baseDir s; DirEntry.Name d])
              (List.filter DirEntry.IsDir entries))
  ∧ (∀ id, is_Some (GetSession s id) -> is_Some (GetSession s' id)).
Proof.
  destruct 1 as [Hn|entries s' Hr Hd].
  - repeat split; try done. intros entries He. congruence.
  - destruct (scanDirs_frame _ _ _ _ _ Hd) as (Hb & Hu & Hw & Hg).
    split; [split; [done|congruence]|]. split; [done|].
    split; [done|]. split; [done|]. split; [|done].
    intros entries' He. rewrite Hr in He. by injection He as <-.
Qed.

(** X9: [Scan] indexes transcripts only. A session found in the store
    after [Scan] was there before, or is the result of parsing a file that
    is not a directory, has a name ending in [.jsonl] and lies directly in
    a sub-directory of the base directory; it has events and is stored
    under its own identifier. *)
Theorem Scan_indexes_only_transcripts fs s s' err id sess :
  Scan fs s s' err ->
  GetSession s' id = Some sess ->
  GetSession s id = Some sess
  ∨ ∃ entries d files f,
      readDir fs (Store.baseDir s) = Some entries
      ∧ d ∈ entries ∧ DirEntry.IsDir d = true
      ∧ readDir fs (Filepath.Join [Store.baseDir s; DirEntry.Name d]) = Some files
      ∧ f ∈ files ∧ DirEntry.IsDir f = false
      ∧ Strings.HasSuffix (DirEntry.Name f) ".jsonl" = true
      ∧ ParseSessionFile (openFile fs) (transcriptPath (Store.baseDir s) d f) (Some sess)
      ∧ Session.Events sess ≠ []
      ∧ SessionInfo.ID (Session.Info sess) = id.
Proof.
  destruct 1 as [Hn|entries s' Hr Hd]; intros Hl; [by left|].
  destruct (scanDirs_origin _ _ _ _ _ _ _ Hd Hl)
    as [?|(d & files & f & ? & ? & ? & ? & Ht & ? & ? & ?)]; [by left|].
  right. exists entries, d, files, f.
  unfold isTranscript in Ht. apply andb_true_iff in Ht as [Hnd Hsuf].
  apply negb_true_iff in Hnd. by repeat split.
Qed.

(** X10: [Scan] misses no transcript. When [Scan] returns without error,
    every [.jsonl] file directly in a readable sub-directory of the base
    directory that can be opened and whose timeline is not empty has a
    session in the store under the identifier its file name gives. *)
Theorem Scan_finds_every_transcript fs s s' entries d files f content :
  Scan fs s s' false ->
  readDir fs (Store.baseDir s) = Some entries ->
  d ∈ entries -> DirEntry.IsDir d = true ->
  readDir fs (Filepath.Join [Store.baseDir s; DirEntry.Name d]) = Some files ->
  f ∈ files -> DirEntry.IsDir f = false ->
  Strings.HasSuffix (DirEntry.Name f) ".jsonl" = true ->
  openFile fs (transcriptPath (Store.baseDir s) d f) = Some content ->
  bEvents (parseContent (transcriptPath (Store.baseDir s) d f) content) ≠ [] ->
  is_Some
    (GetSession s'
       (Strings.TrimSuffix (Filepath.Base (transcriptPath (Store.baseDir s) d f)) ".jsonl")).
Proof.
  intros HS Hr Hd Hdir Hfiles Hf Hnd Hsuf Ho Hne.
  inversion HS as [|entries' s'' Hr' Hscan]; subst.
  rewrite Hr in Hr'. injection Hr' as <-.
  assert (Ht : isTranscript f = true) by (unfold isTranscript; by rewrite Hnd, Hsuf).
  by eapply scanDirs_finds.
Qed.

(** ** The store: the watcher *)

(** X11: what the function run by the watcher's timer does to the store.
    When the file parses to a session with events, the session replaces
    whatever the store held under the identifier the file name gives and
    an update is signalled; when the file cannot be opened or has no
    events the store stays as it was and nothing is signalled. Sessions
    under other identifiers, the base directory and the watched
    directories are never touched. *)
Theorem timer_reparse_updates_one_session open path r s :
  ParseSessionFile open path r ->
  let s' := watchPut r s in
  let id := Strings.TrimSuffix (Filepath.Base path) ".jsonl" in
  (∀ sess, r = Some sess -> Session.Events sess ≠ [] ->
     GetSession s' id = Some sess ∧ Store.updates s' = true)
  ∧ (r = None ∨ (∃ sess, r = Some sess ∧ Session.Events sess = []) -> s' = s)
  ∧ (∀ id', id' ≠ id -> GetSession s' id' = GetSession s id')
  ∧ Store.baseDir s' = Store.baseDir s
  ∧ Store.watched s' = Store.watched s.
Proof.
  intros Hp s' id. subst s'. unfold watchPut, GetSession.
  destruct r as [sess|]; [|split; [done|split; [done|split; done]]].
  pose proof (ParseSessionFile_ID _ _ _ Hp) as Hid. fold id in Hid.
  destruct (Session.Events sess) as [|ev evs] eqn:E; simpl.
  - split; [|split; [done|split; done]].
    intros sess' [= <-] Hne. by rewrite E in Hne.
  - rewrite Hid. split; [|split; [|split; [|done]]].
    + intros sess' [= <-] _. split; [apply lookup_insert_eq|done].
    + intros [?|(sess' & [= <-] & He)]; [done|]. by rewrite E in He.
    + intros id' Hne. by apply lookup_insert_ne.
Qed.

Lemma watch_bits op :
  (Z.land op (Z.lor fsnotify_Write fsnotify_Create) =? 0)
  = negb (Z.testbit op 0 || Z.testbit op 1).
Proof.
  change (Z.lor fsnotify_Write fsnotify_Create) with (Z.ones 2).
  destruct (Z.testbit op 0 || Z.testbit op 1) eqn:E; simpl.
  - apply Z.eqb_neq. intros H0.
    assert (H1 : ∀ n, Z.testbit op n && Z.testbit (Z.ones 2) n = false).
    { intros n. rewrite <- Z.land_spec, H0. apply Z.bits_0. }
    pose proof (H1 0) as A. pose proof (H1 1) as B.
    change (Z.testbit (Z.ones 2) 0) with true in A.
    change (Z.testbit (Z.ones 2) 1) with true in B.
    rewrite andb_true_r in A, B. rewrite A, B in E. done.
  - apply Z.eqb_eq. apply orb_false_iff in E as [E0 E1].
    apply Z.bits_inj'. intros n Hn. rewrite Z.land_spec, Z.bits_0.
    destruct (Z.eq_dec n 0) as [->|N0]; [by rewrite E0|].
    destruct (Z.eq_dec n 1) as [->|N1]; [by rewrite E1|].
    rewrite (Z.ones_spec_high 2 n) by lia. apply andb_false_r.
Qed.

Lemma watchEvent_actedOn ev d :
  watchEvent (fst ev) (snd ev) d = if actedOn ev then Some (fst ev) else d.
Proof.
  unfold watchEvent, actedOn. rewrite watch_bits.
  destruct (Strings.HasSuffix (fst ev) ".jsonl"); cbn [negb andb]; [|done].
  by destruct (Z.testbit (snd ev) 0 || Z.testbit (snd ev) 1).
Qed.

(** X12: a series of notifications that arrive before the timer fires
    leads to one re-parse, that of the file of the last notification the
    loop acts on (a name ending in [.jsonl], with the write or the create
    bit); files named by earlier notifications of the series are not
    re-parsed. A series without such a notification leaves the timer as
    it was. *)
Theorem burst_reparses_last_file_only burst debounce :
  (Forall (fun ev => actedOn ev = false) burst -> watchEvents burst debounce = debounce)
  ∧ (∀ pre ev post,
       burst = pre ++ ev :: post ->
       actedOn ev = true ->
       Forall (fun e => actedOn e = false) post ->
       watchEvents burst debounce = Some (fst ev)).
Proof.
  assert (Hquiet : ∀ l d, Forall (fun ev => actedOn ev = false) l -> watchEvents l d = d).
  { induction l as [|ev l IH]; intros d Hl; [done|].
    apply Forall_cons in Hl as [Hev Hl]. unfold watchEvents. simpl.
    rewrite watchEvent_actedOn, Hev. by apply IH. }
  split; [apply Hquiet|].
  intros pre ev post -> Hev Hpost. unfold watchEvents.
  rewrite fold_left_app. simpl. rewrite watchEvent_actedOn, Hev.
  by apply Hquiet.
Qed.

(** ** The store: listing and looking up *)

Lemma StronglySorted_lookup {A} (R : relation A) (l : list A) (i j : nat) a b :
  StronglySorted R l -> (i < j)%nat -> l !! i = Some a -> l !! j = Some b -> R a b.
Proof.
  intros Hs. revert i j. induction Hs as [|x l _ IH Hx]; intros i j Hij Hi Hj; [done|].
  destruct j as [|j]; [lia|]. simpl in Hj.
  destruct i as [|i]; simpl in Hi.
  - injection Hi as <-. rewrite Forall_forall in Hx. apply Hx.
    by eapply list_elem_of_lookup_2.
  - apply (IH i j); [lia|done..].
Qed.

Lemma StronglySorted_filter {A} (R : relation A) (P : A -> bool) (l : list A) :
  StronglySorted R l -> StronglySorted R (List.filter P l).
Proof.
  induction 1 as [|x l _ IH Hx]; simpl; [constructor|].
  destruct (P x); [|done]. constructor; [done|].
  rewrite Forall_forall in *. intros y Hy.
  apply list_elem_of_In, filter_In in Hy as [Hy _]. by apply Hx, list_elem_of_In.
Qed.

Lemma GetSessions_elem s infos info :
  GetSessions s infos ->
  info ∈ infos ↔ ∃ id sess, Store.sessions s !! id = Some sess ∧ Session.Info sess = info.
Proof.
  intros [Hperm _]. rewrite Hperm. split.
  - intros Hin. apply list_elem_of_fmap in Hin as (sess & -> & Hin).
    apply list_elem_of_fmap in Hin as ([id sess'] & -> & Hin).
    apply elem_of_map_to_list in Hin. eauto.
  - intros (id & sess & Hl & <-). apply list_elem_of_fmap. exists sess. split; [done|].
    apply list_elem_of_fmap. exists (id, sess). split; [done|].
    by apply elem_of_map_to_list.
Qed.

Lemma indexed_ids (m : gmap string Session.t) :
  indexed m ->
  SessionInfo.ID <$> (Session.Info <$> (map_to_list m).*2) = (map_to_list m).*1.
Proof.
  intros Hidx. rewrite <- !list_fmap_compose.
  apply Forall_fmap_ext_1, Forall_forall. intros [id sess] Hin. simpl.
  apply elem_of_map_to_list in Hin. by destruct (Hidx id sess Hin) as (_ & _ & ? & _).
Qed.

#[local] Instance newestFirst_dec a b :
  Decision (Time.After (SessionInfo.LastUpdate b) (SessionInfo.LastUpdate a) = false).
Proof. apply _. Defined.

Lemma GetSessions_total s : ∃ infos, GetSessions s infos.
Proof.
  set (R := fun a b : SessionInfo.t =>
              Time.After (SessionInfo.LastUpdate b) (SessionInfo.LastUpdate a) = false).
  assert (HT : Transitive R).
  { intros a b c. unfold R, Time.After. rewrite !Z.ltb_ge. lia. }
  assert (HTot : Total R).
  { intros a b. unfold R, Time.After. rewrite !Z.ltb_ge. lia. }
  exists (merge_sort R (Session.Info <$> (map_to_list (Store.sessions s)).*2)).
  split; [apply merge_sort_Permutation|]. by apply StronglySorted_merge_sort.
Qed.

(** X13: [GetSessions] on a store reached from [NewStore] by scans,
    notifications and timer runs. It always has a result; the result lists
    every stored session exactly once (the identifiers listed are distinct
    and are exactly those [GetSession] answers), and an entry is never
    older than the entries after it. *)
Theorem GetSessions_lists_every_session_once home w :
  reachable home w ->
  (∃ infos, GetSessions (fst w) infos)
  ∧ ∀ infos, GetSessions (fst w) infos ->
      NoDup (SessionInfo.ID <$> infos)
      ∧ length infos = size (Store.sessions (fst w))
      ∧ (∀ id, id ∈ (SessionInfo.ID <$> infos) ↔ is_Some (GetSession (fst w) id))
      ∧ (∀ i j a b, (i < j)%nat -> infos !! i = Some a -> infos !! j = Some b ->
           newestFirst a b).
Proof.
  intros Hr. pose proof (reachable_indexed home w Hr) as Hidx.
  split; [apply GetSessions_total|].
  intros infos HG. pose proof HG as [Hperm Hsort].
  assert (Hids : SessionInfo.ID <$> infos ≡ₚ (map_to_list (Store.sessions (fst w))).*1).
  { rewrite Hperm. by rewrite indexed_ids. }
  split; [|split; [|split]].
  - rewrite Hids. apply NoDup_fst_map_to_list.
  - rewrite Hperm, !length_fmap. apply length_map_to_list.
  - intros id. rewrite Hids. unfold GetSession. split.
    + intros Hin. apply list_elem_of_fmap in Hin as ([id' sess] & -> & Hin).
      apply elem_of_map_to_list in Hin. by exists sess.
    + intros [sess Hl]. apply list_elem_of_fmap. exists (id, sess).
      split; [done|]. by apply elem_of_map_to_list.
  - intros i j a b Hij Hi Hj. unfold newestFirst.
    pose proof (StronglySorted_lookup _ _ _ _ _ _ Hsort Hij Hi Hj) as HR.
    unfold Time.After in HR. by apply Z.ltb_ge in HR.
Qed.

(** X14: [refreshSessions] of the interface on a store reached from
    [NewStore]. Afterwards the list shows exactly the stored sessions of
    the filtered project (all of them without a filter), newest first; the
    cursor, if it was not negative, points into the list or is zero when
    the list is empty, and stays where it was when it already pointed into
    the list; an open session stays open and keeps its identifier. *)
Theorem refreshSessions_keeps_view_consistent home w m m' :
  reachable home w ->
  refreshSessions (fst w) m m' ->
  0 ≤ cursor m ->
  (∀ info, info ∈ sessions m' ↔
     (∃ sess, GetSession (fst w) (SessionInfo.ID info) = Some sess
              ∧ Session.Info sess = info)
     ∧ (projectFilter m = ""
        ∨ SessionInfo.ProjectName info = projectFilter m
        ∨ SessionInfo.ProjectDir info = projectFilter m))
  ∧ (∀ i j a b, (i < j)%nat -> sessions m' !! i = Some a -> sessions m' !! j = Some b ->
       newestFirst a b)
  ∧ 0 ≤ cursor m'
  ∧ (sessions m' ≠ [] -> cursor m' < Z.of_nat (length (sessions m')))
  ∧ (sessions m' = [] -> cursor m' = 0)
  ∧ (cursor m < Z.of_nat (length (sessions m')) -> cursor m' = cursor m)
  ∧ (∀ sel, selectedSession m = Some sel ->
       ∃ sel', selectedSession m' = Some sel'
               ∧ SessionInfo.ID (Session.Info sel') = SessionInfo.ID (Session.Info sel))
  ∧ (selectedSession m = None -> selectedSession m' = None)
  ∧ projectFilter m' = projectFilter m.
Proof.
  intros Hr Href Hc. pose proof (reachable_indexed home w Hr) as Hidx.
  destruct Href as [infos HG sessions' cursor' selected']. simpl.
  assert (Hmem : ∀ info, info ∈ infos ↔
            ∃ sess, GetSession (fst w) (SessionInfo.ID info) = Some sess
                    ∧ Session.Info sess = info).
  { intros info. rewrite (GetSessions_elem _ _ _ HG). unfold GetSession. split.
    - intros (id & sess & Hl & <-). exists sess.
      destruct (Hidx id sess Hl) as (_ & _ & -> & _). done.
    - intros (sess & Hl & <-). eauto. }
  split; [|split; [|split; [|split; [|split; [|split; [|split; [|split]]]]]]].
  - intros info. subst sessions'. unfold filterProject.
    destruct (String.eqb (projectFilter m) "") eqn:E; simpl.
    + apply String.eqb_eq in E. rewrite Hmem. tauto.
    + apply String.eqb_neq in E. rewrite list_elem_of_In, filter_In, <- list_elem_of_In.
      rewrite Hmem, orb_true_iff, !String.eqb_eq. tauto.
  - intros i j a b Hij Hi Hj. destruct HG as [_ Hsort].
    assert (Hs : StronglySorted
                   (fun a b => Time.After (SessionInfo.LastUpdate b) (SessionInfo.LastUpdate a)
                               = false) sessions').
    { subst sessions'. unfold filterProject. destruct (negb _); [|done].
      by apply StronglySorted_filter. }
    pose proof (StronglySorted_lookup _ _ _ _ _ _ Hs Hij Hi Hj) as HR.
    unfold newestFirst. unfold Time.After in HR. by apply Z.ltb_ge in HR.
  - subst cursor'. destruct (_ <=? _); lia.
  - intros Hne. subst cursor'. destruct (Z.leb_spec (Z.of_nat (length sessions')) (cursor m));
      [|done].
    destruct (decide (length sessions' = 0%nat)) as [Hz|Hz]; [|lia].
    by apply nil_length_inv in Hz.
  - intros He. subst cursor'. rewrite He.
    change (Z.of_nat (length (@nil SessionInfo.t))) with 0.
    destruct (Z.leb_spec 0 (cursor m)); lia.
  - intros Hlt. subst cursor'. destruct (Z.leb_spec (Z.of_nat (length sessions')) (cursor m));
      [lia|done].
  - intros sel Hsel. subst selected'. rewrite Hsel.
    destruct (GetSession (fst w) (SessionInfo.ID (Session.Info sel))) as [updated|] eqn:E.
    + exists updated. split; [done|]. by destruct (Hidx _ _ E) as (_ & _ & ? & _).
    + by exists sel.
  - intros Hsel. subst selected'. by rewrite Hsel.
  - done.
Qed.

(** ** The store over time *)



End Session.

(** * The sample transcripts, run *)

Local Abbreviation sampleParse :=
  (ParseSessionFile Sample.json_Unmarshal Sample.json_Marshal Sample.time_Parse
     Sample.strings_TrimSpace).
Local Abbreviation sampleLines :=
  (parseLines Sample.json_Unmarshal Sample.json_Marshal Sample.time_Parse
     Sample.strings_TrimSpace).
Local Abbreviation sampleRead := (readLines Sample.json_Unmarshal Sample.time_Parse).
Local Abbreviation sampleContent :=
  (parseContent Sample.json_Unmarshal Sample.json_Marshal Sample.time_Parse
     Sample.strings_TrimSpace).
Local Abbreviation sampleDecode := (decodeLines Sample.json_Unmarshal).
Local Abbreviation sampleStamp := (stamp Sample.time_Parse).

(** The path and scanner functions on a few inputs. *)
Example Clean_samples :
  map Filepath.Clean ["a//b/./c/.."; "/../a"; "../../x/.."; ""; "/"; "a/"; "a/../.."]
  = ["a/b"; "/a"; "../.."; "."; "/"; "a"; ".."].
Proof. reflexivity. Qed.

Example Base_samples :
  map Filepath.Base ["/home/u/p/s.jsonl"; "s.jsonl"; "a/b/"; "///"; ""; "."]
  = ["s.jsonl"; "s.jsonl"; "b"; "/"; "."; "."].
Proof. reflexivity. Qed.

Example Dir_samples :
  map Filepath.Dir ["/home/u/p/s.jsonl"; "s.jsonl"; "a/b/"; "/x"; "a//b"]
  = ["/home/u/p"; "."; "a/b"; "/"; "a"].
Proof. reflexivity. Qed.

Example Join_samples :
  map Filepath.Join [["/home/u"; ".claude"; "projects"]; [""; "a"; "b/"]; ["a"; ""; "../b"]; [""; ""]]
  = ["/home/u/.claude/projects"; "a/b"; "b"; ""].
Proof. reflexivity. Qed.

Example Scanner_sample :
  Scanner.tokens ("ab" +:+ String Scanner.CR (String Scanner.LF ("" +:+ String Scanner.LF "cd")))
  = ["ab"; ""; "cd"].
Proof. reflexivity. Qed.

(** The example of the specification: a prompt, a [Bash] call and its
    result give three events, in that order, and the expected counters. *)
Example three_events :
  let st := sampleLines Sample.path [Sample.promptLine; Sample.bashLine; Sample.resultLine] in
  map Event.Type_ (bEvents st) = [EventUserPrompt; EventToolUse; EventToolResult]
  ∧ SessionInfo.ToolCallCount (bInfo st) = 1
  ∧ SessionInfo.BashCommands (bInfo st) = 1
  ∧ SessionInfo.UserPrompts (bInfo st) = 1
  ∧ tokenCounters (bInfo st) = (10, 5, 0, 0).
Proof. vm_compute. repeat split. Qed.

(** C1 as stated fails: two runs on a file that reads [/a] and [/b] may
    list the two paths in either order, and the two results differ. *)
Lemma file_slices_order_not_determined :
  ∃ s1 s2,
    sampleParse (Sample.disk (Sample.file [Sample.readsLine])) Sample.path (Some s1)
    ∧ sampleParse (Sample.disk (Sample.file [Sample.readsLine])) Sample.path (Some s2)
    ∧ s1 ≠ s2.
Proof.
  set (content := Sample.file [Sample.readsLine]).
  exists (finish (sampleContent Sample.path content) ["/a"; "/b"] [] []),
         (finish (sampleContent Sample.path content) ["/b"; "/a"] [] []).
  split; [|split].
  - apply (ParseSessionFile_ok _ _ _ _ _ _ content); [reflexivity|..];
      (apply range_keys_of_set;
       [apply (bool_decide_unpack _); vm_compute; exact I
       |apply (bool_decide_unpack _); vm_compute; exact I]).
  - apply (ParseSessionFile_ok _ _ _ _ _ _ content); [reflexivity|..];
      (apply range_keys_of_set;
       [apply (bool_decide_unpack _); vm_compute; exact I
       |apply (bool_decide_unpack _); vm_compute; exact I]).
  - intros H. apply (f_equal (fun s => SessionInfo.FilesRead (Session.Info s))) in H.
    cbv beta in H.
    rewrite !(proj1 (finish_files _ _ _ _)) in H. discriminate H.
Qed.

(** C1 on that file: both runs have the same events, and their
    [FilesRead] are permutations of each other. *)
Lemma parse_deterministic_witness :
  ∃ s1 s2,
    sampleParse (Sample.disk (Sample.file [Sample.readsLine])) Sample.path (Some s1)
    ∧ sampleParse (Sample.disk (Sample.file [Sample.readsLine])) Sample.path (Some s2)
    ∧ Session.Events s1 = Session.Events s2
    ∧ SessionInfo.FilesRead (Session.Info s1) ≡ₚ SessionInfo.FilesRead (Session.Info s2).
Proof.
  set (content := Sample.file [Sample.readsLine]).
  assert (H1 : sampleParse (Sample.disk content) Sample.path
                 (Some (finish (sampleContent Sample.path content) ["/a"; "/b"] [] []))).
  { apply (ParseSessionFile_ok _ _ _ _ _ _ content); [reflexivity|..];
      (apply range_keys_of_set;
       [apply (bool_decide_unpack _); vm_compute; exact I
       |apply (bool_decide_unpack _); vm_compute; exact I]). }
  assert (H2 : sampleParse (Sample.disk content) Sample.path
                 (Some (finish (sampleContent Sample.path content) ["/b"; "/a"] [] []))).
  { apply (ParseSessionFile_ok _ _ _ _ _ _ content); [reflexivity|..];
      (apply range_keys_of_set;
       [apply (bool_decide_unpack _); vm_compute; exact I
       |apply (bool_decide_unpack _); vm_compute; exact I]). }
  eexists. eexists. split; [exact H1|]. split; [exact H2|].
  pose proof (parse_deterministic_up_to_file_order _ _ _ _ _ _ _ _ H1 H2) as (He & _ & Hr & _).
  split; [exact He|exact Hr].
Defined.

(** C2. Revision tie-break, on two revisions of one message with equal
    timestamps: the map keeps the first of the two records, and the
    timeline shows its text, not the text of the record that comes later
    in the file. *)
Lemma equal_timestamps_keep_earlier_record :
  let lines := [Sample.partialLine; Sample.completeLine] in
  sampleStamp Sample.partial = sampleStamp Sample.complete
  ∧ sampleDecode lines = [Sample.partial; Sample.complete]
  ∧ assistantMessages (sampleRead Sample.path lines) !! "m1"
    = Some (mkGroup Sample.partial Sample.t1)
  ∧ map Event.Text (bEvents (sampleLines Sample.path lines)) = ["Hel"].
Proof. vm_compute. repeat split. Qed.






(** C7 on a file with a compaction summary between a prompt and an
    assistant message. *)
Lemma compact_summary_witness :
  bEvents (sampleLines Sample.path [Sample.promptLine; Sample.summaryLine; Sample.bashLine])
  = bEvents (sampleLines Sample.path [Sample.promptLine; Sample.bashLine]).
Proof.
  apply (proj2 (compact_summary_yields_no_event Sample.json_Unmarshal Sample.json_Marshal
                  Sample.time_Parse Sample.strings_TrimSpace Sample.path
                  [Sample.promptLine] Sample.summaryLine [Sample.bashLine] Sample.summary
                  ltac:(vm_compute; reflexivity) eq_refl eq_refl)).
Defined.

(** C9 on a file that ends with an assistant record without message. *)
Lemma assistant_without_identifier_witness :
  let present := sampleLines Sample.path [Sample.promptLine; Sample.bareLine] in
  bEvents present = bEvents (sampleLines Sample.path [Sample.promptLine])
  ∧ sampleStamp Sample.bare ≤ SessionInfo.LastUpdate (bInfo present).
Proof.
  destruct (assistant_without_identifier Sample.json_Unmarshal Sample.json_Marshal
              Sample.time_Parse Sample.strings_TrimSpace Sample.path
              [Sample.promptLine] Sample.bareLine [] Sample.bare
              ltac:(vm_compute; reflexivity) eq_refl (or_introl eq_refl))
    as (_ & He & _ & Hl & _).
  split; [exact He|exact Hl].
Defined.

(** C10 on the path of the samples. *)
Lemma session_identity_witness :
  ∃ sess,
    sampleParse
      (Sample.disk (Sample.file [Sample.promptLine; Sample.bashLine; Sample.resultLine]))
      Sample.path (Some sess)
    ∧ SessionInfo.ID (Session.Info sess) = "agent-7"
    ∧ SessionInfo.IsAgent (Session.Info sess) = true
    ∧ SessionInfo.ProjectDir (Session.Info sess) = "/home/u/my/proj"
    ∧ SessionInfo.ProjectName (Session.Info sess) = "proj".
Proof.
  eexists. split; [apply ParseSessionFile_elements; reflexivity|].
  match goal with
  | |- context [Session.Info ?s] =>
      destruct (session_identity_from_path Sample.json_Unmarshal Sample.json_Marshal
                  Sample.time_Parse Sample.strings_TrimSpace
                  (Sample.disk (Sample.file
                     [Sample.promptLine; Sample.bashLine; Sample.resultLine]))
                  Sample.path s)
        as (_ & _ & HID & _ & HAgent & HDir & HName & _)
  end.
  { apply ParseSessionFile_elements. reflexivity. }
  split; [apply HID; reflexivity|].
  split; [apply HAgent; exists "7.jsonl"; reflexivity|].
  split; [rewrite HDir; reflexivity|].
  rewrite HName, HDir. reflexivity.
Defined.



(** C6 on the sample home directory: after [NewStore] and one [Scan] the
    store holds the transcript with events and not the one without. *)
Lemma empty_session_witness :
  ∃ w,
    reachable Sample.json_Unmarshal Sample.json_Marshal Sample.time_Parse
      Sample.strings_TrimSpace "/home/u" w
    ∧ (∀ id sess, GetSession (fst w) id = Some sess -> Session.Events sess ≠ [])
    ∧ is_Some (GetSession (fst w) "agent-7")
    ∧ GetSession (fst w) "empty" = None.
Proof.
  eexists.
  match goal with |- ?R ∧ _ => assert (Hr : R) end.
  { eapply reachable_step; [apply reachable_new; reflexivity|].
    eapply (step_scan _ _ _ _ Sample.home).
    eapply Scan_ok; [reflexivity|].
    eapply scanDirs_project; [reflexivity|vm_compute; reflexivity| |].
    - eapply scanFiles_parse; [reflexivity| |].
      { apply ParseSessionFile_elements. vm_compute. reflexivity. }
      eapply scanFiles_parse; [reflexivity| |].
      { apply ParseSessionFile_elements. vm_compute. reflexivity. }
      eapply scanFiles_skip; [reflexivity|]. apply scanFiles_done.
    - eapply scanDirs_notdir; [reflexivity|]. apply scanDirs_done. }
  split; [exact Hr|].
  pose proof (empty_session_never_indexed _ _ _ _ _ _ Hr) as (_ & Hget & _).
  split; [exact Hget|].
  split.
  - apply (bool_decide_unpack _). vm_compute. exact I.
  - vm_compute. reflexivity.
Defined.

(** * The further properties on the sample transcripts *)

Local Abbreviation sampleText :=
  (Sample.file [Sample.promptLine; Sample.bashLine; Sample.resultLine]).
Local Abbreviation sampleScan :=
  (Scan Sample.json_Unmarshal Sample.json_Marshal Sample.time_Parse Sample.strings_TrimSpace).
Local Abbreviation sampleReachable :=
  (reachable Sample.json_Unmarshal Sample.json_Marshal Sample.time_Parse
     Sample.strings_TrimSpace).

(** The sample transcript parses; its three lines decode to the three
    sample records. *)
Lemma sample_decodes :
  sampleDecode (Scanner.tokens sampleText) = [Sample.prompt; Sample.bash; Sample.result].
Proof. vm_compute. reflexivity. Qed.

(** One [Scan] of the sample home directory, and the store it gives from
    a new store. *)
Local Ltac scan_sample_home :=
  eapply Scan_ok; [reflexivity|];
  eapply scanDirs_project; [reflexivity|vm_compute; reflexivity| |];
  [ eapply scanFiles_parse; [reflexivity|apply ParseSessionFile_elements; vm_compute; reflexivity|];
    eapply scanFiles_parse; [reflexivity|apply ParseSessionFile_elements; vm_compute; reflexivity|];
    eapply scanFiles_skip; [reflexivity|]; apply scanFiles_done
  | eapply scanDirs_notdir; [reflexivity|]; apply scanDirs_done ].

Local Ltac reach_sample_home :=
  eapply reachable_step; [apply reachable_new; reflexivity|];
  eapply (step_scan _ _ _ _ Sample.home); scan_sample_home.

(** X1 on the sample transcript. *)
Lemma events_are_well_shaped_witness :
  ∃ sess,
    sampleParse (Sample.disk sampleText) Sample.path (Some sess)
    ∧ length (Session.Events sess) = 3%nat
    ∧ Forall (wellShaped Sample.strings_TrimSpace) (Session.Events sess).
Proof.
  eexists. split; [apply ParseSessionFile_elements; reflexivity|].
  split; [vm_compute; reflexivity|].
  apply (events_are_well_shaped Sample.json_Unmarshal Sample.json_Marshal Sample.time_Parse
           Sample.strings_TrimSpace (Sample.disk sampleText) Sample.path).
  apply ParseSessionFile_elements. reflexivity.
Defined.

(** X2 on the sample transcript: each of its events comes from one of the
    three records. *)
Lemma events_come_from_records_witness :
  ∃ sess,
    sampleParse (Sample.disk sampleText) Sample.path (Some sess)
    ∧ ∀ ev, ev ∈ Session.Events sess ->
        ∃ e, e ∈ [Sample.prompt; Sample.bash; Sample.result]
             ∧ comesFrom Sample.time_Parse
                 (assistantMessages (sampleRead Sample.path (Scanner.tokens sampleText))) e ev.
Proof.
  eexists. split; [apply ParseSessionFile_elements; reflexivity|].
  match goal with
  | |- context [Session.Events ?s] =>
      destruct (events_come_from_records Sample.json_Unmarshal Sample.json_Marshal
                  Sample.time_Parse Sample.strings_TrimSpace
                  (Sample.disk sampleText) Sample.path s) as (c & Hc & Hev)
  end.
  { apply ParseSessionFile_elements. reflexivity. }
  assert (c = sampleText) as -> by (vm_compute in Hc; injection Hc as <-; reflexivity).
  cbv zeta in Hev. rewrite readLines_all, sample_decodes in Hev. exact Hev.
Defined.

(** X3 on the sample transcript: one prompt, one tool call, which is a
    [Bash] command, and no error. *)
Lemma activity_counters_witness :
  ∃ sess,
    sampleParse (Sample.disk sampleText) Sample.path (Some sess)
    ∧ SessionInfo.UserPrompts (Session.Info sess) = countEvents isPrompt (Session.Events sess)
    ∧ SessionInfo.Errors (Session.Info sess) = countEvents isErrorResult (Session.Events sess)
    ∧ SessionInfo.ToolCallCount (Session.Info sess)
      = countEvents isToolUse (Session.Events sess)
    ∧ SessionInfo.BashCommands (Session.Info sess)
      = countEvents (isToolNamed "Bash") (Session.Events sess).
Proof.
  eexists. split; [apply ParseSessionFile_elements; reflexivity|].
  match goal with
  | |- context [Session.Events ?s] =>
      destruct (activity_counters_agree_with_timeline Sample.json_Unmarshal Sample.json_Marshal
                  Sample.time_Parse Sample.strings_TrimSpace
                  (Sample.disk sampleText) Sample.path s) as (_ & _ & _ & _ & _ & Hexact)
  end.
  { apply ParseSessionFile_elements. reflexivity. }
  apply Hexact. vm_compute. reflexivity.
Defined.

(** X4 on a transcript that reads two files. *)
Lemma file_slices_witness :
  ∃ sess,
    sampleParse (Sample.disk (Sample.file [Sample.promptLine; Sample.readsLine]))
      Sample.path (Some sess)
    ∧ NoDup (SessionInfo.FilesRead (Session.Info sess))
    ∧ "/a" ∈ SessionInfo.FilesRead (Session.Info sess)
    ∧ "/b" ∈ SessionInfo.FilesRead (Session.Info sess).
Proof.
  eexists. split; [apply ParseSessionFile_elements; reflexivity|].
  match goal with
  | |- context [Session.Info ?s] =>
      destruct (file_slices_agree_with_timeline Sample.json_Unmarshal Sample.json_Marshal
                  Sample.time_Parse Sample.strings_TrimSpace
                  (Sample.disk (Sample.file [Sample.promptLine; Sample.readsLine]))
                  Sample.path s) as (Hn & _ & _ & Hread & _)
  end.
  { apply ParseSessionFile_elements. reflexivity. }
  split; [exact Hn|]. split.
  - apply Hread. eexists. split; [|split; [|split]];
      [apply list_elem_of_further, list_elem_of_here|reflexivity|reflexivity|].
    vm_compute. reflexivity.
  - apply Hread. eexists. split; [|split; [|split]];
      [apply list_elem_of_further, list_elem_of_further, list_elem_of_here
      |reflexivity|reflexivity|].
    vm_compute. reflexivity.
Defined.

(** X5 on the sample transcript. *)
Lemma session_time_bounds_witness :
  ∃ sess,
    sampleParse (Sample.disk sampleText) Sample.path (Some sess)
    ∧ SessionInfo.StartTime (Session.Info sess) ≤ SessionInfo.LastUpdate (Session.Info sess)
    ∧ (∀ e, e ∈ [Sample.prompt; Sample.bash; Sample.result] ->
         SessionInfo.StartTime (Session.Info sess) ≤ sampleStamp e
         ∧ sampleStamp e ≤ SessionInfo.LastUpdate (Session.Info sess)).
Proof.
  eexists. split; [apply ParseSessionFile_elements; reflexivity|].
  match goal with
  | |- context [Session.Info ?s] =>
      destruct (session_time_bounds Sample.json_Unmarshal Sample.json_Marshal
                  Sample.time_Parse Sample.strings_TrimSpace
                  (Sample.disk sampleText) Sample.path s)
        as (c & Hc & Hle & Hlast & _ & Hfirst & _)
  end.
  { apply ParseSessionFile_elements. reflexivity. }
  assert (c = sampleText) as -> by (vm_compute in Hc; injection Hc as <-; reflexivity).
  rewrite sample_decodes in Hlast, Hfirst.
  split; [exact Hle|]. intros e He. split; [|by apply Hlast].
  apply Hfirst; [done|].
  apply elem_of_cons in He as [-> | He]; [vm_compute; discriminate|].
  apply elem_of_cons in He as [-> | He]; [vm_compute; discriminate|].
  apply elem_of_cons in He as [-> | He]; [vm_compute; discriminate|].
  by apply elem_of_nil in He.
Defined.

(** X6 on the sample transcript: the working directory is that of the
    prompt, the model that of the assistant message. *)
Lemma first_record_with_data_witness :
  ∃ sess,
    sampleParse (Sample.disk sampleText) Sample.path (Some sess)
    ∧ SessionInfo.CWD (Session.Info sess) = "/home/u/proj"
    ∧ SessionInfo.Model (Session.Info sess) = "opus".
Proof.
  eexists. split; [apply ParseSessionFile_elements; reflexivity|].
  match goal with
  | |- context [Session.Info ?s] =>
      destruct (first_record_with_data_sets_metadata Sample.json_Unmarshal Sample.json_Marshal
                  Sample.time_Parse Sample.strings_TrimSpace
                  (Sample.disk sampleText) Sample.path s)
        as (c & Hc & _ & _ & Hcwd & Hmodel)
  end.
  { apply ParseSessionFile_elements. reflexivity. }
  assert (c = sampleText) as -> by (vm_compute in Hc; injection Hc as <-; reflexivity).
  rewrite sample_decodes in Hcwd, Hmodel. split.
  - apply (Hcwd [] Sample.prompt [Sample.bash; Sample.result]); [reflexivity| |discriminate].
    intros x Hx. by apply elem_of_nil in Hx.
  - apply (Hmodel [Sample.prompt] Sample.bash [Sample.result]); [reflexivity| |discriminate].
    intros x Hx. apply list_elem_of_singleton in Hx as ->. reflexivity.
Defined.

(** X8 on the sample home directory: the project directory is handed to
    the watcher, the plain file next to it is not. *)
Lemma Scan_registers_witness :
  ∃ s',
    sampleScan Sample.home (Store.mk ∅ Sample.base [] false) s' false
    ∧ Store.watched s' = [Sample.project]
    ∧ Store.baseDir s' = Sample.base
    ∧ Store.updates s' = false.
Proof.
  eexists.
  match goal with |- ?S ∧ _ => assert (HS : S) by scan_sample_home end.
  split; [exact HS|].
  destruct (Scan_registers_project_directories _ _ _ _ _ _ _ _ HS)
    as (_ & _ & Hb & Hu & Hw & _).
  split; [|split; [exact Hb|exact Hu]].
  rewrite (Hw _ eq_refl). reflexivity.
Defined.

(** X9 on the sample home directory: the session found under [agent-7]
    comes from a [.jsonl] file of the project directory. *)
Lemma Scan_indexes_only_transcripts_witness :
  ∃ s' sess,
    sampleScan Sample.home (Store.mk ∅ Sample.base [] false) s' false
    ∧ GetSession s' "agent-7" = Some sess
    ∧ ∃ d f,
        DirEntry.IsDir d = true ∧ DirEntry.IsDir f = false
        ∧ Strings.HasSuffix (DirEntry.Name f) ".jsonl" = true
        ∧ sampleParse (openFile Sample.home) (transcriptPath Sample.base d f) (Some sess)
        ∧ Session.Events sess ≠ [].
Proof.
  eexists.
  match goal with
  | |- ∃ sess, ?S ∧ _ => assert (HS : S) by scan_sample_home
  end.
  match type of HS with
  | Scan _ _ _ _ _ _ ?s _ =>
      assert (Hsome : is_Some (GetSession s "agent-7"))
        by (apply (bool_decide_unpack _); vm_compute; exact I)
  end.
  destruct Hsome as [sess Hsess]. exists sess.
  split; [exact HS|]. split; [exact Hsess|].
  destruct (Scan_indexes_only_transcripts _ _ _ _ _ _ _ _ _ _ HS Hsess)
    as [Hold|(entries & d & files & f & _ & _ & Hd & _ & _ & Hf & Hsuf & Hp & Hne & _)].
  - vm_compute in Hold. discriminate.
  - exists d, f. repeat split; assumption.
Defined.

(** X10 on the sample home directory: the transcript with three events is
    in the store after the scan. *)
Lemma Scan_finds_every_transcript_witness :
  ∃ s',
    sampleScan Sample.home (Store.mk ∅ Sample.base [] false) s' false
    ∧ is_Some (GetSession s' "agent-7").
Proof.
  eexists.
  match goal with |- ?S ∧ _ => assert (HS : S) by scan_sample_home end.
  split; [exact HS|].
  apply (Scan_finds_every_transcript _ _ _ _ _ _ _
           [DirEntry.mk "-home-u-my-proj" true; DirEntry.mk "notes.txt" false]
           (DirEntry.mk "-home-u-my-proj" true)
           [DirEntry.mk "agent-7.jsonl" false; DirEntry.mk "empty.jsonl" false;
            DirEntry.mk "readme.md" false]
           (DirEntry.mk "agent-7.jsonl" false) sampleText HS).
  - reflexivity.
  - apply list_elem_of_here.
  - reflexivity.
  - vm_compute. reflexivity.
  - apply list_elem_of_here.
  - reflexivity.
  - reflexivity.
  - vm_compute. reflexivity.
  - vm_compute. discriminate.
Defined.

(** X11 on the sample transcript and an empty store: after the timer has
    run the session is found under [agent-7] and an update is signalled. *)
Lemma timer_reparse_witness :
  ∃ sess,
    sampleParse (Sample.disk sampleText) Sample.path (Some sess)
    ∧ GetSession (watchPut (Some sess) (Store.mk ∅ Sample.base [] false)) "agent-7" = Some sess
    ∧ Store.updates (watchPut (Some sess) (Store.mk ∅ Sample.base [] false)) = true.
Proof.
  eexists.
  match goal with |- ?P ∧ _ => assert (HP : P) by (apply ParseSessionFile_elements; reflexivity) end.
  split; [exact HP|].
  destruct (timer_reparse_updates_one_session _ _ _ _ _ _ _
              (Store.mk ∅ Sample.base [] false) HP) as (Hput & _).
  apply (Hput _ eq_refl). vm_compute. discriminate.
Defined.

(** X12 on a series of four notifications: writes to two transcripts, a
    write to a file that is not a transcript and the removal of a third
    transcript; only the second transcript is re-parsed. *)
Lemma burst_witness :
  watchEvents
    [("/p/a.jsonl", fsnotify_Write); ("/p/b.jsonl", fsnotify_Write);
     ("/p/notes.txt", fsnotify_Write); ("/p/c.jsonl", 4)] None
  = Some "/p/b.jsonl".
Proof.
  apply (proj2 (burst_reparses_last_file_only _ None)
           [("/p/a.jsonl", fsnotify_Write)] ("/p/b.jsonl", fsnotify_Write)
           [("/p/notes.txt", fsnotify_Write); ("/p/c.jsonl", 4)]).
  - reflexivity.
  - reflexivity.
  - repeat constructor.
Defined.

(** X13 on the store that a scan of the sample home directory gives. *)
Lemma GetSessions_witness :
  ∃ w infos,
    sampleReachable "/home/u" w
    ∧ GetSessions (fst w) infos
    ∧ NoDup (SessionInfo.ID <$> infos)
    ∧ length infos = 1%nat.
Proof.
  eexists.
  match goal with |- ∃ infos, ?R ∧ _ => assert (Hr : R) by reach_sample_home end.
  destruct (GetSessions_lists_every_session_once _ _ _ _ _ _ Hr) as [[infos HG] Hall].
  exists infos. split; [exact Hr|]. split; [exact HG|].
  destruct (Hall infos HG) as (Hn & Hlen & _).
  split; [exact Hn|]. rewrite Hlen. vm_compute. reflexivity.
Defined.

(** X14 on the same store: a cursor beyond the end of the list is brought
    back into it. *)
Lemma refreshSessions_witness :
  ∃ w m',
    sampleReachable "/home/u" w
    ∧ refreshSessions (fst w)
        (mkModel viewSessions [] 5 None 0 0 None 0 false 80 24 "") m'
    ∧ 0 ≤ cursor m'
    ∧ (sessions m' ≠ [] -> cursor m' < Z.of_nat (length (sessions m'))).
Proof.
  eexists.
  match goal with |- ∃ m', ?R ∧ _ => assert (Hr : R) by reach_sample_home end.
  match type of Hr with
  | reachable _ _ _ _ _ ?w => destruct (GetSessions_total (fst w)) as [infos HG]
  end.
  eexists. split; [exact Hr|].
  match goal with
  | |- ?F ∧ _ => assert (Href : F) by exact (refreshSessions_run _ _ infos HG)
  end.
  split; [exact Href|].
  destruct (refreshSessions_keeps_view_consistent _ _ _ _ _ _ _ _ Hr Href)
    as (_ & _ & H0 & Hlt & _); [simpl; lia|].
  split; [exact H0|exact Hlt].
Defined.


(** X16 on two revisions of one message with equal timestamps: the
    candidate kept is the first of them. *)
Lemma kept_record_witness :
  ∃ final,
    assistantMessages (sampleRead Sample.path [Sample.partialLine; Sample.completeLine]) !! "m1"
    = Some final
    ∧ entry final = Sample.partial
    ∧ firstLatest Sample.time_Parse
        (allEntries (sampleRead Sample.path [Sample.partialLine; Sample.completeLine]))
        "m1" final.
Proof.
  exists (mkGroup Sample.partial Sample.t1).
  assert (Hl : assistantMessages
                 (sampleRead Sample.path [Sample.partialLine; Sample.completeLine]) !! "m1"
               = Some (mkGroup Sample.partial Sample.t1)) by (vm_compute; reflexivity).
  split; [exact Hl|]. split; [reflexivity|].
  exact (kept_record_is_first_latest _ _ _ _ _ _ Hl).
Defined.
